(** * libpccc: the DF1 link-layer daemon (df1d) and the PCCC client library

    A shallow embedding of the C sources into Rocq.

    - bytes, 16-bit words and [unsigned int] counters are integers of [Z]
      with their wrap-around written out ([u8], [u16], [u32]);
    - a [BUF] is the record of buf.c: its storage is a list indexed with
      stdpp's lookup and insert, [len], [index] and [max] are naturals;
    - a pointer to a [CLIENT] is the position of that client in the
      connection's linked list ([None] is [NULL]);
    - functions that the C code writes with loops over a buffer recurse on
      the number of bytes that remain to be read;
    - results live in a small error monad: [Fault OutOfFuel] when a bounded
      recursion runs out of steps, [Fault Undefined] where the C code would
      use an indeterminate value or follow an invalid pointer. *)

From Stdlib Require Import ZArith Lia Bool List String.
From stdpp Require Import base list.
Import ListNotations.
Open Scope Z_scope.

(** ** Machine integers *)

Definition u8 (x : Z) : Z := x mod 256.
Definition u16 (x : Z) : Z := x mod 65536.
Definition u32 (x : Z) : Z := x mod 4294967296.

(** [++x] on an [unsigned int]. *)
Definition uint_incr (x : Z) : Z := u32 (x + 1).

Definition is_byte (x : Z) : Prop := 0 <= x < 256.
Definition is_word (x : Z) : Prop := 0 <= x < 65536.

(** ** The error monad *)

Inductive fault : Type := OutOfFuel | Undefined.

Inductive result (A : Type) : Type :=
| Ok (a : A)
| Fault (f : fault).
Arguments Ok {A} a.
Arguments Fault {A} f.

Definition bind {A B : Type} (m : result A) (k : A -> result B) : result B :=
  match m with
  | Ok a => k a
  | Fault f => Fault f
  end.

Notation "'let*' x ':=' m 'in' k" := (bind m (fun x => k))
  (at level 10, x name, m at level 100, k at level 200).

(** ** Symbols (df1.h) *)

Definition SYM_STX : Z := 0x02.
Definition SYM_ETX : Z := 0x03.
Definition SYM_ENQ : Z := 0x05.
Definition SYM_ACK : Z := 0x06.
Definition SYM_NAK : Z := 0x15.
Definition SYM_DLE : Z := 0x10.

(** Modelled from the spec: common.h is not part of the sources at hand;
    the bytes of the daemon-to-client socket protocol are those that the
    specification gives (SOH = 0x01, MSG_ACK = 0x06, MSG_NAK = 0x15). *)
Definition MSG_SOH : Z := 0x01.
Definition MSG_ACK : Z := 0x06.
Definition MSG_NAK : Z := 0x15.

(** System tick period, in microseconds. *)
Definition TICK_USEC : Z := 10000.

Definition TX_BUF_SIZE : nat := 512.
Definition RX_BUF_SIZE : nat := 512.
Definition TTY_BUF_SIZE : nat := 512.
Definition CLIENT_BUF_SIZE : nat := 512.

(** ** CRC_ADD (df1.h)

    [for (crc ^= val, i = 8; i--;) if (crc & 1) { crc >>= 1; crc ^= 0xa001; }
     else crc >>= 1] on a [uint16_t crc]. *)

Definition crc_shift (crc : Z) : Z :=
  if Z.testbit crc 0
  then u16 (Z.lxor (u16 (Z.shiftr crc 1)) 0xa001)
  else u16 (Z.shiftr crc 1).

Definition CRC_ADD (crc val : Z) : Z :=
  Nat.iter 8 crc_shift (u16 (Z.lxor crc val)).

(** The CRC-16 of the specification, written bit by bit: polynomial 0xA001
    (reflected), initial value 0, every message bit, least significant
    first, is shifted through the register.  This definition follows the
    words of the specification and is compared with [CRC_ADD] below. *)

Definition crc16_bit (crc : Z) (b : bool) : Z :=
  if xorb (Z.testbit crc 0) b
  then Z.lxor (Z.shiftr crc 1) 0xa001
  else Z.shiftr crc 1.

Definition bits_of_byte (x : Z) : list bool :=
  map (fun i => Z.testbit x (Z.of_nat i)) (seq 0 8).

Definition crc16_byte (crc : Z) (x : Z) : Z :=
  fold_left crc16_bit (bits_of_byte x) crc.

Definition crc16_spec (msg : list Z) : Z := fold_left crc16_byte msg 0.

(** The block check character of the specification: [(- sum B) mod 256]. *)
Definition bcc_spec (msg : list Z) : Z := (- fold_right Z.add 0 msg) mod 256.

(** ** Host byte order (byteorder.c)

    [BYTE_ORDER] comes from a header that is not among the sources; it is a
    parameter of the development. *)

Inductive byte_order : Type := LITTLE_ENDIAN | BIG_ENDIAN.

(** The two bytes of a [uint16_t] object, in address order. *)
Definition mem16 (bo : byte_order) (w : Z) : Z * Z :=
  match bo with
  | LITTLE_ENDIAN => (w mod 256, (w / 256) mod 256)
  | BIG_ENDIAN => ((w / 256) mod 256, w mod 256)
  end.

(** The [uint16_t] value that two bytes in address order hold. *)
Definition val16 (bo : byte_order) (b0 b1 : Z) : Z :=
  match bo with
  | LITTLE_ENDIAN => b0 + 256 * b1
  | BIG_ENDIAN => 256 * b0 + b1
  end.

(** ** Buffers (buf.c) *)

Record BUF : Type := mkBUF {
  buf_data : list Z;   (* the storage, [max] bytes *)
  buf_len : nat;       (* bytes filled *)
  buf_index : nat;     (* read cursor *)
  buf_max : nat        (* capacity *)
}.

(** [buf_new]: fresh storage is taken to hold zero bytes. *)
Definition buf_new (bytes : nat) : BUF :=
  mkBUF (replicate bytes 0) 0 0 bytes.

Definition buf_wf (b : BUF) : Prop :=
  length (buf_data b) = buf_max b /\
  (buf_index b <= buf_len b)%nat /\ (buf_len b <= buf_max b)%nat.

(** The bytes that a buffer holds, and those not read yet. *)
Definition buf_contents (b : BUF) : list Z := take (buf_len b) (buf_data b).
Definition buf_pending (b : BUF) : list Z := drop (buf_index b) (buf_contents b).

Definition buf_empty (buf : BUF) : BUF :=
  mkBUF (buf_data buf) 0 0 (buf_max buf).

(** [memcpy(data + off, bytes, |bytes|)]. *)
Definition mem_write (data : list Z) (off : nat) (bytes : list Z) : list Z :=
  take off data ++ bytes ++ drop (off + length bytes) data.

Definition buf_append_buf (dst src : BUF) : BUF * Z :=
  let new_len := (buf_len dst + buf_len src)%nat in
  if (buf_max dst <? new_len)%nat then (dst, -1)
  else (mkBUF (mem_write (buf_data dst) (buf_len dst) (buf_contents src))
              new_len (buf_index dst) (buf_max dst), 0).

Definition buf_append_byte (dst : BUF) (src : Z) : BUF * Z :=
  if (buf_len dst =? buf_max dst)%nat then (dst, -1)
  else (mkBUF (<[buf_len dst := u8 src]> (buf_data dst))
              (S (buf_len dst)) (buf_index dst) (buf_max dst), 0).

Definition buf_get_byte (src : BUF) (dst : Z) : BUF * Z * Z :=
  if (buf_len src =? buf_index src)%nat then (src, -1, dst)
  else (mkBUF (buf_data src) (buf_len src) (S (buf_index src)) (buf_max src),
        0, buf_data src !!! buf_index src).

(** [buf_read]: [incoming] is what [read()] delivers, at most [max] bytes;
    the contents of the buffer are overwritten. *)
Definition buf_read (dst : BUF) (incoming : list Z) : BUF :=
  let got := take (buf_max dst) incoming in
  mkBUF (mem_write (buf_data dst) 0 got) (length got) 0 (buf_max dst).

Definition buf_write_ready (buf : BUF) : bool :=
  negb (buf_len buf =? 0)%nat && negb (buf_index buf =? buf_len buf)%nat.

(** [buf_write]: [bytes] is the count that [write()] accepted. *)
Definition buf_write (src : BUF) (bytes : nat) : BUF :=
  let src' := mkBUF (buf_data src) (buf_len src) (buf_index src + bytes)
                    (buf_max src) in
  if (buf_index src' =? buf_len src')%nat then buf_empty src' else src'.

Section Host.

Variable BYTE_ORDER : byte_order.

(** [ltohs] and [htols]: under [BYTE_ORDER == BIG_ENDIAN] both read the two
    bytes of their argument through a [uint8_t] pointer. *)
Definition ltohs (linkshort : Z) : Z :=
  match BYTE_ORDER with
  | BIG_ENDIAN =>
      let '(b0, b1) := mem16 BYTE_ORDER linkshort in u16 (b0 + Z.shiftl b1 8)
  | LITTLE_ENDIAN => linkshort
  end.

Definition htols (hostshort : Z) : Z :=
  match BYTE_ORDER with
  | BIG_ENDIAN =>
      let '(b0, b1) := mem16 BYTE_ORDER hostshort in u16 (Z.shiftl b0 8 + b1)
  | LITTLE_ENDIAN => hostshort
  end.

(** [*(uint16_t * )(dst->data + dst->len) = src]. *)
Definition buf_append_word (dst : BUF) (src : Z) : BUF * Z :=
  let new_len := (buf_len dst + 2)%nat in
  if (buf_max dst <? new_len)%nat then (dst, -1)
  else let '(b0, b1) := mem16 BYTE_ORDER (u16 src) in
       (mkBUF (mem_write (buf_data dst) (buf_len dst) [b0; b1])
              new_len (buf_index dst) (buf_max dst), 0).

Definition buf_get_word (src : BUF) (dst : Z) : BUF * Z * Z :=
  let new_index := (buf_index src + 2)%nat in
  if (buf_len src <? new_index)%nat then (src, -1, dst)
  else (mkBUF (buf_data src) (buf_len src) new_index (buf_max src), 0,
        val16 BYTE_ORDER (buf_data src !!! buf_index src)
                         (buf_data src !!! S (buf_index src))).

(** ** The data of the daemon (df1.h)

    Of the C structures the fields that only serve logging or the operating
    system (names, file descriptors, the baud rate, the list links) are left
    out; a [CLIENT *] is the position of the client in [clients]. *)

(** ** Diagnostic counters (df1.h); every counter is an [unsigned int]. *)

Record link_diag_cnt : Type := mk_link_diag_cnt {
  tx_attempts : Z;
  tx_success : Z;
  msg_rx : Z;
  acks_in : Z;
  naks_in : Z;
  resp_timeouts : Z;
  enqs_out : Z;
  tx_fail : Z;
  acks_out : Z;
  naks_out : Z;
  enqs_in : Z;
  runts : Z;
  bad_cs : Z;
  unknown_dst : Z;
  bytes_ignored : Z;
  dups : Z;
  rx_overflow : Z
}.

Definition set_tx_attempts (v : Z) (r : link_diag_cnt) : link_diag_cnt :=
  mk_link_diag_cnt v (tx_success r) (msg_rx r) (acks_in r) (naks_in r) (resp_timeouts r) (enqs_out r) (tx_fail r) (acks_out r) (naks_out r) (enqs_in r) (runts r) (bad_cs r) (unknown_dst r) (bytes_ignored r) (dups r) (rx_overflow r).
Definition set_tx_success (v : Z) (r : link_diag_cnt) : link_diag_cnt :=
  mk_link_diag_cnt (tx_attempts r) v (msg_rx r) (acks_in r) (naks_in r) (resp_timeouts r) (enqs_out r) (tx_fail r) (acks_out r) (naks_out r) (enqs_in r) (runts r) (bad_cs r) (unknown_dst r) (bytes_ignored r) (dups r) (rx_overflow r).
Definition set_msg_rx (v : Z) (r : link_diag_cnt) : link_diag_cnt :=
  mk_link_diag_cnt (tx_attempts r) (tx_success r) v (acks_in r) (naks_in r) (resp_timeouts r) (enqs_out r) (tx_fail r) (acks_out r) (naks_out r) (enqs_in r) (runts r) (bad_cs r) (unknown_dst r) (bytes_ignored r) (dups r) (rx_overflow r).
Definition set_acks_in (v : Z) (r : link_diag_cnt) : link_diag_cnt :=
  mk_link_diag_cnt (tx_attempts r) (tx_success r) (msg_rx r) v (naks_in r) (resp_timeouts r) (enqs_out r) (tx_fail r) (acks_out r) (naks_out r) (enqs_in r) (runts r) (bad_cs r) (unknown_dst r) (bytes_ignored r) (dups r) (rx_overflow r).
Definition set_naks_in (v : Z) (r : link_diag_cnt) : link_diag_cnt :=
  mk_link_diag_cnt (tx_attempts r) (tx_success r) (msg_rx r) (acks_in r) v (resp_timeouts r) (enqs_out r) (tx_fail r) (acks_out r) (naks_out r) (enqs_in r) (runts r) (bad_cs r) (unknown_dst r) (bytes_ignored r) (dups r) (rx_overflow r).
Definition set_resp_timeouts (v : Z) (r : link_diag_cnt) : link_diag_cnt :=
  mk_link_diag_cnt (tx_attempts r) (tx_success r) (msg_rx r) (acks_in r) (naks_in r) v (enqs_out r) (tx_fail r) (acks_out r) (naks_out r) (enqs_in r) (runts r) (bad_cs r) (unknown_dst r) (bytes_ignored r) (dups r) (rx_overflow r).
Definition set_enqs_out (v : Z) (r : link_diag_cnt) : link_diag_cnt :=
  mk_link_diag_cnt (tx_attempts r) (tx_success r) (msg_rx r) (acks_in r) (naks_in r) (resp_timeouts r) v (tx_fail r) (acks_out r) (naks_out r) (enqs_in r) (runts r) (bad_cs r) (unknown_dst r) (bytes_ignored r) (dups r) (rx_overflow r).
Definition set_tx_fail (v : Z) (r : link_diag_cnt) : link_diag_cnt :=
  mk_link_diag_cnt (tx_attempts r) (tx_success r) (msg_rx r) (acks_in r) (naks_in r) (resp_timeouts r) (enqs_out r) v (acks_out r) (naks_out r) (enqs_in r) (runts r) (bad_cs r) (unknown_dst r) (bytes_ignored r) (dups r) (rx_overflow r).
Definition set_acks_out (v : Z) (r : link_diag_cnt) : link_diag_cnt :=
  mk_link_diag_cnt (tx_attempts r) (tx_success r) (msg_rx r) (acks_in r) (naks_in r) (resp_timeouts r) (enqs_out r) (tx_fail r) v (naks_out r) (enqs_in r) (runts r) (bad_cs r) (unknown_dst r) (bytes_ignored r) (dups r) (rx_overflow r).
Definition set_naks_out (v : Z) (r : link_diag_cnt) : link_diag_cnt :=
  mk_link_diag_cnt (tx_attempts r) (tx_success r) (msg_rx r) (acks_in r) (naks_in r) (resp_timeouts r) (enqs_out r) (tx_fail r) (acks_out r) v (enqs_in r) (runts r) (bad_cs r) (unknown_dst r) (bytes_ignored r) (dups r) (rx_overflow r).
Definition set_enqs_in (v : Z) (r : link_diag_cnt) : link_diag_cnt :=
  mk_link_diag_cnt (tx_attempts r) (tx_success r) (msg_rx r) (acks_in r) (naks_in r) (resp_timeouts r) (enqs_out r) (tx_fail r) (acks_out r) (naks_out r) v (runts r) (bad_cs r) (unknown_dst r) (bytes_ignored r) (dups r) (rx_overflow r).
Definition set_runts (v : Z) (r : link_diag_cnt) : link_diag_cnt :=
  mk_link_diag_cnt (tx_attempts r) (tx_success r) (msg_rx r) (acks_in r) (naks_in r) (resp_timeouts r) (enqs_out r) (tx_fail r) (acks_out r) (naks_out r) (enqs_in r) v (bad_cs r) (unknown_dst r) (bytes_ignored r) (dups r) (rx_overflow r).
Definition set_bad_cs (v : Z) (r : link_diag_cnt) : link_diag_cnt :=
  mk_link_diag_cnt (tx_attempts r) (tx_success r) (msg_rx r) (acks_in r) (naks_in r) (resp_timeouts r) (enqs_out r) (tx_fail r) (acks_out r) (naks_out r) (enqs_in r) (runts r) v (unknown_dst r) (bytes_ignored r) (dups r) (rx_overflow r).
Definition set_unknown_dst (v : Z) (r : link_diag_cnt) : link_diag_cnt :=
  mk_link_diag_cnt (tx_attempts r) (tx_success r) (msg_rx r) (acks_in r) (naks_in r) (resp_timeouts r) (enqs_out r) (tx_fail r) (acks_out r) (naks_out r) (enqs_in r) (runts r) (bad_cs r) v (bytes_ignored r) (dups r) (rx_overflow r).
Definition set_bytes_ignored (v : Z) (r : link_diag_cnt) : link_diag_cnt :=
  mk_link_diag_cnt (tx_attempts r) (tx_success r) (msg_rx r) (acks_in r) (naks_in r) (resp_timeouts r) (enqs_out r) (tx_fail r) (acks_out r) (naks_out r) (enqs_in r) (runts r) (bad_cs r) (unknown_dst r) v (dups r) (rx_overflow r).
Definition set_dups (v : Z) (r : link_diag_cnt) : link_diag_cnt :=
  mk_link_diag_cnt (tx_attempts r) (tx_success r) (msg_rx r) (acks_in r) (naks_in r) (resp_timeouts r) (enqs_out r) (tx_fail r) (acks_out r) (naks_out r) (enqs_in r) (runts r) (bad_cs r) (unknown_dst r) (bytes_ignored r) v (rx_overflow r).
Definition set_rx_overflow (v : Z) (r : link_diag_cnt) : link_diag_cnt :=
  mk_link_diag_cnt (tx_attempts r) (tx_success r) (msg_rx r) (acks_in r) (naks_in r) (resp_timeouts r) (enqs_out r) (tx_fail r) (acks_out r) (naks_out r) (enqs_in r) (runts r) (bad_cs r) (unknown_dst r) (bytes_ignored r) (dups r) v.

Record client_diag_cnt : Type := mk_client_diag_cnt {
  cl_tx_attempts : Z;
  cl_tx_success : Z;
  cl_tx_fail : Z;
  sink_full : Z;
  cl_msg_rx : Z;
  msg_reject : Z;
  msg_accept : Z;
  rx_timeouts : Z
}.

Definition set_cl_tx_attempts (v : Z) (r : client_diag_cnt) : client_diag_cnt :=
  mk_client_diag_cnt v (cl_tx_success r) (cl_tx_fail r) (sink_full r) (cl_msg_rx r) (msg_reject r) (msg_accept r) (rx_timeouts r).
Definition set_cl_tx_success (v : Z) (r : client_diag_cnt) : client_diag_cnt :=
  mk_client_diag_cnt (cl_tx_attempts r) v (cl_tx_fail r) (sink_full r) (cl_msg_rx r) (msg_reject r) (msg_accept r) (rx_timeouts r).
Definition set_cl_tx_fail (v : Z) (r : client_diag_cnt) : client_diag_cnt :=
  mk_client_diag_cnt (cl_tx_attempts r) (cl_tx_success r) v (sink_full r) (cl_msg_rx r) (msg_reject r) (msg_accept r) (rx_timeouts r).
Definition set_sink_full (v : Z) (r : client_diag_cnt) : client_diag_cnt :=
  mk_client_diag_cnt (cl_tx_attempts r) (cl_tx_success r) (cl_tx_fail r) v (cl_msg_rx r) (msg_reject r) (msg_accept r) (rx_timeouts r).
Definition set_cl_msg_rx (v : Z) (r : client_diag_cnt) : client_diag_cnt :=
  mk_client_diag_cnt (cl_tx_attempts r) (cl_tx_success r) (cl_tx_fail r) (sink_full r) v (msg_reject r) (msg_accept r) (rx_timeouts r).
Definition set_msg_reject (v : Z) (r : client_diag_cnt) : client_diag_cnt :=
  mk_client_diag_cnt (cl_tx_attempts r) (cl_tx_success r) (cl_tx_fail r) (sink_full r) (cl_msg_rx r) v (msg_accept r) (rx_timeouts r).
Definition set_msg_accept (v : Z) (r : client_diag_cnt) : client_diag_cnt :=
  mk_client_diag_cnt (cl_tx_attempts r) (cl_tx_success r) (cl_tx_fail r) (sink_full r) (cl_msg_rx r) (msg_reject r) v (rx_timeouts r).
Definition set_rx_timeouts (v : Z) (r : client_diag_cnt) : client_diag_cnt :=
  mk_client_diag_cnt (cl_tx_attempts r) (cl_tx_success r) (cl_tx_fail r) (sink_full r) (cl_msg_rx r) (msg_reject r) (msg_accept r) v.

Inductive CLIENT_STATE_T : Type :=
| CLIENT_CONNECTED | CLIENT_REG_LEN | CLIENT_REG_NAME | CLIENT_IDLE
| CLIENT_MSG_LEN | CLIENT_MSG | CLIENT_MSG_READY | CLIENT_MSG_PEND.

(** The integer value of the enumeration constant, for [>=]. *)
Definition client_state_rank (s : CLIENT_STATE_T) : Z :=
  match s with
  | CLIENT_CONNECTED => 0 | CLIENT_REG_LEN => 1 | CLIENT_REG_NAME => 2
  | CLIENT_IDLE => 3 | CLIENT_MSG_LEN => 4 | CLIENT_MSG => 5
  | CLIENT_MSG_READY => 6 | CLIENT_MSG_PEND => 7
  end.

Inductive TX_STATE_T : Type := TX_IDLE | TX_PEND_MSG_TX | TX_PEND_RESP.

Inductive RX_STATE_T : Type := RX_IDLE | RX_APP | RX_CS1 | RX_CS2 | RX_PEND.

(** The checksum unions of [RX]: a connection only ever uses the member
    that its [use_crc] flag selects, so the two members are kept apart. *)
Record CLIENT : Type := mkCLIENT {
  client_state : CLIENT_STATE_T;
  addr : Z;
  df1_tx : BUF;
  sock_out : BUF;
  sock_in : BUF;
  client_dcnts : client_diag_cnt
}.

Definition set_client_state (v : CLIENT_STATE_T) (r : CLIENT) : CLIENT :=
  mkCLIENT v (addr r) (df1_tx r) (sock_out r) (sock_in r) (client_dcnts r).
Definition set_addr (v : Z) (r : CLIENT) : CLIENT :=
  mkCLIENT (client_state r) v (df1_tx r) (sock_out r) (sock_in r) (client_dcnts r).
Definition set_df1_tx (v : BUF) (r : CLIENT) : CLIENT :=
  mkCLIENT (client_state r) (addr r) v (sock_out r) (sock_in r) (client_dcnts r).
Definition set_sock_out (v : BUF) (r : CLIENT) : CLIENT :=
  mkCLIENT (client_state r) (addr r) (df1_tx r) v (sock_in r) (client_dcnts r).
Definition set_sock_in (v : BUF) (r : CLIENT) : CLIENT :=
  mkCLIENT (client_state r) (addr r) (df1_tx r) (sock_out r) v (client_dcnts r).
Definition set_client_dcnts (v : client_diag_cnt) (r : CLIENT) : CLIENT :=
  mkCLIENT (client_state r) (addr r) (df1_tx r) (sock_out r) (sock_in r) v.

Record TX : Type := mkTX {
  tx_state : TX_STATE_T;
  max_nak : Z;
  max_enq : Z;
  nak_cnt : Z;
  enq_cnt : Z;
  tx_eticks : Z;
  tx_tticks : Z;
  tx_buf : BUF;
  tx_client : option nat
}.

Definition set_tx_state (v : TX_STATE_T) (r : TX) : TX :=
  mkTX v (max_nak r) (max_enq r) (nak_cnt r) (enq_cnt r) (tx_eticks r) (tx_tticks r) (tx_buf r) (tx_client r).
Definition set_max_nak (v : Z) (r : TX) : TX :=
  mkTX (tx_state r) v (max_enq r) (nak_cnt r) (enq_cnt r) (tx_eticks r) (tx_tticks r) (tx_buf r) (tx_client r).
Definition set_max_enq (v : Z) (r : TX) : TX :=
  mkTX (tx_state r) (max_nak r) v (nak_cnt r) (enq_cnt r) (tx_eticks r) (tx_tticks r) (tx_buf r) (tx_client r).
Definition set_nak_cnt (v : Z) (r : TX) : TX :=
  mkTX (tx_state r) (max_nak r) (max_enq r) v (enq_cnt r) (tx_eticks r) (tx_tticks r) (tx_buf r) (tx_client r).
Definition set_enq_cnt (v : Z) (r : TX) : TX :=
  mkTX (tx_state r) (max_nak r) (max_enq r) (nak_cnt r) v (tx_eticks r) (tx_tticks r) (tx_buf r) (tx_client r).
Definition set_tx_eticks (v : Z) (r : TX) : TX :=
  mkTX (tx_state r) (max_nak r) (max_enq r) (nak_cnt r) (enq_cnt r) v (tx_tticks r) (tx_buf r) (tx_client r).
Definition set_tx_tticks (v : Z) (r : TX) : TX :=
  mkTX (tx_state r) (max_nak r) (max_enq r) (nak_cnt r) (enq_cnt r) (tx_eticks r) v (tx_buf r) (tx_client r).
Definition set_tx_buf (v : BUF) (r : TX) : TX :=
  mkTX (tx_state r) (max_nak r) (max_enq r) (nak_cnt r) (enq_cnt r) (tx_eticks r) (tx_tticks r) v (tx_client r).
Definition set_tx_client (v : option nat) (r : TX) : TX :=
  mkTX (tx_state r) (max_nak r) (max_enq r) (nak_cnt r) (enq_cnt r) (tx_eticks r) (tx_tticks r) (tx_buf r) v.

Record CS : Type := mkCS {
  crc : Z;
  bcc : Z
}.

Definition set_crc (v : Z) (r : CS) : CS :=
  mkCS v (bcc r).
Definition set_bcc (v : Z) (r : CS) : CS :=
  mkCS (crc r) v.

Record RX : Type := mkRX {
  rx_state : RX_STATE_T;
  rx_app : BUF;
  rx_dup : Z * Z * Z * Z;
  rx_eticks : Z;
  rx_tticks : Z;
  last_was_ack : bool;
  overflow : bool;
  dup_detect : bool;
  prev_dle : bool;
  rx_client : option nat;
  msg_cs : CS;
  acc_cs : CS
}.

Definition set_rx_state (v : RX_STATE_T) (r : RX) : RX :=
  mkRX v (rx_app r) (rx_dup r) (rx_eticks r) (rx_tticks r) (last_was_ack r) (overflow r) (dup_detect r) (prev_dle r) (rx_client r) (msg_cs r) (acc_cs r).
Definition set_rx_app (v : BUF) (r : RX) : RX :=
  mkRX (rx_state r) v (rx_dup r) (rx_eticks r) (rx_tticks r) (last_was_ack r) (overflow r) (dup_detect r) (prev_dle r) (rx_client r) (msg_cs r) (acc_cs r).
Definition set_rx_dup (v : Z * Z * Z * Z) (r : RX) : RX :=
  mkRX (rx_state r) (rx_app r) v (rx_eticks r) (rx_tticks r) (last_was_ack r) (overflow r) (dup_detect r) (prev_dle r) (rx_client r) (msg_cs r) (acc_cs r).
Definition set_rx_eticks (v : Z) (r : RX) : RX :=
  mkRX (rx_state r) (rx_app r) (rx_dup r) v (rx_tticks r) (last_was_ack r) (overflow r) (dup_detect r) (prev_dle r) (rx_client r) (msg_cs r) (acc_cs r).
Definition set_rx_tticks (v : Z) (r : RX) : RX :=
  mkRX (rx_state r) (rx_app r) (rx_dup r) (rx_eticks r) v (last_was_ack r) (overflow r) (dup_detect r) (prev_dle r) (rx_client r) (msg_cs r) (acc_cs r).
Definition set_last_was_ack (v : bool) (r : RX) : RX :=
  mkRX (rx_state r) (rx_app r) (rx_dup r) (rx_eticks r) (rx_tticks r) v (overflow r) (dup_detect r) (prev_dle r) (rx_client r) (msg_cs r) (acc_cs r).
Definition set_overflow (v : bool) (r : RX) : RX :=
  mkRX (rx_state r) (rx_app r) (rx_dup r) (rx_eticks r) (rx_tticks r) (last_was_ack r) v (dup_detect r) (prev_dle r) (rx_client r) (msg_cs r) (acc_cs r).
Definition set_dup_detect (v : bool) (r : RX) : RX :=
  mkRX (rx_state r) (rx_app r) (rx_dup r) (rx_eticks r) (rx_tticks r) (last_was_ack r) (overflow r) v (prev_dle r) (rx_client r) (msg_cs r) (acc_cs r).
Definition set_prev_dle (v : bool) (r : RX) : RX :=
  mkRX (rx_state r) (rx_app r) (rx_dup r) (rx_eticks r) (rx_tticks r) (last_was_ack r) (overflow r) (dup_detect r) v (rx_client r) (msg_cs r) (acc_cs r).
Definition set_rx_client (v : option nat) (r : RX) : RX :=
  mkRX (rx_state r) (rx_app r) (rx_dup r) (rx_eticks r) (rx_tticks r) (last_was_ack r) (overflow r) (dup_detect r) (prev_dle r) v (msg_cs r) (acc_cs r).
Definition set_msg_cs (v : CS) (r : RX) : RX :=
  mkRX (rx_state r) (rx_app r) (rx_dup r) (rx_eticks r) (rx_tticks r) (last_was_ack r) (overflow r) (dup_detect r) (prev_dle r) (rx_client r) v (acc_cs r).
Definition set_acc_cs (v : CS) (r : RX) : RX :=
  mkRX (rx_state r) (rx_app r) (rx_dup r) (rx_eticks r) (rx_tticks r) (last_was_ack r) (overflow r) (dup_detect r) (prev_dle r) (rx_client r) (msg_cs r) v.

Record CONN : Type := mkCONN {
  use_crc : bool;
  read_sym : bool;
  embed_rsp : bool;
  tty_in : BUF;
  tty_out : BUF;
  tx : TX;
  rx : RX;
  clients : list CLIENT;
  dcnts : link_diag_cnt
}.

Definition set_use_crc (v : bool) (r : CONN) : CONN :=
  mkCONN v (read_sym r) (embed_rsp r) (tty_in r) (tty_out r) (tx r) (rx r) (clients r) (dcnts r).
Definition set_read_sym (v : bool) (r : CONN) : CONN :=
  mkCONN (use_crc r) v (embed_rsp r) (tty_in r) (tty_out r) (tx r) (rx r) (clients r) (dcnts r).
Definition set_embed_rsp (v : bool) (r : CONN) : CONN :=
  mkCONN (use_crc r) (read_sym r) v (tty_in r) (tty_out r) (tx r) (rx r) (clients r) (dcnts r).
Definition set_tty_in (v : BUF) (r : CONN) : CONN :=
  mkCONN (use_crc r) (read_sym r) (embed_rsp r) v (tty_out r) (tx r) (rx r) (clients r) (dcnts r).
Definition set_tty_out (v : BUF) (r : CONN) : CONN :=
  mkCONN (use_crc r) (read_sym r) (embed_rsp r) (tty_in r) v (tx r) (rx r) (clients r) (dcnts r).
Definition set_tx (v : TX) (r : CONN) : CONN :=
  mkCONN (use_crc r) (read_sym r) (embed_rsp r) (tty_in r) (tty_out r) v (rx r) (clients r) (dcnts r).
Definition set_rx (v : RX) (r : CONN) : CONN :=
  mkCONN (use_crc r) (read_sym r) (embed_rsp r) (tty_in r) (tty_out r) (tx r) v (clients r) (dcnts r).
Definition set_clients (v : list CLIENT) (r : CONN) : CONN :=
  mkCONN (use_crc r) (read_sym r) (embed_rsp r) (tty_in r) (tty_out r) (tx r) (rx r) v (dcnts r).
Definition set_dcnts (v : link_diag_cnt) (r : CONN) : CONN :=
  mkCONN (use_crc r) (read_sym r) (embed_rsp r) (tty_in r) (tty_out r) (tx r) (rx r) (clients r) v.

Definition upd_tx (f : TX -> TX) (conn : CONN) : CONN := set_tx (f (tx conn)) conn.
Definition upd_rx (f : RX -> RX) (conn : CONN) : CONN := set_rx (f (rx conn)) conn.
Definition upd_client (i : nat) (f : CLIENT -> CLIENT) (conn : CONN) : CONN :=
  set_clients (alter f i (clients conn)) conn.

Definition incr_tx_attempts (conn : CONN) : CONN :=
  set_dcnts (set_tx_attempts (uint_incr (tx_attempts (dcnts conn))) (dcnts conn)) conn.
Definition incr_tx_success (conn : CONN) : CONN :=
  set_dcnts (set_tx_success (uint_incr (tx_success (dcnts conn))) (dcnts conn)) conn.
Definition incr_msg_rx (conn : CONN) : CONN :=
  set_dcnts (set_msg_rx (uint_incr (msg_rx (dcnts conn))) (dcnts conn)) conn.
Definition incr_acks_in (conn : CONN) : CONN :=
  set_dcnts (set_acks_in (uint_incr (acks_in (dcnts conn))) (dcnts conn)) conn.
Definition incr_naks_in (conn : CONN) : CONN :=
  set_dcnts (set_naks_in (uint_incr (naks_in (dcnts conn))) (dcnts conn)) conn.
Definition incr_resp_timeouts (conn : CONN) : CONN :=
  set_dcnts (set_resp_timeouts (uint_incr (resp_timeouts (dcnts conn))) (dcnts conn)) conn.
Definition incr_enqs_out (conn : CONN) : CONN :=
  set_dcnts (set_enqs_out (uint_incr (enqs_out (dcnts conn))) (dcnts conn)) conn.
Definition incr_tx_fail (conn : CONN) : CONN :=
  set_dcnts (set_tx_fail (uint_incr (tx_fail (dcnts conn))) (dcnts conn)) conn.
Definition incr_acks_out (conn : CONN) : CONN :=
  set_dcnts (set_acks_out (uint_incr (acks_out (dcnts conn))) (dcnts conn)) conn.
Definition incr_naks_out (conn : CONN) : CONN :=
  set_dcnts (set_naks_out (uint_incr (naks_out (dcnts conn))) (dcnts conn)) conn.
Definition incr_enqs_in (conn : CONN) : CONN :=
  set_dcnts (set_enqs_in (uint_incr (enqs_in (dcnts conn))) (dcnts conn)) conn.
Definition incr_runts (conn : CONN) : CONN :=
  set_dcnts (set_runts (uint_incr (runts (dcnts conn))) (dcnts conn)) conn.
Definition incr_bad_cs (conn : CONN) : CONN :=
  set_dcnts (set_bad_cs (uint_incr (bad_cs (dcnts conn))) (dcnts conn)) conn.
Definition incr_unknown_dst (conn : CONN) : CONN :=
  set_dcnts (set_unknown_dst (uint_incr (unknown_dst (dcnts conn))) (dcnts conn)) conn.
Definition incr_bytes_ignored (conn : CONN) : CONN :=
  set_dcnts (set_bytes_ignored (uint_incr (bytes_ignored (dcnts conn))) (dcnts conn)) conn.
Definition incr_dups (conn : CONN) : CONN :=
  set_dcnts (set_dups (uint_incr (dups (dcnts conn))) (dcnts conn)) conn.
Definition incr_rx_overflow (conn : CONN) : CONN :=
  set_dcnts (set_rx_overflow (uint_incr (rx_overflow (dcnts conn))) (dcnts conn)) conn.

Definition incr_cl_tx_attempts (c : CLIENT) : CLIENT :=
  set_client_dcnts (set_cl_tx_attempts (uint_incr (cl_tx_attempts (client_dcnts c))) (client_dcnts c)) c.
Definition incr_cl_tx_success (c : CLIENT) : CLIENT :=
  set_client_dcnts (set_cl_tx_success (uint_incr (cl_tx_success (client_dcnts c))) (client_dcnts c)) c.
Definition incr_cl_tx_fail (c : CLIENT) : CLIENT :=
  set_client_dcnts (set_cl_tx_fail (uint_incr (cl_tx_fail (client_dcnts c))) (client_dcnts c)) c.
Definition incr_sink_full (c : CLIENT) : CLIENT :=
  set_client_dcnts (set_sink_full (uint_incr (sink_full (client_dcnts c))) (client_dcnts c)) c.
Definition incr_cl_msg_rx (c : CLIENT) : CLIENT :=
  set_client_dcnts (set_cl_msg_rx (uint_incr (cl_msg_rx (client_dcnts c))) (client_dcnts c)) c.
Definition incr_msg_reject (c : CLIENT) : CLIENT :=
  set_client_dcnts (set_msg_reject (uint_incr (msg_reject (client_dcnts c))) (client_dcnts c)) c.
Definition incr_msg_accept (c : CLIENT) : CLIENT :=
  set_client_dcnts (set_msg_accept (uint_incr (msg_accept (client_dcnts c))) (client_dcnts c)) c.
Definition incr_rx_timeouts (c : CLIENT) : CLIENT :=
  set_client_dcnts (set_rx_timeouts (uint_incr (rx_timeouts (client_dcnts c))) (client_dcnts c)) c.

(** ** The receiver, first part (rx.c) *)

Definition rx_set_nak (r : RX) : RX := set_last_was_ack false r.

Definition rx_active (r : RX) : bool :=
  match rx_state r with
  | RX_IDLE | RX_PEND => false
  | _ => true
  end.

(** [buf_append_byte(b, SYM_DLE) || buf_append_byte(b, sym)]: the second
    byte is only tried when the first one went in. *)
Definition append_dle_sym (b : BUF) (sym : Z) : BUF * bool :=
  let '(b1, r1) := buf_append_byte b SYM_DLE in
  if negb (r1 =? 0) then (b1, true)
  else let '(b2, r2) := buf_append_byte b1 sym in (b2, negb (r2 =? 0)).

Definition rx_ack (conn : CONN) : CONN :=
  let conn := set_tty_out (fst (append_dle_sym (tty_out conn) SYM_ACK)) conn in
  let conn := upd_rx (set_last_was_ack true) conn in
  let conn := upd_rx (set_rx_state RX_IDLE) conn in
  let conn := upd_rx (set_rx_client None) conn in
  incr_acks_out conn.

Definition rx_nak (conn : CONN) : CONN :=
  let conn := set_tty_out (fst (append_dle_sym (tty_out conn) SYM_NAK)) conn in
  let conn := upd_rx rx_set_nak conn in
  let conn := upd_rx (set_rx_state RX_IDLE) conn in
  let conn := upd_rx (set_rx_client None) conn in
  incr_naks_out conn.

Definition rx_enq (conn : CONN) : result CONN :=
  match rx_state (rx conn) with
  | RX_PEND =>
      match rx_client (rx conn) with
      | Some c =>
          match clients conn !! c with
          | Some _ => Ok (rx_ack (upd_client c incr_rx_timeouts conn))
          | None => Fault Undefined
          end
      | None => Fault Undefined
      end
  | _ => Ok (if last_was_ack (rx conn) then rx_ack conn else rx_nak conn)
  end.

Definition rx_tick (conn : CONN) : CONN :=
  match rx_state (rx conn) with
  | RX_IDLE | RX_PEND => conn
  | _ =>
      let conn := upd_rx (fun r => set_rx_eticks (uint_incr (rx_eticks r)) r) conn in
      if rx_tticks (rx conn) <? rx_eticks (rx conn)
      then upd_rx rx_set_nak (upd_rx (set_rx_state RX_IDLE) conn)
      else conn
  end.

(** [rx_init]; a failing allocation is not modelled. *)
Definition rx_init (conn : CONN) (dup_detect : Z) : CONN :=
  let conn := upd_rx (set_rx_app (buf_new RX_BUF_SIZE)) conn in
  let conn := upd_rx (set_dup_detect (negb (dup_detect =? 0))) conn in
  let conn := upd_rx rx_set_nak conn in
  let conn := upd_rx (set_rx_state RX_IDLE) conn in
  upd_rx (set_rx_tticks (u32 (5000000 / TICK_USEC + 1))) conn.

Definition cs_clear (conn : CONN) : CONN :=
  if use_crc conn
  then upd_rx (fun r => set_acc_cs (set_crc 0 (acc_cs r)) r) conn
  else upd_rx (fun r => set_acc_cs (set_bcc 0 (acc_cs r)) r) conn.

Definition cs_add (conn : CONN) (x : Z) : CONN :=
  if use_crc conn
  then upd_rx (fun r => set_acc_cs (set_crc (CRC_ADD (crc (acc_cs r)) x) (acc_cs r)) r) conn
  else upd_rx (fun r => set_acc_cs (set_bcc (u8 (bcc (acc_cs r) + x)) (acc_cs r)) r) conn.

Definition cs_ok (conn : CONN) : bool :=
  if use_crc conn
  then crc (acc_cs (rx conn)) =? crc (msg_cs (rx conn))
  else u8 (Z.lnot (bcc (acc_cs (rx conn))) + 1) =? bcc (msg_cs (rx conn)).

(** The four bytes that duplicate detection looks at. *)
Definition dup_bytes (app : BUF) : Z * Z * Z * Z :=
  (buf_data app !!! 1%nat, buf_data app !!! 2%nat,
   buf_data app !!! 4%nat, buf_data app !!! 5%nat).

Definition dup_eqb (a b : Z * Z * Z * Z) : bool :=
  let '(a0, a1, a2, a3) := a in
  let '(b0, b1, b2, b3) := b in
  (a0 =? b0) && (a1 =? b1) && (a2 =? b2) && (a3 =? b3).

Definition msg_dup (conn : CONN) : CONN * bool :=
  if negb (dup_detect (rx conn)) then (conn, false)
  else
    let hit := dup_eqb (dup_bytes (rx_app (rx conn))) (rx_dup (rx conn)) in
    let conn := if hit then incr_dups conn else conn in
    (upd_rx (set_rx_dup (dup_bytes (rx_app (rx conn)))) conn, hit).

(** ** Clients (client.c) *)

Fixpoint find_addr_from (l : list CLIENT) (i : nat) (a : Z) : option nat :=
  match l with
  | [] => None
  | client :: l' =>
      if (client_state_rank CLIENT_IDLE <=? client_state_rank (client_state client))
         && (addr client =? a)
      then Some i
      else find_addr_from l' (S i) a
  end.

Definition find_addr (conn : CONN) (a : Z) : option nat :=
  find_addr_from (clients conn) 0 a.

(** [client_msg_rx].  The result of [buf_get_byte] is not looked at by the C
    code: were the buffer exhausted, [dst] would be indeterminate.  When the
    socket buffer of the client is full the C code sends the NAK and then
    goes on with the statements that follow the [if]. *)
Definition client_msg_rx (conn : CONN) : result CONN :=
  let '(app, rc, dst) := buf_get_byte (rx_app (rx conn)) 0 in
  if negb (rc =? 0) then Fault Undefined
  else
    let conn := upd_rx (set_rx_app app) conn in
    match find_addr conn dst with
    | None => Ok (rx_ack (incr_unknown_dst conn))
    | Some c =>
        match clients conn !! c with
        | None => Fault Undefined
        | Some client =>
            let new_len :=
              (buf_len (sock_out client) + buf_len (rx_app (rx conn)) + 2)%nat in
            let conn :=
              if (buf_max (sock_out client) <? new_len)%nat
              then upd_client c incr_sink_full (rx_nak conn)
              else conn in
            let out := sock_out client in
            let out := fst (buf_append_byte out MSG_SOH) in
            let out := fst (buf_append_byte out (Z.of_nat (buf_len (rx_app (rx conn))))) in
            let out := fst (buf_append_buf out (rx_app (rx conn))) in
            let conn := upd_client c (set_sock_out out) conn in
            let conn := upd_rx (set_rx_client (Some c)) conn in
            Ok (upd_client c incr_cl_msg_rx conn)
        end
    end.

Definition rcv_ack (conn : CONN) (client : nat) : CONN :=
  match rx_client (rx conn) with
  | Some c => if (c =? client)%nat
              then upd_client client incr_msg_accept (rx_ack conn) else conn
  | None => conn
  end.

Definition rcv_nak (conn : CONN) (client : nat) : CONN :=
  match rx_client (rx conn) with
  | Some c => if (c =? client)%nat
              then upd_client client incr_msg_reject (rx_nak conn) else conn
  | None => conn
  end.

(** ** The transmitter (tx.c) and the arbitrator (client.c)

    [tx_msg], [send_msg], [client_msg_tx_fail] and [find_next_tx] call one
    another.  Each is first written over the function [next] that stands
    for [find_next_tx]; [find_next_tx_fuel] then closes the recursion. *)

Definition tx_busy (t : TX) : bool :=
  match tx_state t with TX_IDLE => false | _ => true end.

Definition flush_msg (t : TX) : TX :=
  let t := set_nak_cnt 0 t in
  let t := set_enq_cnt 0 t in
  let t := set_tx_buf (buf_empty (tx_buf t)) t in
  set_tx_state TX_IDLE t.

Section Arbitrated.

Variable next : CONN -> option nat -> result CONN.

Definition client_msg_tx_ok_with (conn : CONN) : result CONN :=
  match tx_client (tx conn) with
  | Some c =>
      match clients conn !! c with
      | None => Fault Undefined
      | Some client =>
          let out := fst (buf_append_byte (sock_out client) MSG_ACK) in
          let conn := upd_client c (set_sock_out out) conn in
          let conn := upd_client c (set_client_state CLIENT_IDLE) conn in
          let conn := upd_client c incr_cl_tx_success conn in
          next conn None
      end
  | None => next conn None
  end.

Definition client_msg_tx_fail_with (conn : CONN) : result CONN :=
  match tx_client (tx conn) with
  | Some c =>
      match clients conn !! c with
      | None => Fault Undefined
      | Some client =>
          let out := fst (buf_append_byte (sock_out client) MSG_NAK) in
          let conn := upd_client c (set_sock_out out) conn in
          let conn := upd_client c (set_client_state CLIENT_IDLE) conn in
          let conn := upd_client c incr_cl_tx_fail conn in
          next conn None
      end
  | None => next conn None
  end.

Definition send_msg_with (conn : CONN) : result CONN :=
  let conn := upd_tx (set_tx_state TX_PEND_MSG_TX) conn in
  let '(out, rc) := buf_append_buf (tty_out conn) (tx_buf (tx conn)) in
  if negb (rc =? 0)
  then client_msg_tx_fail_with (upd_tx flush_msg conn)
  else Ok (set_tty_out out conn).

Definition send_enq_with (conn : CONN) : result CONN :=
  let conn := upd_tx (set_tx_state TX_PEND_MSG_TX) conn in
  let '(out, failed) := append_dle_sym (tty_out conn) SYM_ENQ in
  let conn := set_tty_out out conn in
  if failed then client_msg_tx_fail_with (upd_tx flush_msg conn) else Ok conn.

(** The [while] loop of [tx_msg]: [n] bounds the bytes left in [df1]. *)
Fixpoint tx_msg_loop (use_crc : bool) (n : nat) (df1 msg : BUF)
    (overflow crc bcc : Z) : result (BUF * BUF * Z * Z * Z) :=
  let '(df1', rc, byte) := buf_get_byte df1 0 in
  if negb (rc =? 0) then Ok (df1', msg, overflow, crc, bcc)
  else
    match n with
    | O => Fault OutOfFuel
    | S n' =>
        let '(msg, r) := buf_append_byte msg byte in
        let overflow := Z.lor overflow r in
        let crc := if use_crc then CRC_ADD crc byte else crc in
        let bcc := if use_crc then bcc else u8 (bcc + byte) in
        let '(msg, overflow) :=
          if byte =? SYM_DLE
          then let '(m, r) := buf_append_byte msg SYM_DLE in (m, Z.lor overflow r)
          else (msg, overflow) in
        tx_msg_loop use_crc n' df1' msg overflow crc bcc
    end.

(** The frame that [tx_msg] assembles in [msg] from the bytes of [df1]. *)
Definition tx_msg_frame (use_crc : bool) (df1 msg : BUF)
  : result (BUF * BUF * Z) :=
  let '(msg, r) := buf_append_byte msg SYM_DLE in
  let overflow := r in
  let '(msg, r) := buf_append_byte msg SYM_STX in
  let overflow := Z.lor overflow r in
  let* st := tx_msg_loop use_crc (buf_len df1 - buf_index df1) df1 msg overflow 0 0 in
  let '(df1, msg, overflow, crc, bcc) := st in
  let '(msg, r) := buf_append_byte msg SYM_DLE in
  let overflow := Z.lor overflow r in
  let '(msg, r) := buf_append_byte msg SYM_ETX in
  let overflow := Z.lor overflow r in
  let '(msg, r) :=
    if use_crc
    then buf_append_word msg (htols (CRC_ADD crc SYM_ETX))
    else buf_append_byte msg (Z.lnot bcc + 1) in
  let overflow := Z.lor overflow r in
  Ok (df1, msg, overflow).

Definition tx_msg_with (conn : CONN) (client : nat) : result CONN :=
  match clients conn !! client with
  | None => Fault Undefined
  | Some cl =>
      let* fr := tx_msg_frame (use_crc conn) (df1_tx cl) (tx_buf (tx conn)) in
      let '(df1, msg, overflow) := fr in
      let conn := upd_client client (set_df1_tx df1) conn in
      let conn := upd_tx (set_tx_buf msg) conn in
      let conn := upd_tx (set_tx_client (Some client)) conn in
      (* if (overflow) only a log entry is written *)
      let* conn := send_msg_with conn in
      Ok (incr_tx_attempts conn)
  end.

(** The [do ... while] of [find_next_tx]: the first client in state
    [CLIENT_MSG_READY], going round from [client] until [start] comes up
    again; [n] bounds the number of clients looked at. *)
Fixpoint find_ready (n : nat) (cls : list CLIENT) (client start : nat)
  : result (option nat) :=
  match n with
  | O => Fault OutOfFuel
  | S n' =>
      match cls !! client with
      | None => Fault Undefined
      | Some cl =>
          match client_state cl with
          | CLIENT_MSG_READY => Ok (Some client)
          | _ =>
              let client' := if (S client <? length cls)%nat then S client else O in
              if (client' =? start)%nat then Ok None
              else find_ready n' cls client' start
          end
      end
  end.

End Arbitrated.

Fixpoint find_next_tx_fuel (fuel : nat) (conn : CONN) (start_client : option nat)
  : result CONN :=
  match fuel with
  | O => Fault OutOfFuel
  | S fuel' =>
      if tx_busy (tx conn) then Ok conn
      else
        match clients conn with
        | [] => Ok conn
        | _ :: _ =>
            let start :=
              match start_client with
              | Some s => s
              | None =>
                  match tx_client (tx conn) with
                  | None => O
                  | Some c =>
                      if (S c <? length (clients conn))%nat then S c else O
                  end
              end in
            let* found := find_ready (length (clients conn)) (clients conn) start start in
            match found with
            | None => Ok conn
            | Some client =>
                let* conn := tx_msg_with (find_next_tx_fuel fuel') conn client in
                let conn := upd_client client (fun c => set_df1_tx (buf_empty (df1_tx c)) c) conn in
                let conn := upd_client client (set_client_state CLIENT_MSG_PEND) conn in
                Ok (upd_client client incr_cl_tx_attempts conn)
            end
        end
  end.

(** Every nested call of [find_next_tx] follows a failed submission, which
    leaves one client fewer in [CLIENT_MSG_READY]. *)
Definition find_next_tx (conn : CONN) (start_client : option nat) : result CONN :=
  find_next_tx_fuel (S (length (clients conn))) conn start_client.

Definition client_msg_tx_ok : CONN -> result CONN := client_msg_tx_ok_with find_next_tx.
Definition client_msg_tx_fail : CONN -> result CONN := client_msg_tx_fail_with find_next_tx.
Definition send_msg : CONN -> result CONN := send_msg_with find_next_tx.
Definition send_enq : CONN -> result CONN := send_enq_with find_next_tx.
Definition tx_msg : CONN -> nat -> result CONN := tx_msg_with find_next_tx.

(** [tx_init]; a failing allocation is not modelled. *)
Definition tx_init (conn : CONN) (max_nak max_enq ack_timeout : Z) : CONN :=
  let conn := upd_tx (set_tx_buf (buf_new TX_BUF_SIZE)) conn in
  let conn := upd_tx (set_max_nak (u32 max_nak)) conn in
  let conn := upd_tx (set_max_enq (u32 max_enq)) conn in
  let conn := upd_tx (set_tx_state TX_IDLE) conn in
  upd_tx (set_tx_tticks (u32 ack_timeout / (TICK_USEC / 1000))) conn.

Definition tx_data_sent (conn : CONN) : CONN :=
  match tx_state (tx conn) with
  | TX_PEND_MSG_TX =>
      upd_tx (set_tx_eticks 0) (upd_tx (set_tx_state TX_PEND_RESP) conn)
  | _ => conn
  end.

Definition tx_tick (conn : CONN) : result CONN :=
  if negb (embed_rsp conn) && rx_active (rx conn) then Ok conn
  else
    match tx_state (tx conn) with
    | TX_PEND_RESP =>
        let conn := upd_tx (fun t => set_tx_eticks (uint_incr (tx_eticks t)) t) conn in
        if tx_tticks (tx conn) <? tx_eticks (tx conn)
        then
          let conn := incr_resp_timeouts conn in
          let conn := upd_tx (fun t => set_enq_cnt (uint_incr (enq_cnt t)) t) conn in
          if max_enq (tx conn) <? enq_cnt (tx conn)
          then client_msg_tx_fail (incr_tx_fail (upd_tx flush_msg conn))
          else send_enq conn
        else Ok conn
    | _ => Ok conn
    end.

Definition tx_ack (conn : CONN) : result CONN :=
  match tx_state (tx conn) with
  | TX_PEND_RESP =>
      client_msg_tx_ok (incr_tx_success (upd_tx flush_msg conn))
  | _ =>
      let conn := upd_rx rx_set_nak conn in
      Ok (set_dcnts (set_bytes_ignored (u32 (bytes_ignored (dcnts conn) + 2))
                                       (dcnts conn)) conn)
  end.

Definition tx_nak (conn : CONN) : result CONN :=
  match tx_state (tx conn) with
  | TX_PEND_RESP =>
      let conn := upd_tx (fun t => set_nak_cnt (uint_incr (nak_cnt t)) t) conn in
      if max_nak (tx conn) <=? nak_cnt (tx conn)
      then client_msg_tx_fail (incr_tx_fail (upd_tx flush_msg conn))
      else send_msg conn
  | _ =>
      let conn := upd_rx rx_set_nak conn in
      Ok (set_dcnts (set_bytes_ignored (u32 (bytes_ignored (dcnts conn) + 2))
                                       (dcnts conn)) conn)
  end.

(** ** The receiver, second part (rx.c) *)

(** The function [embed_rsp] of rx.c; the flag of [CONN] has that name. *)
Definition embed_rsp_rx (conn : CONN) (rsp : Z) : result CONN :=
  let conn := if negb (embed_rsp conn) then set_embed_rsp true conn else conn in
  if rsp =? SYM_ACK then tx_ack conn else tx_nak conn.

(** The tail of [add_to_app]: the byte is stored and summed. *)
Definition app_store (conn : CONN) (byte : Z) : CONN :=
  let conn := upd_rx (set_prev_dle false) conn in
  let conn :=
    if overflow (rx conn) then conn
    else
      let '(app, rc) := buf_append_byte (rx_app (rx conn)) byte in
      let conn := upd_rx (set_rx_app app) conn in
      if negb (rc =? 0)
      then incr_rx_overflow (upd_rx (set_overflow true) conn)
      else conn in
  cs_add conn byte.

Definition add_to_app (conn : CONN) (byte : Z) : result CONN :=
  if byte =? SYM_ETX then
    if prev_dle (rx conn)
    then
      let conn := if use_crc conn then cs_add conn SYM_ETX else conn in
      Ok (upd_rx (set_rx_state RX_CS1) conn)
    else Ok (app_store conn byte)
  else if byte =? SYM_DLE then
    if negb (prev_dle (rx conn))
    then Ok (upd_rx (set_prev_dle true) conn)
    else Ok (app_store conn byte)
  else if (byte =? SYM_ACK) || (byte =? SYM_NAK) then
    if prev_dle (rx conn)
    then embed_rsp_rx (upd_rx (set_prev_dle false) conn) byte
    else Ok (app_store conn byte)
  else
    if prev_dle (rx conn)
    then Ok (upd_rx rx_set_nak conn)
    else Ok (app_store conn byte).

Definition accept_msg (conn : CONN) : result CONN :=
  if (buf_len (rx_app (rx conn)) <? 6)%nat
  then Ok (rx_nak (incr_runts conn))
  else if cs_ok conn
  then
    let '(conn, dup) := msg_dup conn in
    if dup then Ok (rx_ack conn)
    else
      let conn := incr_msg_rx conn in
      let conn := upd_rx (set_rx_state RX_PEND) conn in
      client_msg_rx conn
  else Ok (rx_nak (incr_bad_cs conn)).

(** The [while] loop of [rx_msg]: [n] bounds the bytes left in [tty_in]. *)
Fixpoint rx_msg_loop (n : nat) (conn : CONN) : result CONN :=
  let '(tin, rc, byte) := buf_get_byte (tty_in conn) 0 in
  if negb (rc =? 0) then Ok conn
  else
    match n with
    | O => Fault OutOfFuel
    | S n' =>
        let conn := set_tty_in tin conn in
        match rx_state (rx conn) with
        | RX_APP =>
            let* conn := add_to_app conn byte in
            rx_msg_loop n' conn
        | RX_CS1 =>
            if use_crc conn
            then
              let conn := upd_rx (fun r => set_msg_cs (set_crc byte (msg_cs r)) r) conn in
              rx_msg_loop n' (upd_rx (set_rx_state RX_CS2) conn)
            else
              accept_msg (upd_rx (fun r => set_msg_cs (set_bcc byte (msg_cs r)) r) conn)
        | RX_CS2 =>
            accept_msg
              (upd_rx (fun r => set_msg_cs
                         (set_crc (u16 (crc (msg_cs r) + Z.shiftl byte 8)) (msg_cs r)) r)
                      conn)
        | RX_IDLE | RX_PEND => rx_msg_loop n' conn
        end
    end.

Definition rx_msg (conn : CONN) : result CONN :=
  let conn :=
    match rx_state (rx conn) with
    | RX_IDLE =>
        let conn := upd_rx (fun r => set_rx_app (buf_empty (rx_app r)) r) conn in
        let conn := upd_rx (set_rx_eticks 0) conn in
        let conn := upd_rx (set_prev_dle false) conn in
        let conn := upd_rx (set_overflow false) conn in
        let conn := cs_clear conn in
        upd_rx (set_rx_state RX_APP) conn
    | _ => conn
    end in
  rx_msg_loop (buf_len (tty_in conn) - buf_index (tty_in conn)) conn.

(** ** The connection (conn.c, tty.c); one connection is modelled. *)

Definition link_ignore (conn : CONN) : CONN :=
  upd_rx rx_set_nak (incr_bytes_ignored conn).

(** The [while (more)] loop of [parse_tty_data]: [n] bounds the bytes left
    in [tty_in]. *)
Fixpoint parse_tty_loop (n : nat) (conn : CONN) : result CONN :=
  let* conn := if rx_active (rx conn) then rx_msg conn else Ok conn in
  let '(tin, rc, byte) := buf_get_byte (tty_in conn) 0 in
  if negb (rc =? 0) then Ok conn
  else
    match n with
    | O => Fault OutOfFuel
    | S n' =>
        let conn := set_tty_in tin conn in
        let plain (conn : CONN) : result CONN :=
          if byte =? SYM_DLE
          then parse_tty_loop n' (set_read_sym true conn)
          else parse_tty_loop n' (set_read_sym false (link_ignore conn)) in
        if read_sym conn then
          let conn := set_read_sym false conn in
          if byte =? SYM_STX then
            let* conn := rx_msg conn in parse_tty_loop n' conn
          else if byte =? SYM_ENQ then
            let* conn := rx_enq (incr_enqs_in conn) in parse_tty_loop n' conn
          else if byte =? SYM_ACK then
            let* conn := tx_ack (incr_acks_in conn) in parse_tty_loop n' conn
          else if byte =? SYM_NAK then
            let* conn := tx_nak (incr_naks_in conn) in parse_tty_loop n' conn
          else plain (link_ignore conn)
        else plain conn
    end.

Definition parse_tty_data (conn : CONN) : result CONN :=
  parse_tty_loop (buf_len (tty_in conn) - buf_index (tty_in conn)) conn.

(** [tty_read] followed by [parse_tty_data], as [conn_service_fds] runs
    them when the TTY is readable; [incoming] is what [read()] delivers. *)
Definition tty_read (conn : CONN) (incoming : list Z) : CONN :=
  set_tty_in (buf_read (tty_in conn) incoming) conn.

Definition tty_input (conn : CONN) (incoming : list Z) : result CONN :=
  parse_tty_data (tty_read conn incoming).

(** [tty_write]; [bytes] is the count that [write()] accepted. *)
Definition tty_write (conn : CONN) (bytes : nat) : CONN :=
  let conn := set_tty_out (buf_write (tty_out conn) bytes) conn in
  if (buf_len (tty_out conn) =? 0)%nat then tx_data_sent conn else conn.

(** The body of the loop of [conn_tick]. *)
Definition conn_tick (conn : CONN) : result CONN := tx_tick (rx_tick conn).

Fixpoint conn_ticks (n : nat) (conn : CONN) : result CONN :=
  match n with
  | O => Ok conn
  | S n' => let* conn := conn_tick conn in conn_ticks n' conn
  end.

(** [conn_init]: the structure comes zeroed from [calloc]; then [tty_open],
    [tx_init] and [rx_init] run.  Failing system calls are not modelled.
    [use_crc] is a one-bit field: the [int] argument is stored modulo 2. *)
Definition conn_zero : CONN :=
  mkCONN false false false (mkBUF [] 0 0 0) (mkBUF [] 0 0 0)
    (mkTX TX_IDLE 0 0 0 0 0 0 (mkBUF [] 0 0 0) None)
    (mkRX RX_IDLE (mkBUF [] 0 0 0) (0, 0, 0, 0) 0 0 false false false false None
          (mkCS 0 0) (mkCS 0 0))
    []
    (mk_link_diag_cnt 0 0 0 0 0 0 0 0 0 0 0 0 0 0 0 0 0).

Definition conn_init (use_crc : Z) (tx_max_nak tx_max_enq : Z) (rx_dup_detect : Z)
    (ack_timeout : Z) : CONN :=
  let new := set_use_crc (negb (use_crc mod 2 =? 0)) conn_zero in
  let new := set_tty_in (buf_new TTY_BUF_SIZE) new in
  let new := set_tty_out (buf_new TTY_BUF_SIZE) new in
  let new := tx_init new tx_max_nak tx_max_enq ack_timeout in
  rx_init new rx_dup_detect.

(** A client as [client_accept] allocates it and as it stands once its
    registration ([reg_client]) at address [a] went through. *)
Definition client_zero : CLIENT :=
  mkCLIENT CLIENT_CONNECTED 0 (buf_new CLIENT_BUF_SIZE) (buf_new CLIENT_BUF_SIZE)
    (buf_new CLIENT_BUF_SIZE) (mk_client_diag_cnt 0 0 0 0 0 0 0 0).

Definition client_registered (a : Z) : CLIENT :=
  set_client_state CLIENT_IDLE (set_addr (u8 a) client_zero).

(** ** The client library (lib/): addresses (addr.c) *)

(** [a || b] over two [int] results. *)
Definition addr_encode (dest : BUF) (a : Z) : BUF * Z :=
  if 254 <? a then
    let '(d1, r1) := buf_append_byte dest 0xff in
    if negb (r1 =? 0) then (d1, 1)
    else let '(d2, r2) := buf_append_word d1 (htols a) in
         (d2, if negb (r2 =? 0) then 1 else 0)
  else buf_append_byte dest a.

Definition addr_decode (src : BUF) (a : Z) : BUF * Z * Z :=
  let '(src, rc, first_byte) := buf_get_byte src 0 in
  if negb (rc =? 0) then (src, -1, a)
  else if first_byte =? 0xff then
    let '(src, rc, word) := buf_get_word src 0 in
    if negb (rc =? 0) then (src, -1, a)
    else (src, 0, ltohs word)
  else (src, 0, first_byte).

(** ** The client library: messages (private.h, msg.c, pccc.c) *)

Definition MSG_UNUSED : Z := 0.
Definition MSG_PEND : Z := 1.
Definition MSG_TX : Z := 2.
Definition MSG_ACK_RCVD : Z := 4.
Definition MSG_REPLY_RCVD : Z := 8.
Definition MSG_CMD_DONE : Z := Z.lor (Z.lor MSG_TX MSG_ACK_RCVD) MSG_REPLY_RCVD.

Inductive PCCC_RET_T : Type :=
| PCCC_SUCCESS | PCCC_WREADY | PCCC_ENOCON | PCCC_ELINK | PCCC_EPARAM
| PCCC_EFATAL | PCCC_EOVERFLOW | PCCC_ECMD_NOBUF | PCCC_ECMD_NODELIVER
| PCCC_ECMD_TIMEOUT | PCCC_ECMD_REPLY.

(** Function pointers ([UFUNC], [RFUNC]) and the user data pointer are
    kept as the addresses they hold. *)
Record DF1MSG : Type := mkDF1MSG {
  msg_state : Z;
  msg_buf : BUF;
  is_cmd : bool;
  tns : Z;
  file_type : Z;
  bytes : Z;
  elements : Z;
  usize : Z;
  expires : Z;
  udata : Z;
  notify : option Z;
  reply : option Z;
  msg_result : PCCC_RET_T;
  msg_errstr : string
}.

Definition set_msg_state (v : Z) (m : DF1MSG) : DF1MSG :=
  mkDF1MSG v (msg_buf m) (is_cmd m) (tns m) (file_type m) (bytes m) (elements m)
    (usize m) (expires m) (udata m) (notify m) (reply m) (msg_result m) (msg_errstr m).
Definition set_msg_buf (v : BUF) (m : DF1MSG) : DF1MSG :=
  mkDF1MSG (msg_state m) v (is_cmd m) (tns m) (file_type m) (bytes m) (elements m)
    (usize m) (expires m) (udata m) (notify m) (reply m) (msg_result m) (msg_errstr m).
Definition set_expires (v : Z) (m : DF1MSG) : DF1MSG :=
  mkDF1MSG (msg_state m) (msg_buf m) (is_cmd m) (tns m) (file_type m) (bytes m)
    (elements m) (usize m) v (udata m) (notify m) (reply m) (msg_result m) (msg_errstr m).
Definition set_msg_result (v : PCCC_RET_T) (m : DF1MSG) : DF1MSG :=
  mkDF1MSG (msg_state m) (msg_buf m) (is_cmd m) (tns m) (file_type m) (bytes m)
    (elements m) (usize m) (expires m) (udata m) (notify m) (reply m) v (msg_errstr m).
Definition set_msg_errstr (v : string) (m : DF1MSG) : DF1MSG :=
  mkDF1MSG (msg_state m) (msg_buf m) (is_cmd m) (tns m) (file_type m) (bytes m)
    (elements m) (usize m) (expires m) (udata m) (notify m) (reply m) (msg_result m) v.

Inductive READ_MODE_T : Type := READ_MODE_IDLE | READ_MODE_MSG_LEN | READ_MODE_MSG.

Record PCCC_PRIV : Type := mkPCCC_PRIV {
  p_tns : Z;
  p_sock_in : BUF;
  p_sock_out : BUF;
  msg_in : BUF;
  read_mode : READ_MODE_T;
  msg_in_len : Z;
  num_msgs : nat;
  cur_msg : nat;
  msgs : list DF1MSG;
  connected : bool;
  p_errstr : string
}.

Definition set_p_sock_out (v : BUF) (p : PCCC_PRIV) : PCCC_PRIV :=
  mkPCCC_PRIV (p_tns p) (p_sock_in p) v (msg_in p) (read_mode p) (msg_in_len p)
    (num_msgs p) (cur_msg p) (msgs p) (connected p) (p_errstr p).
Definition set_msg_in (v : BUF) (p : PCCC_PRIV) : PCCC_PRIV :=
  mkPCCC_PRIV (p_tns p) (p_sock_in p) (p_sock_out p) v (read_mode p) (msg_in_len p)
    (num_msgs p) (cur_msg p) (msgs p) (connected p) (p_errstr p).
Definition set_msgs (v : list DF1MSG) (p : PCCC_PRIV) : PCCC_PRIV :=
  mkPCCC_PRIV (p_tns p) (p_sock_in p) (p_sock_out p) (msg_in p) (read_mode p)
    (msg_in_len p) (num_msgs p) (cur_msg p) v (connected p) (p_errstr p).
Definition set_p_errstr (v : string) (p : PCCC_PRIV) : PCCC_PRIV :=
  mkPCCC_PRIV (p_tns p) (p_sock_in p) (p_sock_out p) (msg_in p) (read_mode p)
    (msg_in_len p) (num_msgs p) (cur_msg p) (msgs p) (connected p) v.

Definition msg_flush (m : DF1MSG) : DF1MSG :=
  let m := set_msg_state MSG_UNUSED m in
  let m := set_expires 0 m in
  set_msg_buf (buf_empty (msg_buf m)) m.

Definition msg_is_reply (p : PCCC_PRIV) : bool :=
  negb (Z.land (buf_data (msg_in p) !!! 2%nat) 0x40 =? 0).

Definition msg_get_sts (msg : BUF) : Z := buf_data msg !!! 3%nat.

Definition msg_get_tns (msg : BUF) : Z :=
  ltohs (val16 BYTE_ORDER (buf_data msg !!! 4%nat) (buf_data msg !!! 5%nat)).

(** The [for] loop of [msg_find_cmd] over the slots from [i] on. *)
Fixpoint find_cmd_from (l : list DF1MSG) (i : nat) (t : Z) : option nat :=
  match l with
  | [] => None
  | test :: l' =>
      if negb (msg_state test =? MSG_UNUSED) && is_cmd test && (tns test =? t)
      then Some i
      else find_cmd_from l' (S i) t
  end.

Definition msg_find_cmd (p : PCCC_PRIV) : option nat :=
  find_cmd_from (take (num_msgs p) (msgs p)) 0 (msg_get_tns (msg_in p)).

(** A call of a notification function: the function, the result and the
    user data that it is given. *)
Definition notification : Type := (Z * PCCC_RET_T * Z)%type.

Section Handlers.

(** The text that [sts_check] (sts.c) composes for a non-zero STS byte, and
    the reply handlers (reply.c) behind the [reply] pointers, which get the
    reply, the command and the error string. *)
Variable sts_text : BUF -> string.
Variable reply_handler : Z -> BUF -> DF1MSG -> string -> Z * BUF * DF1MSG * string.

Definition sts_check (p : PCCC_PRIV) (msg : BUF) : PCCC_PRIV * Z :=
  if msg_get_sts msg =? 0 then (p, 0)
  else (set_p_errstr (sts_text msg) p, 1).

(** [parse_msg]; the second component lists the notification functions
    that were called. *)
Definition parse_msg (p : PCCC_PRIV) : result (PCCC_PRIV * list notification) :=
  if msg_is_reply p then
    let found := msg_find_cmd p in
    let p := set_p_sock_out (fst (buf_append_byte (p_sock_out p) MSG_ACK)) p in
    match found with
    | None => Ok (p, [])
    | Some i =>
        match msgs p !! i with
        | None => Fault Undefined
        | Some m =>
            let m := set_msg_state (Z.lor (msg_state m) MSG_REPLY_RCVD) m in
            match notify m with
            | None => Ok (set_msgs (<[i := m]> (msgs p)) p, [])
            | Some f =>
                let mi := msg_in p in
                let p := set_msg_in (mkBUF (buf_data mi) (buf_len mi) 6 (buf_max mi)) p in
                let '(p, bad) := sts_check p (msg_in p) in
                let '(p, m, bad) :=
                  if negb (bad =? 0) then (p, m, true)
                  else
                    match reply m with
                    | None => (p, m, false)
                    | Some h =>
                        let '(rc, mi, m, err) := reply_handler h (msg_in p) m (p_errstr p) in
                        (set_p_errstr err (set_msg_in mi p), m, negb (rc =? 0))
                    end in
                let m := set_msg_result (if bad then PCCC_ECMD_REPLY else PCCC_SUCCESS) m in
                if msg_state m =? MSG_CMD_DONE then
                  let m := msg_flush m in
                  Ok (set_msgs (<[i := m]> (msgs p)) p, [(f, msg_result m, udata m)])
                else
                  let m :=
                    match msg_result m with
                    | PCCC_SUCCESS => m
                    | _ => set_msg_errstr (p_errstr p) m
                    end in
                  Ok (set_msgs (<[i := m]> (msgs p)) p, [])
            end
        end
    end
  else Ok (p, []).

End Handlers.

(** ** Wire format, as lists of bytes

    What the properties below are stated with: the stuffed payload, the
    checksum bytes and the whole frame. *)

Definition dle_stuff (B : list Z) : list Z :=
  flat_map (fun b => if b =? SYM_DLE then [SYM_DLE; SYM_DLE] else [b]) B.

Definition tx_crc (B : list Z) : Z := CRC_ADD (fold_left CRC_ADD B 0) SYM_ETX.

Definition tx_bcc (B : list Z) : Z :=
  u8 (Z.lnot (fold_left (fun bcc b => u8 (bcc + b)) B 0) + 1).

Definition frame_checksum (use_crc : bool) (B : list Z) : list Z :=
  if use_crc
  then let '(b0, b1) := mem16 BYTE_ORDER (u16 (htols (tx_crc B))) in [b0; b1]
  else [tx_bcc B].

Definition df1_frame (use_crc : bool) (B : list Z) : list Z :=
  [SYM_DLE; SYM_STX] ++ dle_stuff B ++ [SYM_DLE; SYM_ETX] ++ frame_checksum use_crc B.

(** [buf_append_byte] over a list of bytes, the results or-ed into [ov]
    as [tx_msg] does with [overflow |= ...]. *)
Fixpoint buf_append_bytes (b : BUF) (ov : Z) (l : list Z) : BUF * Z :=
  match l with
  | [] => (b, ov)
  | x :: l' =>
      let '(b', r) := buf_append_byte b x in
      buf_append_bytes b' (Z.lor ov r) l'
  end.

(** The accumulated checksum after the bytes [B] went through [cs_add]. *)
Definition cs_fold (use_crc : bool) (B : list Z) (cs : CS) : CS :=
  if use_crc
  then set_crc (fold_left CRC_ADD B (crc cs)) cs
  else set_bcc (fold_left (fun bcc b => u8 (bcc + b)) B (bcc cs)) cs.

(** The state in which the receiver accepts a frame: [DLE ETX] and the
    checksum bytes [cs] came behind the payload. *)
Definition rx_at_accept (conn : CONN) (cs : list Z) : CONN :=
  let conn := upd_rx (set_prev_dle true) conn in
  if use_crc conn
  then
    let conn := cs_add conn SYM_ETX in
    let conn := upd_rx (fun r => set_msg_cs
                  (set_crc (u16 (nth 0 cs 0 + Z.shiftl (nth 1 cs 0) 8)) (msg_cs r)) r) conn in
    upd_rx (set_rx_state RX_CS2) conn
  else
    let conn := upd_rx (set_rx_state RX_CS1) conn in
    upd_rx (fun r => set_msg_cs (set_bcc (nth 0 cs 0) (msg_cs r)) r) conn.

(** The receiver as [rx_msg] sets it up on [DLE STX] when it was idle. *)
Definition rx_start (conn : CONN) : CONN :=
  let conn := upd_rx (fun r => set_rx_app (buf_empty (rx_app r)) r) conn in
  let conn := upd_rx (set_rx_eticks 0) conn in
  let conn := upd_rx (set_prev_dle false) conn in
  let conn := upd_rx (set_overflow false) conn in
  let conn := cs_clear conn in
  upd_rx (set_rx_state RX_APP) conn.

(** An idle transmitter: its message buffer and the TTY output buffer are
    empty and have the sizes that [tx_init] and [tty_open] give them. *)
Definition tx_idle_wf (conn : CONN) : Prop :=
  buf_wf (tx_buf (tx conn)) /\ buf_len (tx_buf (tx conn)) = 0%nat /\
  buf_max (tx_buf (tx conn)) = TX_BUF_SIZE /\
  buf_wf (tty_out conn) /\ buf_len (tty_out conn) = 0%nat /\
  buf_max (tty_out conn) = TTY_BUF_SIZE.

(** An idle receiver, between two frames. *)
Definition rx_idle_wf (conn : CONN) : Prop :=
  rx_state (rx conn) = RX_IDLE /\ read_sym conn = false /\
  length (buf_data (tty_in conn)) = buf_max (tty_in conn) /\
  buf_max (tty_in conn) = TTY_BUF_SIZE /\
  buf_wf (rx_app (rx conn)) /\ buf_max (rx_app (rx conn)) = RX_BUF_SIZE.

(** A buffer whose read cursor moved on by [k] bytes. *)
Definition buf_skip (k : nat) (b : BUF) : BUF :=
  mkBUF (buf_data b) (buf_len b) (k + buf_index b) (buf_max b).

(** ** Scenarios

    Concrete runs of the daemon, used by the closed statements at the end
    of the file. *)

(** A connection in BCC mode, fresh from [conn_init], with one client
    registered at address 5; the peer sends one valid frame that carries a
    payload of 511 bytes for that client.  The frame is longer than the TTY
    input buffer and arrives in two reads. *)
Definition sink_payload : list Z := 5 :: replicate 510 0x41.

Definition sink_conn0 : CONN :=
  set_clients [client_registered 5] (conn_init 0 3 3 1 1000).

Definition sink_run : result CONN :=
  let wire := df1_frame false sink_payload in
  let* conn := tty_input sink_conn0 (take 512 wire) in
  tty_input conn (drop 512 wire).

(** No client waits for the transmitter. *)
Definition no_ready (cls : list CLIENT) : Prop :=
  Forall (fun cl => client_state cl <> CLIENT_MSG_READY) cls.

(** The TTY takes everything that is pending: [tty_write] with a complete
    [write()]. *)
Definition tty_drain (conn : CONN) : CONN :=
  tty_write conn (buf_len (tty_out conn) - buf_index (tty_out conn)).

(** The number of ticks after which a response that started to be awaited
    at [eticks = 0] times out. *)
Definition timeout_ticks (conn : CONN) : nat := S (Z.to_nat (tx_tticks (tx conn))).

(** A connection with [tx_max_enq = 2] and an ACK timeout of 200 ms whose
    one client, registered at address 5, has the 7-byte message
    [05 00 06 00 42 42 42] ready; the message is submitted and written to
    the TTY, and the peer stays silent: the ticks go by until the response
    times out, and the TTY takes what the transmitter puts out. *)
Definition enq_conn0 : CONN :=
  let cl := client_registered 5 in
  let cl := set_df1_tx (buf_read (df1_tx cl) [5; 0; 6; 0; 0x42; 0x42; 0x42]) cl in
  let cl := set_client_state CLIENT_MSG_READY cl in
  set_clients [cl] (conn_init 1 3 2 1 200).

Definition enq_sent : result CONN :=
  let* conn := find_next_tx enq_conn0 (Some 0%nat) in
  Ok (tty_drain conn).

Definition enq_timeout (r : result CONN) : result CONN :=
  let* conn := r in conn_ticks (timeout_ticks conn) (tty_drain conn).

(** The connection of [enq_sent]: the frame is out, the response awaited. *)
Definition enq_waiting : CONN :=
  match enq_sent with Ok conn => conn | Fault _ => enq_conn0 end.

(** A freshly initialised connection whose receiver has just seen DLE STX:
    state [RX_APP], no tick counted yet. *)
Definition rx_receiving : CONN := upd_rx (set_rx_state RX_APP) (conn_init 0 3 3 1 1000).

(** A fresh BCC connection whose one client has handed over a message of
    300 bytes, all of them DLE: stuffed, the frame has 605 bytes. *)
Definition overflow_conn0 : CONN :=
  let cl := client_registered 5 in
  let cl := set_df1_tx (buf_read (df1_tx cl) (replicate 300 SYM_DLE)) cl in
  set_clients [set_client_state CLIENT_MSG_READY cl] (conn_init 0 3 3 1 1000).

(** A library connection with one command outstanding (transaction number
    0x9999, sent and acknowledged) that has received the six bytes of a
    reply with transaction number 0x1234. *)
Definition reply_priv0 : PCCC_PRIV :=
  let cmd := mkDF1MSG (Z.lor MSG_TX MSG_ACK_RCVD) (buf_new 300) true 0x9999 0 0 0 0 0 0
                      (Some 1) None PCCC_SUCCESS EmptyString in
  mkPCCC_PRIV 0 (buf_new 300) (buf_new 300)
    (buf_read (buf_new 300) [0; 5; 0x46; 0; 0x34; 0x12])
    READ_MODE_IDLE 6 1 0 [cmd] true EmptyString.

(** A fresh connection whose receiver has assembled a frame of three
    payload bytes. *)
Definition runt_conn : CONN :=
  upd_rx (set_rx_state RX_CS1)
    (upd_rx (set_rx_app (buf_read (buf_new RX_BUF_SIZE) [5; 0; 6])) (conn_init 0 3 3 1 1000)).

(** ** The client library: the message pool and the link (msg.c, pccc.c)

    [cur_msg] is the position in [msgs] that the C pointer stands at; a
    position outside the array is an invalid pointer. *)

Definition set_cur_msg (v : nat) (p : PCCC_PRIV) : PCCC_PRIV :=
  mkPCCC_PRIV (p_tns p) (p_sock_in p) (p_sock_out p) (msg_in p) (read_mode p)
    (msg_in_len p) (num_msgs p) v (msgs p) (connected p) (p_errstr p).
Definition set_read_mode (v : READ_MODE_T) (p : PCCC_PRIV) : PCCC_PRIV :=
  mkPCCC_PRIV (p_tns p) (p_sock_in p) (p_sock_out p) (msg_in p) v (msg_in_len p)
    (num_msgs p) (cur_msg p) (msgs p) (connected p) (p_errstr p).
Definition set_msg_in_len (v : Z) (p : PCCC_PRIV) : PCCC_PRIV :=
  mkPCCC_PRIV (p_tns p) (p_sock_in p) (p_sock_out p) (msg_in p) (read_mode p) v
    (num_msgs p) (cur_msg p) (msgs p) (connected p) (p_errstr p).
Definition set_p_sock_in (v : BUF) (p : PCCC_PRIV) : PCCC_PRIV :=
  mkPCCC_PRIV (p_tns p) v (p_sock_out p) (msg_in p) (read_mode p) (msg_in_len p)
    (num_msgs p) (cur_msg p) (msgs p) (connected p) (p_errstr p).

(** The [for] loop of [msg_get_free] over the slots from [i] on. *)
Fixpoint get_free_from (l : list DF1MSG) (i : nat) : option nat :=
  match l with
  | [] => None
  | m :: l' => if msg_state m =? MSG_UNUSED then Some i else get_free_from l' (S i)
  end.

Definition msg_get_free (p : PCCC_PRIV) : PCCC_PRIV * option nat :=
  match get_free_from (take (num_msgs p) (msgs p)) 0 with
  | Some i => (set_msgs (alter (set_msg_state MSG_PEND) i (msgs p)) p, Some i)
  | None => (p, None)
  end.

(** [msg_send]: the three appends are chained with [||]; what went in before
    the failing one stays in [sock_out]. *)
Definition msg_send (p : PCCC_PRIV) : result (PCCC_PRIV * PCCC_RET_T) :=
  match msgs p !! cur_msg p with
  | None => Fault Undefined
  | Some cur =>
      let '(o1, r1) := buf_append_byte (p_sock_out p) MSG_SOH in
      let '(o, failed) :=
        if negb (r1 =? 0) then (o1, true)
        else
          let '(o2, r2) := buf_append_byte o1 (Z.of_nat (buf_len (msg_buf cur))) in
          if negb (r2 =? 0) then (o2, true)
          else let '(o3, r3) := buf_append_buf o2 (msg_buf cur) in (o3, negb (r3 =? 0)) in
      let p := set_p_sock_out o p in
      if failed then Ok (set_p_errstr "msg_send()" p, PCCC_EOVERFLOW)
      else Ok (set_msgs (alter (set_msg_state MSG_TX) (cur_msg p) (msgs p)) p, PCCC_SUCCESS)
  end.

(** [if (p->cur_msg == last) p->cur_msg = p->msgs; else p->cur_msg++]. *)
Definition msg_step (p : PCCC_PRIV) : PCCC_PRIV :=
  set_cur_msg (if (cur_msg p =? num_msgs p - 1)%nat then O else S (cur_msg p)) p.

(** The [for (i = p->num_msgs; i; i--)] loop of [msg_send_next]. *)
Fixpoint send_next_loop (i : nat) (p : PCCC_PRIV) : result (PCCC_PRIV * PCCC_RET_T) :=
  match i with
  | O => Ok (p, PCCC_SUCCESS)
  | S i' =>
      match msgs p !! cur_msg p with
      | None => Fault Undefined
      | Some cur =>
          if msg_state cur =? MSG_PEND then msg_send p
          else send_next_loop i' (msg_step p)
      end
  end.

Definition msg_send_next (p : PCCC_PRIV) : result (PCCC_PRIV * PCCC_RET_T) :=
  match msgs p !! cur_msg p with
  | None => Fault Undefined
  | Some cur =>
      if msg_state cur =? MSG_TX then Ok (p, PCCC_SUCCESS)
      else send_next_loop (num_msgs p) (msg_step p)
  end.

(** The [for] loop of [msg_abort_all] over the slots [i], [i+1], ... of
    [l]; the second component lists the calls of notification functions. *)
Fixpoint abort_from (l : list DF1MSG) : list DF1MSG * list notification :=
  match l with
  | [] => ([], [])
  | m :: l' =>
      let '(l'', called) := abort_from l' in
      if negb (msg_state m =? MSG_UNUSED)
      then (msg_flush m :: l'',
            match notify m with
            | Some f => (f, PCCC_ELINK, udata m) :: called
            | None => called
            end)
      else (m :: l'', called)
  end.

(** [errstr] is written before every call of a notification function. *)
Definition msg_abort_all (p : PCCC_PRIV) : PCCC_PRIV * list notification :=
  let '(l, called) := abort_from (take (num_msgs p) (msgs p)) in
  let p := match called with
           | [] => p
           | _ :: _ => set_p_errstr "Connection closed" p
           end in
  (set_msgs (l ++ drop (num_msgs p) (msgs p)) p, called).

Section Link.

Variable sts_text : BUF -> string.
Variable reply_handler : Z -> BUF -> DF1MSG -> string -> Z * BUF * DF1MSG * string.

(** The text that [snprintf] composes when [time()] fails. *)
Variable time_failed_text : string.

(** [rcv_ack] of pccc.c; [timeout] is [con->timeout] and [now] is what
    [time(NULL)] returns.  The call [cur->notify(...)] in the branch of a
    finished command is made without a test of the pointer. *)
Definition lib_rcv_ack (timeout now : Z) (p : PCCC_PRIV)
  : result (PCCC_PRIV * list notification * Z) :=
  match msgs p !! cur_msg p with
  | None => Fault Undefined
  | Some cur =>
      let c := cur_msg p in
      let cur := set_msg_state (Z.lor (msg_state cur) MSG_ACK_RCVD) cur in
      let finish (p : PCCC_PRIV) (cur : DF1MSG) (called : list notification) :=
        let p := set_msgs (<[c := cur]> (msgs p)) p in
        let* r := msg_send_next p in
        Ok (fst r, called, 0) in
      if is_cmd cur then
        let timed :=
          match notify cur with
          | Some _ => if now =? -1 then None else Some (set_expires (now + timeout + 1) cur)
          | None => Some cur
          end in
        match timed with
        | None =>
            Ok (set_p_errstr time_failed_text (set_msgs (<[c := cur]> (msgs p)) p), [], -1)
        | Some cur =>
            if msg_state cur =? MSG_CMD_DONE then
              let cur := msg_flush cur in
              let p := match msg_result cur with
                       | PCCC_SUCCESS => p
                       | _ => set_p_errstr (msg_errstr cur) p
                       end in
              match notify cur with
              | None => Fault Undefined
              | Some f => finish p cur [(f, msg_result cur, udata cur)]
              end
            else finish p cur []
        end
      else finish p (msg_flush cur) []
  end.

Definition lib_rcv_nak (p : PCCC_PRIV) : result (PCCC_PRIV * list notification) :=
  match msgs p !! cur_msg p with
  | None => Fault Undefined
  | Some cur =>
      let cur := msg_flush cur in
      let called :=
        match notify cur with
        | Some f => if is_cmd cur then [(f, PCCC_ECMD_NODELIVER, udata cur)] else []
        | None => []
        end in
      let p := set_msgs (<[cur_msg p := cur]> (msgs p)) p in
      let* r := msg_send_next p in
      Ok (fst r, called)
  end.

(** The [while] loop of [parse_link]: [n] bounds the bytes left in
    [sock_in]; [clock k] is what [time(NULL)] returns when [k] bytes are
    left. *)
Fixpoint parse_link_loop (timeout : Z) (clock : nat -> Z) (n : nat) (p : PCCC_PRIV)
    (called : list notification) : result (PCCC_PRIV * list notification * PCCC_RET_T) :=
  let '(sin, rc, byte) := buf_get_byte (p_sock_in p) 0 in
  if negb (rc =? 0) then Ok (p, called, PCCC_SUCCESS)
  else
    match n with
    | O => Fault OutOfFuel
    | S n' =>
        let p := set_p_sock_in sin p in
        match read_mode p with
        | READ_MODE_IDLE =>
            if byte =? MSG_SOH then
              parse_link_loop timeout clock n'
                (set_read_mode READ_MODE_MSG_LEN (set_msg_in (buf_empty (msg_in p)) p))
                called
            else if byte =? MSG_ACK then
              let* r := lib_rcv_ack timeout (clock n') p in
              let '(p, more, rc) := r in
              if negb (rc =? 0) then Ok (p, called ++ more, PCCC_EFATAL)
              else parse_link_loop timeout clock n' p (called ++ more)
            else if byte =? MSG_NAK then
              let* r := lib_rcv_nak p in
              parse_link_loop timeout clock n' (fst r) (called ++ snd r)
            else parse_link_loop timeout clock n' p called
        | READ_MODE_MSG_LEN =>
            parse_link_loop timeout clock n'
              (set_read_mode READ_MODE_MSG (set_msg_in_len byte p)) called
        | READ_MODE_MSG =>
            let p := set_msg_in (fst (buf_append_byte (msg_in p) byte)) p in
            if msg_in_len p =? Z.of_nat (buf_len (msg_in p)) then
              let* r := parse_msg sts_text reply_handler (set_read_mode READ_MODE_IDLE p) in
              parse_link_loop timeout clock n' (fst r) (called ++ snd r)
            else parse_link_loop timeout clock n' p called
        end
    end.

Definition parse_link (timeout : Z) (clock : nat -> Z) (p : PCCC_PRIV)
  : result (PCCC_PRIV * list notification * PCCC_RET_T) :=
  parse_link_loop timeout clock (buf_len (p_sock_in p) - buf_index (p_sock_in p)) p [].

End Link.

(** The loop of [pccc_tick] over the slots of [l]; [clock i] is what
    [time(NULL)] returns when slot [i] is looked at.  The third component is
    [false] when [time()] failed. *)
Fixpoint tick_from (clock : nat -> Z) (i : nat) (l : list DF1MSG)
  : list DF1MSG * list notification * bool :=
  match l with
  | [] => ([], [], true)
  | m :: l' =>
      if is_cmd m && negb (expires m =? 0) then
        let now := clock i in
        if now =? -1 then (m :: l', [], false)
        else if expires m <=? now then
          let '(l'', called, ok) := tick_from clock (S i) l' in
          (msg_flush m :: l'',
           match notify m with
           | Some f => (f, PCCC_ECMD_TIMEOUT, udata m) :: called
           | None => called
           end, ok)
        else
          let '(l'', called, ok) := tick_from clock (S i) l' in (m :: l'', called, ok)
      else
        let '(l'', called, ok) := tick_from clock (S i) l' in (m :: l'', called, ok)
  end.

Definition pccc_tick (time_failed_text : string) (clock : nat -> Z) (p : PCCC_PRIV)
  : PCCC_PRIV * list notification * PCCC_RET_T :=
  if negb (connected p) then (p, [], PCCC_SUCCESS)
  else
    let '(l, called, ok) := tick_from clock 0 (take (num_msgs p) (msgs p)) in
    let p := set_msgs (l ++ drop (num_msgs p) (msgs p)) p in
    if ok then (p, called, PCCC_SUCCESS)
    else (set_p_errstr time_failed_text p, called, PCCC_EFATAL).

(** ** Data from a client (client.c)

    The fields of [CLIENT] that only [parse_sock_data] and [rcv_app] use are
    kept in a record of their own, beside the client: the name array of
    [PCCC_NAME_LEN + 1] characters, [name_len], [name_len_rcvd] and
    [new_msg_len]. *)

Definition PCCC_NAME_LEN : nat := 16.

Record CLIENT_REG : Type := mkCLIENT_REG {
  cl_name : list Z;
  name_len : Z;
  name_len_rcvd : Z;
  new_msg_len : Z
}.

Definition set_cl_name (v : list Z) (r : CLIENT_REG) : CLIENT_REG :=
  mkCLIENT_REG v (name_len r) (name_len_rcvd r) (new_msg_len r).
Definition set_name_len (v : Z) (r : CLIENT_REG) : CLIENT_REG :=
  mkCLIENT_REG (cl_name r) v (name_len_rcvd r) (new_msg_len r).
Definition set_name_len_rcvd (v : Z) (r : CLIENT_REG) : CLIENT_REG :=
  mkCLIENT_REG (cl_name r) (name_len r) v (new_msg_len r).
Definition set_new_msg_len (v : Z) (r : CLIENT_REG) : CLIENT_REG :=
  mkCLIENT_REG (cl_name r) (name_len r) (name_len_rcvd r) v.


(** [reg_client]: [true] when the address is taken. *)
Definition reg_client (conn : CONN) (new_client : nat) : result (CONN * bool) :=
  match clients conn !! new_client with
  | None => Fault Undefined
  | Some cl =>
      match find_addr conn (addr cl) with
      | Some _ => Ok (conn, true)
      | None => Ok (upd_client new_client (set_client_state CLIENT_IDLE) conn, false)
      end
  end.

(** [rcv_app]: [true] when the message buffer of the client overflowed. *)
Definition rcv_app (conn : CONN) (client : nat) (reg : CLIENT_REG) (byte : Z)
  : result (CONN * bool) :=
  match clients conn !! client with
  | None => Fault Undefined
  | Some cl =>
      let '(df1, rc) := buf_append_byte (df1_tx cl) byte in
      if negb (rc =? 0) then Ok (conn, true)
      else
        let conn := upd_client client (set_df1_tx df1) conn in
        if Z.of_nat (buf_len df1) =? new_msg_len reg then
          let conn := upd_client client (set_client_state CLIENT_MSG_READY) conn in
          let* conn := find_next_tx conn (Some client) in
          Ok (conn, false)
        else Ok (conn, false)
  end.

(** The [while] loop of [parse_sock_data]: [n] bounds the bytes left in
    [sock_in].  A write outside the name array is undefined. *)
Fixpoint parse_sock_loop (n : nat) (conn : CONN) (client : nat) (reg : CLIENT_REG)
  : result (CONN * CLIENT_REG * Z) :=
  match clients conn !! client with
  | None => Fault Undefined
  | Some cl =>
      let '(sin, rc, byte) := buf_get_byte (sock_in cl) 0 in
      if negb (rc =? 0) then Ok (conn, reg, 0)
      else
        match n with
        | O => Fault OutOfFuel
        | S n' =>
            let conn := upd_client client (set_sock_in sin) conn in
            let responses (conn : CONN) : result (CONN * CLIENT_REG * Z) :=
              if byte =? MSG_SOH then Ok (conn, reg, -1)
              else if byte =? MSG_ACK then parse_sock_loop n' (rcv_ack conn client) client reg
              else if byte =? MSG_NAK then parse_sock_loop n' (rcv_nak conn client) client reg
              else Ok (conn, reg, -1) in
            match client_state cl with
            | CLIENT_CONNECTED =>
                let conn := upd_client client (set_addr byte) conn in
                parse_sock_loop n'
                  (upd_client client (set_client_state CLIENT_REG_LEN) conn) client reg
            | CLIENT_REG_LEN =>
                parse_sock_loop n'
                  (upd_client client (set_client_state CLIENT_REG_NAME) conn) client
                  (set_name_len byte reg)
            | CLIENT_REG_NAME =>
                let i := Z.to_nat (name_len_rcvd reg) in
                if (S PCCC_NAME_LEN <=? i)%nat then Fault Undefined
                else
                  let reg := set_cl_name (<[i := byte]> (cl_name reg)) reg in
                  let reg := set_name_len_rcvd (u8 (name_len_rcvd reg + 1)) reg in
                  if name_len_rcvd reg =? name_len reg then
                    if (S PCCC_NAME_LEN <=? Z.to_nat (name_len reg))%nat then Fault Undefined
                    else
                      let reg :=
                        set_cl_name (<[Z.to_nat (name_len reg) := 0]> (cl_name reg)) reg in
                      let* r := reg_client conn client in
                      if snd r then Ok (fst r, reg, -1)
                      else parse_sock_loop n' (fst r) client reg
                  else parse_sock_loop n' conn client reg
            | CLIENT_IDLE =>
                if byte =? MSG_SOH
                then parse_sock_loop n'
                       (upd_client client (set_client_state CLIENT_MSG_LEN) conn) client reg
                else responses conn
            | CLIENT_MSG_READY | CLIENT_MSG_PEND => responses conn
            | CLIENT_MSG_LEN =>
                parse_sock_loop n'
                  (upd_client client (set_client_state CLIENT_MSG) conn) client
                  (set_new_msg_len byte reg)
            | CLIENT_MSG =>
                let* r := rcv_app conn client reg byte in
                if snd r then Ok (fst r, reg, -1)
                else parse_sock_loop n' (fst r) client reg
            end
        end
  end.

Definition parse_sock_data (conn : CONN) (client : nat) (reg : CLIENT_REG)
  : result (CONN * CLIENT_REG * Z) :=
  match clients conn !! client with
  | None => Fault Undefined
  | Some cl =>
      parse_sock_loop (buf_len (sock_in cl) - buf_index (sock_in cl)) conn client reg
  end.


(** The connection with the client at position [c] replaced. *)
Definition put_client (c : nat) (cl : CLIENT) (conn : CONN) : CONN :=
  set_clients (<[c := cl]> (clients conn)) conn.

(** A client that has not completed its registration. *)
Definition unregistered (cl : CLIENT) : Prop :=
  client_state_rank (client_state cl) < client_state_rank CLIENT_IDLE.




(** The message of [enq_conn0], framed in CRC mode by [tx_msg], is read
    from the TTY by a new CRC connection of the same build that has a
    client registered at address 5. *)
Definition crc_loopback : result CONN :=
  let* connT := tx_msg enq_conn0 0 in
  tty_input (set_clients [client_registered 5] (conn_init 1 3 2 1 200))
    (buf_contents (tty_out connT)).

(** The new connection [sink_conn0] after the peer's frame with the
    payload [05 00 06 00 42 42 42] was delivered to its client: the
    receiver waits for the client's answer. *)
Definition delivered_conn : CONN :=
  match tty_input sink_conn0 (df1_frame false [5; 0; 6; 0; 0x42; 0x42; 0x42]) with
  | Ok conn => conn
  | Fault _ => sink_conn0
  end.

(** A connection with two registered clients: the one at address 5 is
    idle, the one at address 6 has the message [06 00 06 00 42] ready. *)
Definition two_clients_conn : CONN :=
  let cl := client_registered 6 in
  let cl := set_df1_tx (buf_read (df1_tx cl) [6; 0; 6; 0; 0x42]) cl in
  set_clients [client_registered 5; set_client_state CLIENT_MSG_READY cl]
    (conn_init 0 3 3 1 1000).

(** [enq_conn0] with 510 bytes waiting in its TTY output buffer. *)
Definition tty_full_conn : CONN :=
  set_tty_out (buf_read (buf_new TTY_BUF_SIZE) (replicate 510 0)) enq_conn0.

(** [sink_conn0] whose client has written [incoming] to its socket. *)
Definition client_wrote (conn : CONN) (incoming : list Z) : CONN :=
  upd_client 0 (fun cl => set_sock_in (buf_read (sock_in cl) incoming) cl) conn.

(** A connection that a client has just connected to. *)
Definition fresh_client_conn : CONN := set_clients [client_zero] (conn_init 0 3 3 1 1000).

(** A library pool of three slots: a command that was sent and
    acknowledged, an unused slot, and a message of three bytes waiting to
    be sent; the first slot is the current one. *)
Definition pool_msg (state : Z) (payload : list Z) : DF1MSG :=
  mkDF1MSG state (buf_read (buf_new 300) payload) true 0x9999 0 0 0 0 50 7
           (Some 1) None PCCC_SUCCESS EmptyString.

Definition pool0 : PCCC_PRIV :=
  mkPCCC_PRIV 0 (buf_new 300) (buf_new 300) (buf_new 300) READ_MODE_IDLE 0 3 0
    [pool_msg (Z.lor MSG_TX MSG_ACK_RCVD) [0; 5; 6; 0; 0x99; 0x99];
     pool_msg MSG_UNUSED [];
     pool_msg MSG_PEND [1; 2; 3]]
    true EmptyString.

(** [reply_priv0] when the daemon has written SOH, the length and the six
    bytes of the reply to the socket. *)
Definition reply_arrives : PCCC_PRIV :=
  set_p_sock_in (buf_read (buf_new 300) [MSG_SOH; 6; 0; 5; 0x46; 0; 0x34; 0x12])
    reply_priv0.

(** * Properties *)

(** ** Machine integers and the CRC *)

Lemma u8_small x : 0 <= x < 256 -> u8 x = x.
Proof. intros. unfold u8. apply Z.mod_small; lia. Qed.

Lemma u16_small x : 0 <= x < 65536 -> u16 x = x.
Proof. intros. unfold u16. apply Z.mod_small; lia. Qed.

Lemma u32_small x : 0 <= x < 4294967296 -> u32 x = x.
Proof. intros. unfold u32. apply Z.mod_small; lia. Qed.

Lemma u8_range x : 0 <= u8 x < 256.
Proof. unfold u8. apply Z.mod_pos_bound. lia. Qed.

Lemma shiftr1_range x : 0 <= x < 65536 -> 0 <= Z.shiftr x 1 < 32768.
Proof.
  intros. rewrite Z.shiftr_div_pow2 by lia. change (2 ^ 1) with 2.
  split; [apply Z.div_pos; lia | apply Z.div_lt_upper_bound; lia].
Qed.

Lemma lxor_range16 a b :
  0 <= a < 65536 -> 0 <= b < 65536 -> 0 <= Z.lxor a b < 65536.
Proof.
  intros Ha Hb. split; [apply Z.lxor_nonneg; lia|].
  destruct (Z.eq_dec (Z.lxor a b) 0) as [->|Hne]; [lia|].
  assert (0 < Z.lxor a b) by (pose proof (proj2 (Z.lxor_nonneg a b)); lia).
  apply Z.log2_lt_pow2 with (b := 16); [lia|].
  eapply Z.le_lt_trans; [apply Z.log2_lxor; lia|].
  apply Z.max_lub_lt.
  - destruct (Z.eq_dec a 0) as [->|]; [simpl; lia|]. apply Z.log2_lt_pow2; lia.
  - destruct (Z.eq_dec b 0) as [->|]; [simpl; lia|]. apply Z.log2_lt_pow2; lia.
Qed.

Lemma crc_shift_eq crc :
  0 <= crc < 65536 ->
  crc_shift crc = crc16_bit crc false /\ 0 <= crc_shift crc < 65536.
Proof.
  intros H. unfold crc_shift, crc16_bit. rewrite xorb_false_r.
  pose proof (shiftr1_range crc H) as Hs.
  assert (Hx : 0 <= Z.lxor (Z.shiftr crc 1) 0xa001 < 65536)
    by (apply lxor_range16; lia).
  rewrite (u16_small (Z.shiftr crc 1)) by lia.
  destruct (Z.testbit crc 0); rewrite ?(u16_small (Z.lxor _ _)) by lia;
    split; auto; lia.
Qed.

Lemma crc16_bit_range crc b : 0 <= crc < 65536 -> 0 <= crc16_bit crc b < 65536.
Proof.
  intros H. unfold crc16_bit. pose proof (shiftr1_range crc H).
  destruct (xorb _ _); [apply lxor_range16|]; lia.
Qed.

(** One shift of the register after the byte was xor-ed in is one bit of
    the bit-serial CRC, the rest of the byte staying xor-ed in. *)
Lemma crc16_bit_lxor crc x :
  crc16_bit (Z.lxor crc x) false =
  Z.lxor (crc16_bit crc (Z.testbit x 0)) (Z.shiftr x 1).
Proof.
  unfold crc16_bit. rewrite xorb_false_r, Z.lxor_spec, Z.shiftr_lxor.
  destruct (xorb _ _); [|reflexivity].
  rewrite !Z.lxor_assoc. f_equal. apply Z.lxor_comm.
Qed.

Lemma iter_crc_bits n : forall crc x,
  0 <= crc < 65536 -> 0 <= x < 2 ^ Z.of_nat n -> x < 65536 ->
  Nat.iter n crc_shift (Z.lxor crc x) =
  fold_left crc16_bit (map (fun i => Z.testbit x (Z.of_nat i)) (seq 0 n)) crc.
Proof.
  induction n as [|n IH]; intros crc x Hc Hx Hx'.
  - simpl in *. assert (x = 0) by lia. subst. now rewrite Z.lxor_0_r.
  - rewrite Nat.iter_succ_r.
    assert (Hr : 0 <= Z.lxor crc x < 65536) by (apply lxor_range16; lia).
    rewrite (proj1 (crc_shift_eq _ Hr)), crc16_bit_lxor.
    assert (Hs : 0 <= Z.shiftr x 1 < 2 ^ Z.of_nat n).
    { rewrite Z.shiftr_div_pow2 by lia. change (2 ^ 1) with 2.
      rewrite Nat2Z.inj_succ, Z.pow_succ_r in Hx by lia.
      split; [apply Z.div_pos; lia | apply Z.div_lt_upper_bound; lia]. }
    rewrite IH; [| apply crc16_bit_range; lia | lia |].
    2:{ rewrite Z.shiftr_div_pow2 by lia. change (2 ^ 1) with 2.
        apply Z.div_lt_upper_bound; lia. }
    simpl. f_equal. rewrite <- seq_shift, map_map. apply map_ext.
    intros i. rewrite Z.shiftr_spec by lia. f_equal. lia.
Qed.

Lemma CRC_ADD_spec crc x :
  0 <= crc < 65536 -> 0 <= x < 256 -> CRC_ADD crc x = crc16_byte crc x.
Proof.
  intros Hc Hx. unfold CRC_ADD, crc16_byte, bits_of_byte.
  rewrite u16_small by (apply lxor_range16; lia).
  apply iter_crc_bits; simpl; lia.
Qed.

Lemma crc16_byte_range crc x : 0 <= crc < 65536 -> 0 <= crc16_byte crc x < 65536.
Proof.
  unfold crc16_byte. generalize (bits_of_byte x). intros l. revert crc.
  induction l as [|b l IH]; intros crc H; simpl; [lia|].
  apply IH, crc16_bit_range, H.
Qed.

Lemma CRC_ADD_range crc x :
  0 <= crc < 65536 -> 0 <= x < 256 -> 0 <= CRC_ADD crc x < 65536.
Proof. intros. rewrite CRC_ADD_spec by lia. now apply crc16_byte_range. Qed.

Lemma fold_CRC_ADD_spec B : forall crc,
  0 <= crc < 65536 -> Forall is_byte B ->
  fold_left CRC_ADD B crc = fold_left crc16_byte B crc /\
  0 <= fold_left CRC_ADD B crc < 65536.
Proof.
  induction B as [|b B IH]; intros crc Hc HB; simpl; [split; [reflexivity | lia]|].
  inversion HB as [|? ? Hb HB']; subst. unfold is_byte in Hb.
  rewrite CRC_ADD_spec by lia.
  apply IH; [now apply crc16_byte_range | assumption].
Qed.

Lemma fold_bcc_sum B : forall bcc,
  fold_left (fun bcc b => u8 (bcc + b)) B (u8 bcc) = u8 (bcc + fold_right Z.add 0 B).
Proof.
  induction B as [|b B IH]; intros bcc; simpl.
  - now rewrite Z.add_0_r.
  - replace (u8 (u8 bcc + b)) with (u8 (bcc + b)).
    + rewrite IH. f_equal. lia.
    + unfold u8. now rewrite Zplus_mod_idemp_l.
Qed.

Lemma neg_mod_256 s : (Z.lnot (s mod 256) + 1) mod 256 = (- s) mod 256.
Proof.
  unfold Z.lnot.
  replace (Z.pred (- (s mod 256)) + 1) with (0 - s mod 256) by lia.
  rewrite (Zminus_mod_idemp_r 0 s 256). reflexivity.
Qed.

Lemma tx_bcc_spec B : tx_bcc B = bcc_spec B.
Proof.
  unfold tx_bcc, bcc_spec. change 0 with (u8 0) at 1. rewrite fold_bcc_sum.
  unfold u8. simpl (0 + _). apply neg_mod_256.
Qed.

(** ** Buffers *)

Lemma buf_empty_wf b : buf_wf b -> buf_wf (buf_empty b).
Proof. unfold buf_wf. simpl. intros (? & ? & ?). repeat split; auto; lia. Qed.

Lemma buf_new_wf n : buf_wf (buf_new n).
Proof. unfold buf_wf, buf_new. simpl. rewrite length_replicate. lia. Qed.

Lemma buf_append_byte_room b x :
  (buf_len b < buf_max b)%nat ->
  buf_append_byte b x =
  (mkBUF (<[buf_len b := u8 x]> (buf_data b)) (S (buf_len b)) (buf_index b)
         (buf_max b), 0).
Proof.
  intros H. unfold buf_append_byte.
  destruct (Nat.eqb_spec (buf_len b) (buf_max b)); [lia | reflexivity].
Qed.

Lemma buf_append_byte_full b x :
  buf_len b = buf_max b -> buf_append_byte b x = (b, -1).
Proof. intros H. unfold buf_append_byte. now rewrite H, Nat.eqb_refl. Qed.

Lemma contents_insert (data : list Z) (n : nat) (x : Z) :
  (n < length data)%nat -> take (S n) (<[n := x]> data) = take n data ++ [x].
Proof.
  intros H. rewrite (take_S_r _ _ x) by now apply list_lookup_insert_eq.
  now rewrite take_insert_ge by lia.
Qed.

(** Appending a byte to a buffer with room. *)
Lemma buf_append_byte_spec b x :
  buf_wf b -> (buf_len b < buf_max b)%nat ->
  exists b',
    buf_append_byte b x = (b', 0) /\ buf_wf b' /\
    buf_contents b' = buf_contents b ++ [u8 x] /\
    buf_len b' = S (buf_len b) /\ buf_index b' = buf_index b /\
    buf_max b' = buf_max b.
Proof.
  intros (Hd & Hi & Hl) Hr. eexists. split; [now apply buf_append_byte_room|].
  unfold buf_wf, buf_contents. simpl. rewrite length_insert.
  repeat split; try lia. apply contents_insert. lia.
Qed.

Lemma mem_write_length data off l :
  (off + length l <= length data)%nat -> length (mem_write data off l) = length data.
Proof.
  intros H. unfold mem_write. rewrite !length_app, length_take, length_drop. lia.
Qed.

Lemma mem_write_take data off l :
  (off + length l <= length data)%nat ->
  take (off + length l) (mem_write data off l) = take off data ++ l.
Proof.
  intros H. unfold mem_write. rewrite app_assoc.
  rewrite take_app_le by (rewrite length_app, length_take; lia).
  rewrite take_ge by (rewrite length_app, length_take; lia). reflexivity.
Qed.

(** Appending a buffer to a buffer with room. *)
Lemma buf_append_buf_spec dst src :
  buf_wf dst -> buf_wf src -> (buf_len dst + buf_len src <= buf_max dst)%nat ->
  exists b',
    buf_append_buf dst src = (b', 0) /\ buf_wf b' /\
    buf_contents b' = buf_contents dst ++ buf_contents src /\
    buf_index b' = buf_index dst /\ buf_max b' = buf_max dst.
Proof.
  intros (Hd & Hi & Hl) (Hd' & Hi' & Hl') Hr. unfold buf_append_buf.
  destruct (Nat.ltb_spec (buf_max dst) (buf_len dst + buf_len src)); [lia|].
  assert (Hc : length (buf_contents src) = buf_len src)
    by (unfold buf_contents; rewrite length_take; lia).
  eexists. split; [reflexivity|]. unfold buf_wf. simpl.
  rewrite mem_write_length by (rewrite Hc; lia). repeat split; try lia.
  unfold buf_contents at 1. simpl.
  rewrite <- Hc at 1. rewrite mem_write_take by (rewrite Hc; lia). reflexivity.
Qed.

Lemma buf_append_buf_full dst src :
  (buf_max dst < buf_len dst + buf_len src)%nat -> buf_append_buf dst src = (dst, -1).
Proof.
  intros H. unfold buf_append_buf.
  destruct (Nat.ltb_spec (buf_max dst) (buf_len dst + buf_len src)); [reflexivity | lia].
Qed.

Lemma pending_length b :
  buf_wf b -> length (buf_pending b) = (buf_len b - buf_index b)%nat.
Proof.
  intros (Hd & Hi & Hl). unfold buf_pending, buf_contents.
  rewrite length_drop, length_take. lia.
Qed.

(** Reading a byte: the head of what is pending comes out. *)
Lemma buf_get_byte_spec b d x l :
  buf_wf b -> buf_pending b = x :: l ->
  buf_get_byte b d = (buf_skip 1 b, 0, x) /\
  buf_wf (buf_skip 1 b) /\ buf_pending (buf_skip 1 b) = l.
Proof.
  intros Hwf Hp. pose proof (pending_length b Hwf) as Hlen.
  rewrite Hp in Hlen. simpl in Hlen. destruct Hwf as (Hd & Hi & Hl).
  assert (Hlk : buf_data b !! buf_index b = Some x).
  { unfold buf_pending, buf_contents in Hp.
    rewrite <- (lookup_take_lt _ (buf_len b)) by lia.
    replace (buf_index b) with (buf_index b + 0)%nat at 1 by lia.
    rewrite <- lookup_drop, Hp. reflexivity. }
  unfold buf_get_byte.
  destruct (Nat.eqb_spec (buf_len b) (buf_index b)); [lia|].
  repeat split; simpl; try lia.
  - unfold buf_skip. simpl. f_equal.
    rewrite list_lookup_total_alt, Hlk. reflexivity.
  - unfold buf_pending, buf_contents in *. simpl.
    replace (S (buf_index b)) with (buf_index b + 1)%nat by lia.
    rewrite <- drop_drop, Hp. reflexivity.
Qed.

Lemma buf_get_byte_end b d :
  buf_index b = buf_len b -> buf_get_byte b d = (b, -1, d).
Proof. intros H. unfold buf_get_byte. now rewrite H, Nat.eqb_refl. Qed.

Lemma pending_nil_end b : buf_wf b -> buf_pending b = [] -> buf_index b = buf_len b.
Proof.
  intros Hwf Hp. pose proof (pending_length b Hwf) as Hlen.
  rewrite Hp in Hlen. simpl in Hlen. destruct Hwf as (_ & ? & _). lia.
Qed.

Lemma buf_skip_skip j k b : buf_skip j (buf_skip k b) = buf_skip (j + k) b.
Proof. unfold buf_skip. simpl. f_equal. lia. Qed.

Lemma buf_skip_0 b : buf_skip 0 b = b.
Proof. now destruct b. Qed.

(** What [buf_read] leaves in the buffer. *)
Lemma buf_read_spec b l :
  length (buf_data b) = buf_max b -> (length l <= buf_max b)%nat ->
  buf_wf (buf_read b l) /\ buf_pending (buf_read b l) = l /\
  buf_len (buf_read b l) = length l /\ buf_max (buf_read b l) = buf_max b.
Proof.
  intros Hd Hl. unfold buf_read. rewrite take_ge by lia.
  unfold buf_wf, buf_pending, buf_contents. simpl.
  rewrite mem_write_length by (simpl; lia). repeat split; try lia.
  rewrite drop_0. change (length l) with (0 + length l)%nat at 1.
  rewrite mem_write_take by (simpl; lia). now rewrite take_0.
Qed.

Lemma buf_append_word_spec b w :
  buf_wf b -> (buf_len b + 2 <= buf_max b)%nat ->
  exists b',
    buf_append_word b w = (b', 0) /\ buf_wf b' /\
    buf_contents b' =
      buf_contents b ++ [fst (mem16 BYTE_ORDER (u16 w)); snd (mem16 BYTE_ORDER (u16 w))] /\
    buf_len b' = (buf_len b + 2)%nat /\ buf_index b' = buf_index b /\
    buf_max b' = buf_max b.
Proof.
  intros (Hd & Hi & Hl) Hr. unfold buf_append_word.
  destruct (Nat.ltb_spec (buf_max b) (buf_len b + 2)); [lia|].
  destruct (mem16 BYTE_ORDER (u16 w)) as [b0 b1]. simpl.
  eexists. split; [reflexivity|]. unfold buf_wf. simpl.
  rewrite mem_write_length by (simpl; lia). repeat split; try lia.
  unfold buf_contents at 1. simpl.
  change 2%nat with (length [b0; b1]) at 1.
  rewrite mem_write_take by (simpl; lia). reflexivity.
Qed.

Lemma buf_append_word_full b w :
  (buf_max b < buf_len b + 2)%nat -> buf_append_word b w = (b, -1).
Proof.
  intros H. unfold buf_append_word.
  destruct (Nat.ltb_spec (buf_max b) (buf_len b + 2)); [reflexivity | lia].
Qed.

Lemma contents_length b : buf_wf b -> length (buf_contents b) = buf_len b.
Proof. intros (? & ? & ?). unfold buf_contents. rewrite length_take. lia. Qed.

Lemma buf_append_bytes_app l1 : forall b ov l2,
  buf_append_bytes b ov (l1 ++ l2) =
  buf_append_bytes (fst (buf_append_bytes b ov l1)) (snd (buf_append_bytes b ov l1)) l2.
Proof.
  induction l1 as [|x l1 IH]; intros b ov l2; simpl; [reflexivity|].
  destruct (buf_append_byte b x) as [b' r]. apply IH.
Qed.

(** A run of byte appends fills the buffer up to its capacity and no
    further; the or-ed result tells whether a byte was lost. *)
Lemma buf_append_bytes_spec l : forall b ov,
  buf_wf b -> Forall is_byte l ->
  buf_wf (fst (buf_append_bytes b ov l)) /\
  buf_contents (fst (buf_append_bytes b ov l)) = take (buf_max b) (buf_contents b ++ l) /\
  buf_max (fst (buf_append_bytes b ov l)) = buf_max b /\
  buf_index (fst (buf_append_bytes b ov l)) = buf_index b /\
  snd (buf_append_bytes b ov l) =
    if (buf_len b + length l <=? buf_max b)%nat then ov else -1.
Proof.
  induction l as [|x l IH]; intros b ov Hwf Hl; cbn [buf_append_bytes length].
  - cbn [fst snd]. pose proof (contents_length b Hwf) as Hc. destruct Hwf as (Hd & Hi & Hm).
    rewrite app_nil_r, take_ge by lia.
    split; [unfold buf_wf; auto|]. do 3 (split; [reflexivity|]).
    destruct (Nat.leb_spec (buf_len b + 0) (buf_max b)); [reflexivity | lia].
  - inversion Hl as [|? ? Hx Hl']; subst. unfold is_byte in Hx.
    pose proof (contents_length b Hwf) as Hc.
    destruct (Nat.eq_dec (buf_len b) (buf_max b)) as [Hfull|Hroom].
    + rewrite buf_append_byte_full by assumption. cbv iota beta.
      destruct (IH b (Z.lor ov (-1)) Hwf Hl') as (H1 & H2 & H3 & H4 & H5).
      split; [exact H1|]. split; [|split; [exact H3|split; [exact H4|]]].
      * rewrite H2. rewrite !take_app_le by lia. reflexivity.
      * rewrite H5, Z.lor_m1_r.
        destruct (Nat.leb_spec (buf_len b + length l) (buf_max b));
          destruct (Nat.leb_spec (buf_len b + S (length l)) (buf_max b)); auto; lia.
    + assert (Hlt : (buf_len b < buf_max b)%nat) by (destruct Hwf as (? & ? & ?); lia).
      destruct (buf_append_byte_spec b x Hwf Hlt) as (b' & E & Hwf' & Hc' & Hl1 & Hi1 & Hm1).
      rewrite E. cbv iota beta. rewrite Z.lor_0_r.
      destruct (IH b' ov Hwf' Hl') as (H1 & H2 & H3 & H4 & H5).
      split; [exact H1|].
      split; [|split; [congruence|split; [congruence|]]].
      * rewrite H2, Hc', Hm1, u8_small by lia. now rewrite <- app_assoc.
      * rewrite H5, Hl1, Hm1.
        destruct (Nat.leb_spec (S (buf_len b) + length l) (buf_max b));
          destruct (Nat.leb_spec (buf_len b + S (length l)) (buf_max b)); auto; lia.
Qed.

Lemma dle_stuff_cons x B :
  dle_stuff (x :: B) = (if x =? SYM_DLE then [SYM_DLE; SYM_DLE] else [x]) ++ dle_stuff B.
Proof. reflexivity. Qed.

Lemma dle_stuff_bytes B : Forall is_byte B -> Forall is_byte (dle_stuff B).
Proof.
  induction 1 as [|x B Hx HB IH]; [constructor|].
  rewrite dle_stuff_cons. apply Forall_app. split; [|assumption].
  assert (is_byte SYM_DLE) by (unfold is_byte, SYM_DLE; lia).
  destruct (x =? SYM_DLE); repeat (constructor; [assumption|]); constructor.
Qed.

Lemma dle_stuff_length B :
  (length B <= length (dle_stuff B) <= 2 * length B)%nat.
Proof.
  induction B as [|x B IH]; [simpl; lia|].
  rewrite dle_stuff_cons, length_app. destruct (x =? SYM_DLE); simpl; lia.
Qed.

(** The loop of [tx_msg] stuffs what is pending in [df1] into [msg]. *)
Lemma tx_msg_loop_spec uc B : forall n df1 msg ov crc bcc,
  buf_wf df1 -> buf_pending df1 = B -> (length B <= n)%nat ->
  tx_msg_loop uc n df1 msg ov crc bcc =
  Ok (buf_skip (length B) df1,
      fst (buf_append_bytes msg ov (dle_stuff B)),
      snd (buf_append_bytes msg ov (dle_stuff B)),
      (if uc then fold_left CRC_ADD B crc else crc),
      (if uc then bcc else fold_left (fun bcc b => u8 (bcc + b)) B bcc)).
Proof.
  induction B as [|x B IH]; intros n df1 msg ov crc bcc Hwf Hp Hn.
  - pose proof (pending_nil_end df1 Hwf Hp) as He.
    destruct n; simpl; rewrite buf_get_byte_end by assumption; simpl;
      rewrite buf_skip_0; destruct uc; reflexivity.
  - destruct (buf_get_byte_spec df1 0 x B Hwf Hp) as (E & Hwf' & Hp').
    destruct n as [|n]; [simpl in Hn; lia|]. simpl in Hn.
    cbn [tx_msg_loop]. rewrite E. cbn [negb Z.eqb].
    rewrite dle_stuff_cons, buf_append_bytes_app.
    destruct (buf_append_byte msg x) as [m1 r1] eqn:E1.
    destruct (Z.eqb_spec x SYM_DLE) as [->|Hne].
    + cbn [buf_append_bytes]. rewrite E1.
      destruct (buf_append_byte m1 SYM_DLE) as [m2 r2] eqn:E2. cbn [fst snd].
      rewrite IH by (auto; lia). rewrite buf_skip_skip.
      replace (length B + 1)%nat with (length (SYM_DLE :: B)) by (simpl; lia).
      destruct uc; reflexivity.
    + cbn [buf_append_bytes]. rewrite E1. cbn [fst snd].
      rewrite IH by (auto; lia). rewrite buf_skip_skip.
      replace (length B + 1)%nat with (length (x :: B)) by (simpl; lia).
      destruct uc; reflexivity.
Qed.

(** [tx_msg_frame], by appends: the frame goes in byte by byte, the CRC as
    one word. *)
Lemma tx_msg_frame_spec uc df1 msg B :
  buf_wf df1 -> buf_pending df1 = B ->
  tx_msg_frame uc df1 msg =
  let body := buf_append_bytes msg 0
                ([SYM_DLE; SYM_STX] ++ dle_stuff B ++ [SYM_DLE; SYM_ETX]) in
  let cs :=
    if uc then buf_append_word (fst body) (htols (tx_crc B))
    else buf_append_byte (fst body)
           (Z.lnot (fold_left (fun bcc b => u8 (bcc + b)) B 0) + 1) in
  Ok (buf_skip (length B) df1, fst cs, Z.lor (snd body) (snd cs)).
Proof.
  intros Hwf Hp. unfold tx_msg_frame.
  pose proof (pending_length df1 Hwf) as Hlen. rewrite Hp in Hlen.
  change ([SYM_DLE; SYM_STX] ++ dle_stuff B ++ [SYM_DLE; SYM_ETX])
    with (SYM_DLE :: SYM_STX :: (dle_stuff B ++ [SYM_DLE; SYM_ETX])).
  cbn [buf_append_bytes].
  destruct (buf_append_byte msg SYM_DLE) as [m1 r1].
  destruct (buf_append_byte m1 SYM_STX) as [m2 r2].
  rewrite (tx_msg_loop_spec uc B) by (auto; lia). cbn [bind].
  rewrite buf_append_bytes_app.
  change (Z.lor 0 r1) with r1.
  destruct (buf_append_bytes m2 (Z.lor r1 r2) (dle_stuff B)) as [m3 o3].
  cbn [fst snd buf_append_bytes].
  destruct (buf_append_byte m3 SYM_DLE) as [m4 r4].
  destruct (buf_append_byte m4 SYM_ETX) as [m5 r5].
  cbn [fst snd]. unfold tx_crc.
  destruct uc.
  - destruct (buf_append_word m5 _) as [m6 r6]. reflexivity.
  - destruct (buf_append_byte m5 _) as [m6 r6]. reflexivity.
Qed.

Lemma frame_checksum_length uc B :
  length (frame_checksum uc B) = if uc then 2%nat else 1%nat.
Proof.
  unfold frame_checksum. destruct uc; [|reflexivity].
  destruct (mem16 _ _). reflexivity.
Qed.

Lemma df1_frame_length uc B :
  length (df1_frame uc B) =
  (4 + length (dle_stuff B) + if uc then 2 else 1)%nat.
Proof.
  unfold df1_frame. rewrite !length_app, frame_checksum_length. simpl. lia.
Qed.

(** When the frame fits, [tx_msg_frame] leaves exactly the frame behind what
    the buffer held, and reports no overflow. *)
Lemma tx_msg_frame_fits uc df1 msg B :
  buf_wf df1 -> buf_pending df1 = B -> Forall is_byte B -> buf_wf msg ->
  (buf_len msg + length (df1_frame uc B) <= buf_max msg)%nat ->
  exists msg',
    tx_msg_frame uc df1 msg = Ok (buf_skip (length B) df1, msg', 0) /\
    buf_wf msg' /\
    buf_contents msg' = buf_contents msg ++ df1_frame uc B /\
    buf_max msg' = buf_max msg /\ buf_index msg' = buf_index msg /\
    buf_len msg' = (buf_len msg + length (df1_frame uc B))%nat.
Proof.
  intros Hwf Hp HB Hm Hfit. rewrite (tx_msg_frame_spec uc df1 msg B Hwf Hp).
  rewrite df1_frame_length in Hfit.
  set (body := [SYM_DLE; SYM_STX] ++ dle_stuff B ++ [SYM_DLE; SYM_ETX]).
  assert (Hbody : Forall is_byte body).
  { unfold body. apply Forall_app. split.
    - repeat constructor; unfold SYM_DLE, SYM_STX; lia.
    - apply Forall_app. split; [now apply dle_stuff_bytes|].
      repeat constructor; unfold SYM_DLE, SYM_ETX; lia. }
  assert (Hlb : length body = (4 + length (dle_stuff B))%nat).
  { unfold body. rewrite !length_app. simpl. lia. }
  destruct (buf_append_bytes_spec body msg 0 Hm Hbody) as (W1 & C1 & M1 & I1 & O1).
  pose proof (contents_length msg Hm) as Hcl.
  pose proof (contents_length _ W1) as Hcl1.
  rewrite take_ge in C1 by (rewrite length_app; destruct uc; lia).
  rewrite C1, length_app, Hcl in Hcl1.
  destruct (Nat.leb_spec (buf_len msg + length body) (buf_max msg)) as [_|?];
    [|destruct uc; lia].
  cbv zeta. rewrite O1. cbn [Z.lor].
  destruct uc.
  - destruct (buf_append_word_spec (fst (buf_append_bytes msg 0 body)) (htols (tx_crc B)) W1)
      as (b' & E & W2 & C2 & L2 & I2 & M2); [lia|].
    rewrite E. cbn [fst snd]. exists b'. rewrite df1_frame_length.
    split; [reflexivity|]. split; [assumption|].
    split; [|split; [congruence|split; [congruence|lia]]].
    rewrite C2, C1. unfold df1_frame, frame_checksum. fold body.
    destruct (mem16 BYTE_ORDER (u16 (htols (tx_crc B)))) as [b0 b1]. cbn [fst snd].
    unfold body. now rewrite <- !app_assoc.
  - destruct (buf_append_byte_spec (fst (buf_append_bytes msg 0 body))
                (Z.lnot (fold_left (fun bcc b => u8 (bcc + b)) B 0) + 1) W1)
      as (b' & E & W2 & C2 & L2 & I2 & M2); [lia|].
    rewrite E. cbn [fst snd]. exists b'. rewrite df1_frame_length.
    split; [reflexivity|]. split; [assumption|].
    split; [|split; [congruence|split; [congruence|lia]]].
    rewrite C2, C1. unfold df1_frame, frame_checksum, tx_bcc, body.
    now rewrite <- !app_assoc.
Qed.

(** ** Record bookkeeping for the receiver *)

(** Projections of updated records, and nothing else, are computed. *)
Ltac rsimpl :=
  cbn [
    buf_data buf_len buf_index buf_max tx_attempts tx_success msg_rx acks_in
    naks_in resp_timeouts enqs_out tx_fail acks_out naks_out enqs_in runts
    bad_cs unknown_dst bytes_ignored dups rx_overflow set_tx_attempts
    set_tx_success set_msg_rx set_acks_in set_naks_in set_resp_timeouts
    set_enqs_out set_tx_fail set_acks_out set_naks_out set_enqs_in set_runts
    set_bad_cs set_unknown_dst set_bytes_ignored set_dups set_rx_overflow
    cl_tx_attempts cl_tx_success cl_tx_fail sink_full cl_msg_rx msg_reject
    msg_accept rx_timeouts set_cl_tx_attempts set_cl_tx_success
    set_cl_tx_fail set_sink_full set_cl_msg_rx set_msg_reject set_msg_accept
    set_rx_timeouts client_state addr df1_tx sock_out sock_in client_dcnts
    set_client_state set_addr set_df1_tx set_sock_out set_sock_in
    set_client_dcnts tx_state max_nak max_enq nak_cnt enq_cnt tx_eticks
    tx_tticks tx_buf tx_client set_tx_state set_max_nak set_max_enq
    set_nak_cnt set_enq_cnt set_tx_eticks set_tx_tticks set_tx_buf
    set_tx_client crc bcc set_crc set_bcc rx_state rx_app rx_dup rx_eticks
    rx_tticks last_was_ack overflow dup_detect prev_dle rx_client msg_cs
    acc_cs set_rx_state set_rx_app set_rx_dup set_rx_eticks set_rx_tticks
    set_last_was_ack set_overflow set_dup_detect set_prev_dle set_rx_client
    set_msg_cs set_acc_cs use_crc read_sym embed_rsp tty_in tty_out tx rx
    clients dcnts set_use_crc set_read_sym set_embed_rsp set_tty_in
    set_tty_out set_tx set_rx set_clients set_dcnts upd_tx upd_rx upd_client
    fst snd incr_tx_attempts incr_tx_success incr_msg_rx incr_acks_in
    incr_naks_in incr_resp_timeouts incr_enqs_out incr_tx_fail incr_acks_out
    incr_naks_out incr_enqs_in incr_runts incr_bad_cs incr_unknown_dst
    incr_bytes_ignored incr_dups incr_rx_overflow incr_cl_tx_attempts
    incr_cl_tx_success incr_cl_tx_fail incr_sink_full incr_cl_msg_rx
    incr_msg_reject incr_msg_accept incr_rx_timeouts rx_set_nak ].

Ltac rsimpl_in H :=
  cbn [
    buf_data buf_len buf_index buf_max tx_attempts tx_success msg_rx acks_in
    naks_in resp_timeouts enqs_out tx_fail acks_out naks_out enqs_in runts
    bad_cs unknown_dst bytes_ignored dups rx_overflow set_tx_attempts
    set_tx_success set_msg_rx set_acks_in set_naks_in set_resp_timeouts
    set_enqs_out set_tx_fail set_acks_out set_naks_out set_enqs_in set_runts
    set_bad_cs set_unknown_dst set_bytes_ignored set_dups set_rx_overflow
    cl_tx_attempts cl_tx_success cl_tx_fail sink_full cl_msg_rx msg_reject
    msg_accept rx_timeouts set_cl_tx_attempts set_cl_tx_success
    set_cl_tx_fail set_sink_full set_cl_msg_rx set_msg_reject set_msg_accept
    set_rx_timeouts client_state addr df1_tx sock_out sock_in client_dcnts
    set_client_state set_addr set_df1_tx set_sock_out set_sock_in
    set_client_dcnts tx_state max_nak max_enq nak_cnt enq_cnt tx_eticks
    tx_tticks tx_buf tx_client set_tx_state set_max_nak set_max_enq
    set_nak_cnt set_enq_cnt set_tx_eticks set_tx_tticks set_tx_buf
    set_tx_client crc bcc set_crc set_bcc rx_state rx_app rx_dup rx_eticks
    rx_tticks last_was_ack overflow dup_detect prev_dle rx_client msg_cs
    acc_cs set_rx_state set_rx_app set_rx_dup set_rx_eticks set_rx_tticks
    set_last_was_ack set_overflow set_dup_detect set_prev_dle set_rx_client
    set_msg_cs set_acc_cs use_crc read_sym embed_rsp tty_in tty_out tx rx
    clients dcnts set_use_crc set_read_sym set_embed_rsp set_tty_in
    set_tty_out set_tx set_rx set_clients set_dcnts upd_tx upd_rx upd_client
    fst snd incr_tx_attempts incr_tx_success incr_msg_rx incr_acks_in
    incr_naks_in incr_resp_timeouts incr_enqs_out incr_tx_fail incr_acks_out
    incr_naks_out incr_enqs_in incr_runts incr_bad_cs incr_unknown_dst
    incr_bytes_ignored incr_dups incr_rx_overflow incr_cl_tx_attempts
    incr_cl_tx_success incr_cl_tx_fail incr_sink_full incr_cl_msg_rx
    incr_msg_reject incr_msg_accept incr_rx_timeouts rx_set_nak ] in H.

(** Updates of records are carried out in full. *)
Ltac rnorm :=
  cbv [
    buf_data buf_len buf_index buf_max tx_attempts tx_success msg_rx acks_in
    naks_in resp_timeouts enqs_out tx_fail acks_out naks_out enqs_in runts
    bad_cs unknown_dst bytes_ignored dups rx_overflow set_tx_attempts
    set_tx_success set_msg_rx set_acks_in set_naks_in set_resp_timeouts
    set_enqs_out set_tx_fail set_acks_out set_naks_out set_enqs_in set_runts
    set_bad_cs set_unknown_dst set_bytes_ignored set_dups set_rx_overflow
    cl_tx_attempts cl_tx_success cl_tx_fail sink_full cl_msg_rx msg_reject
    msg_accept rx_timeouts set_cl_tx_attempts set_cl_tx_success
    set_cl_tx_fail set_sink_full set_cl_msg_rx set_msg_reject set_msg_accept
    set_rx_timeouts client_state addr df1_tx sock_out sock_in client_dcnts
    set_client_state set_addr set_df1_tx set_sock_out set_sock_in
    set_client_dcnts tx_state max_nak max_enq nak_cnt enq_cnt tx_eticks
    tx_tticks tx_buf tx_client set_tx_state set_max_nak set_max_enq
    set_nak_cnt set_enq_cnt set_tx_eticks set_tx_tticks set_tx_buf
    set_tx_client crc bcc set_crc set_bcc rx_state rx_app rx_dup rx_eticks
    rx_tticks last_was_ack overflow dup_detect prev_dle rx_client msg_cs
    acc_cs set_rx_state set_rx_app set_rx_dup set_rx_eticks set_rx_tticks
    set_last_was_ack set_overflow set_dup_detect set_prev_dle set_rx_client
    set_msg_cs set_acc_cs use_crc read_sym embed_rsp tty_in tty_out tx rx
    clients dcnts set_use_crc set_read_sym set_embed_rsp set_tty_in
    set_tty_out set_tx set_rx set_clients set_dcnts upd_tx upd_rx upd_client
    fst snd incr_tx_attempts incr_tx_success incr_msg_rx incr_acks_in
    incr_naks_in incr_resp_timeouts incr_enqs_out incr_tx_fail incr_acks_out
    incr_naks_out incr_enqs_in incr_runts incr_bad_cs incr_unknown_dst
    incr_bytes_ignored incr_dups incr_rx_overflow incr_cl_tx_attempts
    incr_cl_tx_success incr_cl_tx_fail incr_sink_full incr_cl_msg_rx
    incr_msg_reject incr_msg_accept incr_rx_timeouts rx_set_nak ].

Ltac destruct_conn c :=
  destruct c as [?uc ?rsym ?ersp ?tin ?tout
                   [?tst ?mnak ?menq ?cnak ?cenq ?tet ?ttt ?tbuf ?tcl]
                   [?rst ?rbuf ?rdup ?ret ?rtt ?lwa ?ovf ?ddet ?pdle ?rcl
                      [?mcrc ?mbcc] [?acrc ?abcc]]
                   ?cls ?dcn].

Lemma app_store_set_tty_in t conn x :
  app_store (set_tty_in t conn) x = set_tty_in t (app_store conn x).
Proof.
  destruct_conn conn. unfold app_store, cs_add, upd_rx. simpl.
  destruct ovf; simpl; [destruct uc; reflexivity|].
  destruct (buf_append_byte rbuf x) as [a r]. simpl.
  destruct (r =? 0); destruct uc; reflexivity.
Qed.

Lemma app_store_prev_dle conn x :
  app_store (upd_rx (set_prev_dle true) conn) x = app_store conn x.
Proof. destruct_conn conn. reflexivity. Qed.

Lemma app_store_frame conn x :
  rx_state (rx (app_store conn x)) = rx_state (rx conn) /\
  prev_dle (rx (app_store conn x)) = false /\
  tty_in (app_store conn x) = tty_in conn /\
  use_crc (app_store conn x) = use_crc conn.
Proof.
  destruct_conn conn. unfold app_store, cs_add, upd_rx. simpl.
  destruct ovf; simpl; [destruct uc; repeat split|].
  destruct (buf_append_byte rbuf x) as [a r]. simpl.
  destruct (r =? 0); destruct uc; repeat split.
Qed.

Lemma set_tty_in_twice t t' conn :
  set_tty_in t (set_tty_in t' conn) = set_tty_in t conn.
Proof. reflexivity. Qed.

Lemma add_to_app_plain conn x :
  prev_dle (rx conn) = false -> x <> SYM_DLE ->
  add_to_app conn x = Ok (app_store conn x).
Proof.
  intros Hp Hx. unfold add_to_app. rewrite Hp.
  destruct (Z.eqb_spec x SYM_DLE); [contradiction|].
  destruct (x =? SYM_ETX); [reflexivity|].
  destruct ((x =? SYM_ACK) || (x =? SYM_NAK)); reflexivity.
Qed.

Lemma add_to_app_dle1 conn :
  prev_dle (rx conn) = false ->
  add_to_app conn SYM_DLE = Ok (upd_rx (set_prev_dle true) conn).
Proof. intros Hp. unfold add_to_app. rewrite Hp. reflexivity. Qed.

Lemma add_to_app_dle2 conn :
  prev_dle (rx conn) = true ->
  add_to_app conn SYM_DLE = Ok (app_store conn SYM_DLE).
Proof. intros Hp. unfold add_to_app. rewrite Hp. reflexivity. Qed.

(** One turn of the loop of [rx_msg] while the payload comes in. *)
Lemma rx_msg_loop_app n conn x l :
  buf_wf (tty_in conn) -> buf_pending (tty_in conn) = x :: l ->
  rx_state (rx conn) = RX_APP ->
  rx_msg_loop (S n) conn =
  let* conn' := add_to_app (set_tty_in (buf_skip 1 (tty_in conn)) conn) x in
  rx_msg_loop n conn'.
Proof.
  intros Hwf Hp Hs. cbn [rx_msg_loop].
  destruct (buf_get_byte_spec _ 0 x l Hwf Hp) as (E & _ & _). rewrite E.
  cbn [negb Z.eqb]. cbv zeta.
  replace (rx_state (rx (set_tty_in (buf_skip 1 (tty_in conn)) conn)))
    with RX_APP by (symmetry; exact Hs).
  reflexivity.
Qed.

Lemma fold_app_store_set_tty_in B : forall t conn,
  fold_left app_store B (set_tty_in t conn) = set_tty_in t (fold_left app_store B conn).
Proof.
  induction B as [|x B IH]; intros t conn; simpl; [reflexivity|].
  now rewrite app_store_set_tty_in, IH.
Qed.

(** The stuffed payload goes through the loop of [rx_msg] as a run of
    [app_store], one for each byte of the payload. *)
Lemma rx_msg_loop_payload B : forall n conn rest,
  rx_state (rx conn) = RX_APP -> prev_dle (rx conn) = false ->
  buf_wf (tty_in conn) -> buf_pending (tty_in conn) = dle_stuff B ++ rest ->
  (length (dle_stuff B) <= n)%nat ->
  rx_msg_loop n conn =
  rx_msg_loop (n - length (dle_stuff B))
    (set_tty_in (buf_skip (length (dle_stuff B)) (tty_in conn))
                (fold_left app_store B conn)).
Proof.
  induction B as [|x B IH]; intros n conn rest Hs Hd Hwf Hp Hn.
  - simpl. rewrite buf_skip_0, Nat.sub_0_r. now destruct_conn conn.
  - rewrite dle_stuff_cons in *. rewrite <- app_assoc in Hp.
    destruct (Z.eqb_spec x SYM_DLE) as [->|Hne].
    + simpl in Hp, Hn. destruct n as [|[|n]]; try lia.
      destruct (buf_get_byte_spec _ 0 _ _ Hwf Hp) as (_ & Hwf1 & Hp1).
      rewrite (rx_msg_loop_app _ _ _ _ Hwf Hp Hs).
      rewrite add_to_app_dle1 by exact Hd. cbn [bind].
      set (c1 := upd_rx (set_prev_dle true) (set_tty_in (buf_skip 1 (tty_in conn)) conn)).
      assert (Ht1 : tty_in c1 = buf_skip 1 (tty_in conn)) by now destruct_conn conn.
      assert (Hs1 : rx_state (rx c1) = RX_APP) by (now destruct_conn conn).
      assert (Hd1 : prev_dle (rx c1) = true) by (now destruct_conn conn).
      rewrite (rx_msg_loop_app n c1 SYM_DLE (dle_stuff B ++ rest));
        [| rewrite Ht1; assumption | rewrite Ht1; assumption | assumption].
      rewrite add_to_app_dle2 by (now destruct_conn conn). cbn [bind].
      rewrite Ht1, buf_skip_skip. unfold c1.
      change (set_tty_in (buf_skip (1 + 1) (tty_in conn))
                (upd_rx (set_prev_dle true) (set_tty_in (buf_skip 1 (tty_in conn)) conn)))
        with (upd_rx (set_prev_dle true) (set_tty_in (buf_skip 2 (tty_in conn)) conn)).
      rewrite app_store_prev_dle, app_store_set_tty_in.
      destruct (buf_get_byte_spec _ 0 _ _ Hwf1 Hp1) as (_ & Hwf2 & Hp2).
      rewrite buf_skip_skip in Hwf2, Hp2.
      destruct (app_store_frame conn SYM_DLE) as (F1 & F2 & F3 & F4).
      rewrite (IH n _ rest); cbn [tty_in set_tty_in]; auto; try lia.
      * rewrite buf_skip_skip. cbn [length fold_left app].
        rewrite fold_app_store_set_tty_in. cbn [tty_in set_tty_in].
        replace (S (S n) - S (S (length (dle_stuff B))))%nat
          with (n - length (dle_stuff B))%nat by lia.
        rewrite set_tty_in_twice. do 2 f_equal. unfold buf_skip. f_equal. lia.
      * change (rx_state (rx (app_store conn SYM_DLE)) = RX_APP). congruence.
    + simpl in Hp, Hn. destruct n as [|n]; try lia.
      destruct (buf_get_byte_spec _ 0 _ _ Hwf Hp) as (_ & Hwf1 & Hp1).
      rewrite (rx_msg_loop_app _ _ _ _ Hwf Hp Hs).
      rewrite add_to_app_plain by (auto; now destruct_conn conn). cbn [bind].
      rewrite app_store_set_tty_in.
      destruct (app_store_frame conn x) as (F1 & F2 & F3 & F4).
      rewrite (IH n _ rest); cbn [tty_in set_tty_in]; auto; try lia.
      * rewrite buf_skip_skip. cbn [length fold_left app].
        rewrite fold_app_store_set_tty_in. cbn [tty_in set_tty_in].
        rewrite set_tty_in_twice. cbn [Nat.sub].
        do 2 f_equal. unfold buf_skip. f_equal. lia.
      * change (rx_state (rx (app_store conn x)) = RX_APP). congruence.
Qed.

Lemma app_store_room conn x app1 :
  overflow (rx conn) = false -> prev_dle (rx conn) = false ->
  buf_append_byte (rx_app (rx conn)) x = (app1, 0) ->
  app_store conn x =
  upd_rx (fun r => set_acc_cs (cs_fold (use_crc conn) [x] (acc_cs r))
                              (set_rx_app app1 r)) conn.
Proof.
  intros Ho Hd E. destruct_conn conn. simpl in *. subst.
  unfold app_store, cs_add, upd_rx. simpl. rewrite E. simpl.
  destruct uc; reflexivity.
Qed.

(** A payload that fits ends up behind what the application buffer held,
    and in the accumulated checksum; nothing else changes. *)
Lemma fold_app_store_spec B : forall conn,
  overflow (rx conn) = false -> prev_dle (rx conn) = false ->
  buf_wf (rx_app (rx conn)) -> Forall is_byte B ->
  (buf_len (rx_app (rx conn)) + length B <= buf_max (rx_app (rx conn)))%nat ->
  exists app',
    fold_left app_store B conn =
      upd_rx (fun r => set_acc_cs (cs_fold (use_crc conn) B (acc_cs r))
                                  (set_rx_app app' r)) conn /\
    buf_wf app' /\
    buf_contents app' = buf_contents (rx_app (rx conn)) ++ B /\
    buf_index app' = buf_index (rx_app (rx conn)) /\
    buf_max app' = buf_max (rx_app (rx conn)) /\
    buf_len app' = (buf_len (rx_app (rx conn)) + length B)%nat.
Proof.
  induction B as [|x B IH]; intros conn Ho Hd Hwf HB Hroom.
  - exists (rx_app (rx conn)). rewrite app_nil_r. simpl.
    repeat (split; [auto; try lia|]); [|lia].
    destruct_conn conn. destruct uc; reflexivity.
  - inversion HB as [|? ? Hx HB']; subst. simpl in Hroom.
    destruct (buf_append_byte_spec (rx_app (rx conn)) x Hwf)
      as (app1 & E & W1 & C1 & L1 & I1 & M1); [lia|].
    cbn [fold_left]. rewrite (app_store_room conn x app1 Ho Hd E).
    set (conn1 := upd_rx _ conn).
    assert (Hc1 : rx_app (rx conn1) = app1) by now destruct_conn conn.
    destruct (IH conn1) as (app' & E' & W' & C' & I' & M' & L').
    + now destruct_conn conn.
    + now destruct_conn conn.
    + now rewrite Hc1.
    + assumption.
    + rewrite Hc1. lia.
    + exists app'. rewrite Hc1 in *.
      split; [|split; [assumption|split; [|split; [congruence|split; [congruence|cbn [length]; lia]]]]].
      * rewrite E'. unfold conn1. destruct_conn conn. unfold is_byte in Hx.
        destruct uc; reflexivity.
      * rewrite C', C1, u8_small by exact Hx. now rewrite <- app_assoc.
Qed.

(** One turn of the loop of [rx_msg]. *)
Lemma rx_msg_loop_step n conn x l :
  buf_wf (tty_in conn) -> buf_pending (tty_in conn) = x :: l ->
  rx_msg_loop (S n) conn =
  let conn := set_tty_in (buf_skip 1 (tty_in conn)) conn in
  match rx_state (rx conn) with
  | RX_APP => let* conn := add_to_app conn x in rx_msg_loop n conn
  | RX_CS1 =>
      if use_crc conn
      then rx_msg_loop n
             (upd_rx (set_rx_state RX_CS2)
                (upd_rx (fun r => set_msg_cs (set_crc x (msg_cs r)) r) conn))
      else accept_msg (upd_rx (fun r => set_msg_cs (set_bcc x (msg_cs r)) r) conn)
  | RX_CS2 =>
      accept_msg
        (upd_rx (fun r => set_msg_cs
                   (set_crc (u16 (crc (msg_cs r) + Z.shiftl x 8)) (msg_cs r)) r) conn)
  | RX_IDLE | RX_PEND => rx_msg_loop n conn
  end.
Proof.
  intros Hwf Hp. cbn [rx_msg_loop].
  destruct (buf_get_byte_spec _ 0 x l Hwf Hp) as (E & _ & _). rewrite E.
  reflexivity.
Qed.

(** After the payload: [DLE ETX] and the checksum lead to [accept_msg]. *)
Lemma rx_msg_loop_trailer n conn cs rest :
  rx_state (rx conn) = RX_APP -> prev_dle (rx conn) = false ->
  buf_wf (tty_in conn) ->
  buf_pending (tty_in conn) = [SYM_DLE; SYM_ETX] ++ cs ++ rest ->
  length cs = (if use_crc conn then 2 else 1)%nat ->
  (2 + length cs <= n)%nat ->
  rx_msg_loop n conn =
  accept_msg (set_tty_in (buf_skip (2 + length cs) (tty_in conn)) (rx_at_accept conn cs)).
Proof.
  intros Hs Hd Hwf Hp Hcs Hn. rewrite Hcs in *.
  destruct n as [|[|n]]; try lia. cbn [app] in Hp.
  destruct (buf_get_byte_spec _ 0 _ _ Hwf Hp) as (_ & Hwf1 & Hp1).
  destruct (buf_get_byte_spec _ 0 _ _ Hwf1 Hp1) as (_ & Hwf2 & Hp2).
  rewrite (rx_msg_loop_app _ _ _ _ Hwf Hp Hs).
  rewrite add_to_app_dle1 by exact Hd. cbn [bind].
  set (c1 := upd_rx (set_prev_dle true) (set_tty_in (buf_skip 1 (tty_in conn)) conn)).
  assert (Ht1 : tty_in c1 = buf_skip 1 (tty_in conn)) by now destruct_conn conn.
  rewrite (rx_msg_loop_app n c1 SYM_ETX (cs ++ rest));
    [| rewrite Ht1; assumption | rewrite Ht1; assumption | now destruct_conn conn].
  rewrite Ht1. unfold add_to_app.
  replace (prev_dle (rx (set_tty_in (buf_skip 1 (buf_skip 1 (tty_in conn))) c1)))
    with true by now destruct_conn conn.
  cbn [Z.eqb SYM_ETX Pos.eqb bind].
  set (c2 := upd_rx (set_rx_state RX_CS1) _).
  assert (Ht2 : tty_in c2 = buf_skip 2 (tty_in conn)).
  { unfold c2, c1. destruct_conn conn. destruct uc; reflexivity. }
  assert (Hu2 : use_crc c2 = use_crc conn).
  { unfold c2, c1. destruct_conn conn. destruct uc; reflexivity. }
  assert (Hs2 : rx_state (rx c2) = RX_CS1).
  { unfold c2, c1. destruct_conn conn. destruct uc; reflexivity. }
  change (buf_skip 1 (buf_skip 1 (tty_in conn))) with (buf_skip 2 (tty_in conn)) in Hwf2, Hp2.
  destruct (use_crc conn) eqn:Huc.
  - destruct cs as [|x0 [|x1 [|? ?]]]; try discriminate. cbn [app] in Hp2.
    destruct n as [|[|n]]; try lia.
    destruct (buf_get_byte_spec _ 0 _ _ Hwf2 Hp2) as (_ & Hwf3 & Hp3).
    rewrite (rx_msg_loop_step _ c2 x0 (x1 :: rest)) by (rewrite Ht2; assumption).
    cbv zeta.
    replace (rx_state (rx (set_tty_in (buf_skip 1 (tty_in c2)) c2))) with RX_CS1
      by (symmetry; exact Hs2).
    replace (use_crc (set_tty_in (buf_skip 1 (tty_in c2)) c2)) with true
      by (symmetry; exact Hu2).
    rewrite Ht2.
    set (c3 := upd_rx (set_rx_state RX_CS2) _).
    assert (Ht3 : tty_in c3 = buf_skip 3 (tty_in conn)) by reflexivity.
    rewrite (rx_msg_loop_step _ c3 x1 rest) by (rewrite Ht3; assumption).
    cbv zeta. rewrite Ht3.
    replace (rx_state (rx (set_tty_in (buf_skip 1 (buf_skip 3 (tty_in conn))) c3)))
      with RX_CS2 by reflexivity.
    apply (f_equal accept_msg). unfold c3, c2, c1, rx_at_accept.
    destruct_conn conn. rsimpl_in Huc. subst uc. unfold cs_add. rnorm. reflexivity.
  - destruct cs as [|x0 [|? ?]]; try discriminate. cbn [app] in Hp2.
    destruct n as [|n]; try lia.
    rewrite (rx_msg_loop_step _ c2 x0 rest) by (rewrite Ht2; assumption).
    cbv zeta.
    replace (rx_state (rx (set_tty_in (buf_skip 1 (tty_in c2)) c2))) with RX_CS1
      by (symmetry; exact Hs2).
    replace (use_crc (set_tty_in (buf_skip 1 (tty_in c2)) c2)) with false
      by (symmetry; exact Hu2).
    rewrite Ht2.
    apply (f_equal accept_msg). unfold c2, c1, rx_at_accept.
    destruct_conn conn. rsimpl_in Huc. subst uc. rnorm. reflexivity.
Qed.

(** ** Acceptance *)

Lemma find_addr_from_lookup l : forall i a c,
  find_addr_from l i a = Some c ->
  exists cl, l !! (c - i)%nat = Some cl /\ (i <= c)%nat /\
             addr cl = a /\ client_state_rank CLIENT_IDLE <= client_state_rank (client_state cl).
Proof.
  induction l as [|cl l IH]; intros i a c H; simpl in H; [discriminate|].
  destruct (_ && _) eqn:E.
  - inversion H; subst. exists cl. rewrite Nat.sub_diag.
    apply andb_true_iff in E. destruct E as [E1 E2].
    apply Z.leb_le in E1. apply Z.eqb_eq in E2.
    split; [reflexivity|]. split; [lia|]. split; assumption.
  - destruct (IH _ _ _ H) as (cl' & Hl & Hi & Ha & Hr). exists cl'.
    replace (c - i)%nat with (S (c - S i)) by lia.
    split; [exact Hl|]. split; [lia|]. split; assumption.
Qed.

Lemma find_addr_lookup conn a c :
  find_addr conn a = Some c ->
  exists cl, clients conn !! c = Some cl /\ addr cl = a /\
             client_state_rank CLIENT_IDLE <= client_state_rank (client_state cl).
Proof.
  intros H. destruct (find_addr_from_lookup _ _ _ _ H) as (cl & Hl & _ & Ha & Hr).
  rewrite Nat.sub_0_r in Hl. eauto.
Qed.

Lemma rx_ack_frame conn :
  rx_app (rx (rx_ack conn)) = rx_app (rx conn) /\
  rx_state (rx (rx_ack conn)) = RX_IDLE /\
  rx_client (rx (rx_ack conn)) = None /\
  tty_in (rx_ack conn) = tty_in conn /\
  read_sym (rx_ack conn) = read_sym conn /\
  clients (rx_ack conn) = clients conn.
Proof. destruct_conn conn. repeat split. Qed.

Lemma rx_nak_frame conn :
  rx_app (rx (rx_nak conn)) = rx_app (rx conn) /\
  rx_state (rx (rx_nak conn)) = RX_IDLE /\
  rx_client (rx (rx_nak conn)) = None /\
  tty_in (rx_nak conn) = tty_in conn /\
  read_sym (rx_nak conn) = read_sym conn /\
  clients (rx_nak conn) = clients conn.
Proof. destruct_conn conn. repeat split. Qed.

Lemma msg_dup_spec conn :
  msg_dup conn =
  if dup_detect (rx conn)
  then
    if dup_eqb (dup_bytes (rx_app (rx conn))) (rx_dup (rx conn))
    then (upd_rx (set_rx_dup (dup_bytes (rx_app (rx conn)))) (incr_dups conn), true)
    else (upd_rx (set_rx_dup (dup_bytes (rx_app (rx conn)))) conn, false)
  else (conn, false).
Proof.
  unfold msg_dup. destruct (dup_detect (rx conn)); [|reflexivity]. cbn [negb].
  destruct (dup_eqb _ _); reflexivity.
Qed.

(** [accept_msg] gives a result whenever the read cursor of the application
    buffer stands at its start; the bytes of the buffer stay, and the
    receiver is left idle or pending. *)
Lemma accept_msg_ok conn :
  buf_index (rx_app (rx conn)) = 0%nat ->
  exists conn',
    accept_msg conn = Ok conn' /\
    buf_contents (rx_app (rx conn')) = buf_contents (rx_app (rx conn)) /\
    rx_active (rx conn') = false /\
    tty_in conn' = tty_in conn /\ read_sym conn' = read_sym conn.
Proof.
  intros Hidx. unfold accept_msg.
  destruct (Nat.ltb_spec (buf_len (rx_app (rx conn))) 6).
  { eexists. split; [reflexivity|]. now destruct_conn conn. }
  destruct (cs_ok conn).
  2:{ eexists. split; [reflexivity|]. now destruct_conn conn. }
  destruct (msg_dup conn) as [c1 dup] eqn:Ed.
  assert (Hc1 : rx_app (rx c1) = rx_app (rx conn) /\ tty_in c1 = tty_in conn /\
                read_sym c1 = read_sym conn).
  { rewrite msg_dup_spec in Ed. destruct (dup_detect (rx conn)).
    - destruct (dup_eqb _ _); inversion Ed; subst; now destruct_conn conn.
    - inversion Ed; subst. auto. }
  destruct Hc1 as (Ha & Ht & Hr).
  destruct dup.
  { eexists. split; [reflexivity|]. destruct (rx_ack_frame c1) as (-> & F2 & _ & -> & -> & _).
    unfold rx_active. rewrite F2, Ha. auto. }
  unfold client_msg_rx.
  set (c2 := upd_rx (set_rx_state RX_PEND) (incr_msg_rx c1)).
  assert (Ha2 : rx_app (rx c2) = rx_app (rx conn)) by (rewrite <- Ha; now destruct_conn c1).
  rewrite Ha2. unfold buf_get_byte.
  destruct (Nat.eqb_spec (buf_len (rx_app (rx conn))) (buf_index (rx_app (rx conn)))); [lia|].
  cbn [negb Z.eqb].
  set (c3 := upd_rx (set_rx_app _) c2).
  destruct (find_addr c3 _) as [c|] eqn:Ef.
  - destruct (find_addr_lookup _ _ _ Ef) as (cl & Hl & _ & _). rewrite Hl.
    eexists. split; [reflexivity|].
    unfold c3, c2. destruct (_ <? _)%nat.
    + clear Ef Hl. destruct_conn c1. simpl in *. subst. repeat split.
    + clear Ef Hl. destruct_conn c1. simpl in *. subst. repeat split.
  - eexists. split; [reflexivity|].
    unfold c3, c2. clear Ef. destruct_conn c1. simpl in *. subst. repeat split.
Qed.

Lemma rx_msg_idle conn :
  rx_state (rx conn) = RX_IDLE ->
  rx_msg conn =
  rx_msg_loop (buf_len (tty_in conn) - buf_index (tty_in conn)) (rx_start conn).
Proof.
  intros H. unfold rx_msg. rewrite H. fold (rx_start conn).
  replace (tty_in (rx_start conn)) with (tty_in conn); [reflexivity|].
  destruct_conn conn. destruct uc; reflexivity.
Qed.

Lemma rx_start_frame conn :
  rx_state (rx (rx_start conn)) = RX_APP /\
  prev_dle (rx (rx_start conn)) = false /\
  overflow (rx (rx_start conn)) = false /\
  tty_in (rx_start conn) = tty_in conn /\
  use_crc (rx_start conn) = use_crc conn /\
  rx_app (rx (rx_start conn)) = buf_empty (rx_app (rx conn)).
Proof. destruct_conn conn. destruct uc; repeat split. Qed.

Lemma rx_at_accept_set_tty_in t conn cs :
  rx_at_accept (set_tty_in t conn) cs = set_tty_in t (rx_at_accept conn cs).
Proof.
  destruct_conn conn. unfold rx_at_accept, cs_add. destruct uc; rnorm; reflexivity.
Qed.

(** The state in which the frame of the payload [B] is accepted. *)
Lemma rx_msg_frame conn B cs :
  rx_state (rx conn) = RX_IDLE ->
  buf_wf (tty_in conn) ->
  buf_pending (tty_in conn) = dle_stuff B ++ [SYM_DLE; SYM_ETX] ++ cs ->
  length cs = (if use_crc conn then 2 else 1)%nat ->
  Forall is_byte B ->
  buf_wf (rx_app (rx conn)) -> (length B <= buf_max (rx_app (rx conn)))%nat ->
  exists app',
    rx_msg conn =
      accept_msg
        (set_tty_in (buf_skip (buf_len (tty_in conn) - buf_index (tty_in conn)) (tty_in conn))
           (rx_at_accept
              (upd_rx (fun r => set_acc_cs (cs_fold (use_crc conn) B (acc_cs r))
                                           (set_rx_app app' r))
                      (rx_start conn)) cs)) /\
    buf_wf app' /\ buf_contents app' = B /\ buf_index app' = 0%nat /\
    buf_len app' = length B /\ buf_max app' = buf_max (rx_app (rx conn)).
Proof.
  intros Hs Hwf Hp Hcs HB Hawf Hroom.
  destruct (rx_start_frame conn) as (S1 & S2 & S3 & S4 & S5 & S6).
  pose proof (pending_length _ Hwf) as Hlen. rewrite Hp, !length_app in Hlen.
  cbn [length] in Hlen.
  rewrite rx_msg_idle by assumption.
  rewrite (rx_msg_loop_payload B _ _ ([SYM_DLE; SYM_ETX] ++ cs));
    [| assumption | assumption | rewrite S4; assumption | rewrite S4; assumption | lia].
  destruct (fold_app_store_spec B (rx_start conn)) as (app' & E & W & C & I & M & L);
    [assumption | assumption | rewrite S6; now apply buf_empty_wf | assumption
     | rewrite S6; unfold buf_empty; rsimpl; lia |].
  rewrite S6 in C, I, M, L. unfold buf_empty, buf_contents in C, I, M, L.
  rsimpl_in C. rsimpl_in I. rsimpl_in M. rsimpl_in L. rewrite take_0 in C.
  cbn [app Nat.add] in C, L. fold (buf_contents app') in C. rewrite S5 in E.
  exists app'.
  split; [|split; [exact W|split; [exact C|split; [exact I|split; [exact L|exact M]]]]].
  rewrite E, S4.
  set (c1 := set_tty_in _ (upd_rx _ (rx_start conn))).
  assert (Ht1 : tty_in c1 = buf_skip (length (dle_stuff B)) (tty_in conn)) by reflexivity.
  assert (Hwf1 : buf_wf (tty_in c1)).
  { rewrite Ht1. destruct Hwf as (? & ? & ?). unfold buf_wf, buf_skip. rsimpl. lia. }
  assert (Hp1 : buf_pending (tty_in c1) = [SYM_DLE; SYM_ETX] ++ cs ++ []).
  { rewrite Ht1, app_nil_r. unfold buf_pending, buf_contents, buf_skip in *. rsimpl.
    replace (length (dle_stuff B) + buf_index (tty_in conn))%nat
      with (buf_index (tty_in conn) + length (dle_stuff B))%nat by lia.
    rewrite <- drop_drop, Hp. now rewrite drop_app_length. }
  assert (Hu1 : use_crc c1 = use_crc conn) by (unfold c1; rsimpl; exact S5).
  rewrite (rx_msg_loop_trailer _ c1 cs []);
    [| unfold c1; rsimpl; exact S1
     | unfold c1; rsimpl; exact S2
     | assumption | assumption | rewrite Hu1; assumption | lia ].
  apply (f_equal accept_msg). rewrite Ht1, buf_skip_skip.
  replace (buf_len (tty_in conn) - buf_index (tty_in conn))%nat
    with (2 + length cs + length (dle_stuff B))%nat by lia.
  unfold c1. rewrite rx_at_accept_set_tty_in, set_tty_in_twice. reflexivity.
Qed.

Lemma parse_tty_loop_end n conn :
  rx_active (rx conn) = false -> buf_index (tty_in conn) = buf_len (tty_in conn) ->
  parse_tty_loop n conn = Ok conn.
Proof.
  intros Ha He. destruct n; simpl; rewrite Ha; cbn [bind];
    rewrite buf_get_byte_end by assumption; reflexivity.
Qed.

(** [DLE STX] in front of an idle receiver starts [rx_msg]. *)
Lemma parse_tty_loop_stx n conn l :
  rx_state (rx conn) = RX_IDLE -> read_sym conn = false ->
  buf_wf (tty_in conn) -> buf_pending (tty_in conn) = SYM_DLE :: SYM_STX :: l ->
  parse_tty_loop (S (S n)) conn =
  let* conn' := rx_msg (set_tty_in (buf_skip 2 (tty_in conn)) conn) in
  parse_tty_loop n conn'.
Proof.
  intros Hs Hr Hwf Hp.
  destruct (buf_get_byte_spec _ 0 _ _ Hwf Hp) as (E1 & Hwf1 & Hp1).
  destruct (buf_get_byte_spec _ 0 _ _ Hwf1 Hp1) as (E2 & _ & _).
  cbn [parse_tty_loop]. unfold rx_active at 1. rewrite Hs. cbn [bind].
  rewrite E1. cbn [negb Z.eqb]. cbv zeta.
  replace (read_sym (set_tty_in (buf_skip 1 (tty_in conn)) conn)) with false
    by (symmetry; exact Hr).
  cbn [Z.eqb SYM_DLE Pos.eqb].
  replace (rx_active (rx (set_read_sym true (set_tty_in (buf_skip 1 (tty_in conn)) conn))))
    with false by (unfold rx_active; cbn; now rewrite Hs).
  cbn [bind].
  change (tty_in (set_read_sym true (set_tty_in (buf_skip 1 (tty_in conn)) conn)))
    with (buf_skip 1 (tty_in conn)).
  rewrite E2. cbn [negb Z.eqb read_sym set_read_sym set_tty_in SYM_STX Pos.eqb].
  f_equal. f_equal. destruct_conn conn. simpl in Hr. subst. reflexivity.
Qed.

(** ** Submitting a message *)

(** [tx_msg] when the frame fits the message buffer and the TTY buffer. *)
Lemma tx_msg_fits conn c cl B :
  clients conn !! c = Some cl ->
  buf_wf (df1_tx cl) -> buf_pending (df1_tx cl) = B -> Forall is_byte B ->
  buf_wf (tx_buf (tx conn)) -> buf_len (tx_buf (tx conn)) = 0%nat ->
  (length (df1_frame (use_crc conn) B) <= buf_max (tx_buf (tx conn)))%nat ->
  buf_wf (tty_out conn) ->
  (buf_len (tty_out conn) + length (df1_frame (use_crc conn) B)
   <= buf_max (tty_out conn))%nat ->
  exists msg' out',
    tx_msg conn c =
      Ok (incr_tx_attempts
            (set_tty_out out'
               (upd_tx (set_tx_state TX_PEND_MSG_TX)
                  (upd_tx (set_tx_client (Some c))
                     (upd_tx (set_tx_buf msg')
                        (upd_client c (set_df1_tx (buf_skip (length B) (df1_tx cl)))
                                    conn)))))) /\
    buf_contents msg' = df1_frame (use_crc conn) B /\
    buf_wf msg' /\ buf_max msg' = buf_max (tx_buf (tx conn)) /\
    buf_wf out' /\ buf_max out' = buf_max (tty_out conn) /\
    buf_index out' = buf_index (tty_out conn) /\
    buf_contents out' = buf_contents (tty_out conn) ++ df1_frame (use_crc conn) B.
Proof.
  intros Hl Hwf Hp HB Hm Hm0 Hfit Ho Hofit.
  destruct (tx_msg_frame_fits (use_crc conn) _ _ B Hwf Hp HB Hm)
    as (msg' & E & W & C & M & I & L); [lia|].
  assert (Hc0 : buf_contents (tx_buf (tx conn)) = []).
  { unfold buf_contents. rewrite Hm0. apply take_0. }
  rewrite Hc0 in C. cbn [app] in C. rewrite Hm0 in L. cbn [Nat.add] in L.
  destruct (buf_append_buf_spec (tty_out conn) msg' Ho W) as (out' & Eo & Wo & Co & Io & Mo);
    [lia|].
  exists msg', out'.
  split; [|repeat (split; [first [assumption | congruence]|]); congruence].
  unfold tx_msg, tx_msg_with. rewrite Hl, E. cbn [bind].
  unfold send_msg_with. rsimpl. rewrite Eo. reflexivity.
Qed.

Lemma rx_at_accept_frame conn cs :
  rx_app (rx (rx_at_accept conn cs)) = rx_app (rx conn) /\
  tty_in (rx_at_accept conn cs) = tty_in conn /\
  read_sym (rx_at_accept conn cs) = read_sym conn /\
  clients (rx_at_accept conn cs) = clients conn /\
  dcnts (rx_at_accept conn cs) = dcnts conn /\
  use_crc (rx_at_accept conn cs) = use_crc conn /\
  rx_dup (rx (rx_at_accept conn cs)) = rx_dup (rx conn) /\
  dup_detect (rx (rx_at_accept conn cs)) = dup_detect (rx conn).
Proof.
  destruct_conn conn. unfold rx_at_accept, cs_add.
  destruct uc; rnorm; repeat split.
Qed.

(** A whole frame, read from the TTY by an idle receiver, ends in
    [accept_msg] with the payload in the application buffer. *)
Lemma tty_input_frame conn B :
  rx_idle_wf conn -> Forall is_byte B ->
  (length (df1_frame (use_crc conn) B) <= TTY_BUF_SIZE)%nat ->
  exists app' tin',
    tty_input conn (df1_frame (use_crc conn) B) =
      (let* conn' :=
         accept_msg
           (set_tty_in tin'
              (rx_at_accept
                 (upd_rx (fun r => set_acc_cs (cs_fold (use_crc conn) B (acc_cs r))
                                              (set_rx_app app' r))
                         (rx_start conn))
                 (frame_checksum (use_crc conn) B))) in
       Ok conn') /\
    buf_wf app' /\ buf_contents app' = B /\ buf_index app' = 0%nat /\
    buf_len app' = length B /\ buf_max app' = buf_max (rx_app (rx conn)) /\
    buf_index tin' = buf_len tin'.
Proof.
  intros (Hs & Hr & Hd & Hm & Ha & Ham) HB Hfit.
  pose proof (df1_frame_length (use_crc conn) B) as Hfl.
  pose proof (dle_stuff_length B) as Hsl.
  destruct (buf_read_spec (tty_in conn) (df1_frame (use_crc conn) B) Hd)
    as (W & P & L & M); [lia|].
  unfold tty_input, parse_tty_data, tty_read. rsimpl.
  set (tin := buf_read (tty_in conn) (df1_frame (use_crc conn) B)) in *.
  assert (Hi0 : buf_index tin = 0%nat) by reflexivity.
  rewrite L, Hi0, Nat.sub_0_r, Hfl.
  change (4 + length (dle_stuff B) + (if use_crc conn then 2 else 1))%nat
    with (S (S (2 + length (dle_stuff B) + (if use_crc conn then 2 else 1)))).
  rewrite (parse_tty_loop_stx _ (set_tty_in tin conn)
             (dle_stuff B ++ [SYM_DLE; SYM_ETX] ++ frame_checksum (use_crc conn) B));
    [| exact Hs | exact Hr | exact W | exact P].
  rsimpl. rewrite set_tty_in_twice.
  destruct (buf_get_byte_spec tin 0 _ _ W P) as (_ & W1 & P1).
  destruct (buf_get_byte_spec _ 0 _ _ W1 P1) as (_ & W2 & P2).
  rewrite buf_skip_skip in W2, P2. cbn [Nat.add] in W2, P2.
  destruct (rx_msg_frame (set_tty_in (buf_skip 2 tin) conn) B
              (frame_checksum (use_crc conn) B))
    as (app' & E & Wa & Ca & Ia & La & Ma);
    [exact Hs | exact W2 | exact P2 | apply frame_checksum_length | exact HB
     | exact Ha | rsimpl; rewrite Ham; unfold RX_BUF_SIZE;
       unfold TTY_BUF_SIZE in Hfit; lia |].
  rsimpl_in E. rsimpl_in Ma. rewrite E.
  set (tin' := buf_skip _ (buf_skip 2 tin)).
  assert (Hend : buf_index tin' = buf_len tin').
  { unfold tin', buf_skip. rsimpl. rewrite L, Hi0, Hfl. lia. }
  replace (rx_start (set_tty_in (buf_skip 2 tin) conn))
    with (set_tty_in (buf_skip 2 tin) (rx_start conn))
    by (destruct_conn conn; unfold rx_start, cs_clear; destruct uc; rnorm; reflexivity).
  change (upd_rx ?f (set_tty_in ?t ?c)) with (set_tty_in t (upd_rx f c)).
  rewrite rx_at_accept_set_tty_in, set_tty_in_twice.
  exists app', tin'.
  split; [|repeat (split; [assumption|]); assumption].
  set (final := set_tty_in tin' _).
  destruct (accept_msg_ok final) as (conn' & Ea & _ & Hact & Ht & _).
  { unfold final. rsimpl.
    destruct (rx_at_accept_frame
                (upd_rx (fun r => set_acc_cs (cs_fold (use_crc conn) B (acc_cs r))
                                             (set_rx_app app' r)) (rx_start conn))
                (frame_checksum (use_crc conn) B)) as (-> & _).
    rsimpl. exact Ia. }
  rewrite Ea. cbn [bind]. apply parse_tty_loop_end; [exact Hact|].
  rewrite Ht. unfold final. rsimpl. exact Hend.
Qed.

(** ** The frame round trip *)

(** C1.  For every payload [B] of 1 to 236 bytes, in CRC mode and in BCC
    mode alike: [tx_msg] of an idle transmitter puts the frame
    [DLE STX], the DLE-stuffed payload, [DLE ETX], checksum on the TTY
    output, and an idle receiver that reads these bytes from its TTY
    ([tty_read], [parse_tty_data], [rx_msg], [add_to_app]) ends with exactly
    [B] in its application buffer. *)
Theorem df1_frame_roundtrip (B : list Z) (connT connR : CONN) (c : nat) (cl : CLIENT) :
  (0 < length B <= 236)%nat -> Forall is_byte B ->
  clients connT !! c = Some cl ->
  buf_wf (df1_tx cl) -> buf_pending (df1_tx cl) = B ->
  tx_idle_wf connT -> rx_idle_wf connR -> use_crc connR = use_crc connT ->
  exists connT' connR',
    tx_msg connT c = Ok connT' /\
    buf_contents (tty_out connT') = df1_frame (use_crc connT) B /\
    tty_input connR (buf_contents (tty_out connT')) = Ok connR' /\
    buf_contents (rx_app (rx connR')) = B.
Proof.
  intros HlB HB Hl Hwf Hp (Tm & Tm0 & TmM & To & To0 & ToM) HR Hu.
  pose proof (df1_frame_length (use_crc connT) B) as Hfl.
  pose proof (dle_stuff_length B) as Hsl.
  assert (Hfit : (length (df1_frame (use_crc connT) B) <= 512)%nat)
    by (rewrite Hfl; destruct (use_crc connT); lia).
  destruct (tx_msg_fits connT c cl B Hl Hwf Hp HB Tm Tm0)
    as (msg' & out' & E & Cm & Wm & Mm & Wo & Mo & Io & Co);
    [rewrite TmM; exact Hfit | exact To | rewrite To0, ToM; exact Hfit |].
  assert (Hc0 : buf_contents (tty_out connT) = []).
  { unfold buf_contents. rewrite To0. apply take_0. }
  rewrite Hc0 in Co. cbn [app] in Co.
  destruct (tty_input_frame connR B HR HB)
    as (app' & tin' & Ei & Wa & Ca & Ia & La & Ma & Hend);
    [rewrite Hu; exact Hfit|].
  set (final := set_tty_in tin' _) in Ei.
  destruct (accept_msg_ok final) as (connR' & Ea & Hc & _).
  { unfold final. rsimpl.
    destruct (rx_at_accept_frame
                (upd_rx (fun r => set_acc_cs (cs_fold (use_crc connR) B (acc_cs r))
                                             (set_rx_app app' r)) (rx_start connR))
                (frame_checksum (use_crc connR) B)) as (-> & _).
    rsimpl. exact Ia. }
  eexists. exists connR'. split; [exact E|]. rsimpl.
  split; [exact Co|]. rewrite Co, <- Hu, Ei, Ea. cbn [bind].
  split; [reflexivity|]. rewrite Hc. unfold final. rsimpl.
  destruct (rx_at_accept_frame
              (upd_rx (fun r => set_acc_cs (cs_fold (use_crc connR) B (acc_cs r))
                                           (set_rx_app app' r)) (rx_start connR))
              (frame_checksum (use_crc connR) B)) as (-> & _).
  rsimpl. exact Ca.
Qed.

(** ** Checksums *)

Lemma tx_crc_spec B :
  Forall is_byte B ->
  tx_crc B = crc16_spec (B ++ [SYM_ETX]) /\ 0 <= tx_crc B < 65536.
Proof.
  intros HB. unfold tx_crc, crc16_spec.
  destruct (fold_CRC_ADD_spec B 0 ltac:(lia) HB) as [E R].
  rewrite fold_left_app. cbn [fold_left]. rewrite <- E.
  split; [apply CRC_ADD_spec | apply CRC_ADD_range]; unfold SYM_ETX; lia.
Qed.

Lemma word_of_bytes w :
  0 <= w < 65536 -> w mod 256 + Z.shiftl ((w / 256) mod 256) 8 = w.
Proof.
  intros H. rewrite Z.shiftl_mul_pow2 by lia. change (2 ^ 8) with 256.
  rewrite (Z.mod_small (w / 256)).
  - pose proof (Z.div_mod w 256 ltac:(lia)). lia.
  - split; [apply Z.div_pos; lia | apply Z.div_lt_upper_bound; lia].
Qed.

Lemma buf_append_byte_u8 b x : buf_append_byte b (u8 x) = buf_append_byte b x.
Proof.
  unfold buf_append_byte. destruct (_ =? _)%nat; [reflexivity|].
  unfold u8. now rewrite Zmod_mod.
Qed.

(** On a little-endian host the checksum bytes of the frame are those of
    the specification. *)
Lemma frame_checksum_spec uc B :
  BYTE_ORDER = LITTLE_ENDIAN -> Forall is_byte B ->
  frame_checksum uc B =
  if uc
  then [crc16_spec (B ++ [SYM_ETX]) mod 256; crc16_spec (B ++ [SYM_ETX]) / 256]
  else [bcc_spec B].
Proof.
  intros Hbo HB. unfold frame_checksum, htols. rewrite Hbo.
  destruct (tx_crc_spec B HB) as [E R]. destruct uc.
  - cbn [mem16]. rewrite u16_small by lia. rewrite E in *.
    rewrite (Z.mod_small (_ / 256)); [reflexivity|].
    split; [apply Z.div_pos; lia | apply Z.div_lt_upper_bound; lia].
  - now rewrite tx_bcc_spec.
Qed.

(** The checksum that the receiver has accumulated when the frame of [B]
    is complete, and the one it has read off the wire. *)
Lemma rx_at_accept_checksums conn B app' tin' :
  let final :=
    set_tty_in tin'
      (rx_at_accept
         (upd_rx (fun r => set_acc_cs (cs_fold (use_crc conn) B (acc_cs r))
                                      (set_rx_app app' r))
                 (rx_start conn))
         (frame_checksum (use_crc conn) B)) in
  if use_crc conn
  then crc (acc_cs (rx final)) = tx_crc B /\
       crc (msg_cs (rx final)) =
         u16 (nth 0 (frame_checksum true B) 0 +
              Z.shiftl (nth 1 (frame_checksum true B) 0) 8)
  else bcc (acc_cs (rx final)) = fold_left (fun bcc b => u8 (bcc + b)) B 0 /\
       bcc (msg_cs (rx final)) = tx_bcc B.
Proof.
  destruct_conn conn. cbv zeta.
  unfold rx_at_accept, rx_start, cs_clear, cs_add, cs_fold, tx_crc.
  destruct uc.
  - set (fc := frame_checksum true B). set (f := fold_left CRC_ADD B).
    set (g := CRC_ADD). rnorm. split; reflexivity.
  - set (fc := frame_checksum false B). set (f := fold_left _ B).
    set (t := tx_bcc B). rnorm. split; reflexivity.
Qed.

Lemma cs_ok_at_accept conn B app' tin' :
  BYTE_ORDER = LITTLE_ENDIAN -> Forall is_byte B ->
  cs_ok (set_tty_in tin'
           (rx_at_accept
              (upd_rx (fun r => set_acc_cs (cs_fold (use_crc conn) B (acc_cs r))
                                           (set_rx_app app' r))
                      (rx_start conn))
              (frame_checksum (use_crc conn) B))) = true.
Proof.
  intros Hbo HB. pose proof (rx_at_accept_checksums conn B app' tin') as H.
  cbv zeta in H.
  set (final := set_tty_in tin' _) in *.
  assert (Hu : use_crc final = use_crc conn).
  { unfold final. change (use_crc (set_tty_in tin' ?X)) with (use_crc X).
    destruct (rx_at_accept_frame
                (upd_rx (fun r => set_acc_cs (cs_fold (use_crc conn) B (acc_cs r))
                                             (set_rx_app app' r)) (rx_start conn))
                (frame_checksum (use_crc conn) B)) as (_ & _ & _ & _ & _ & -> & _).
    change (use_crc (upd_rx ?f ?X)) with (use_crc X).
    now destruct (rx_start_frame conn) as (_ & _ & _ & _ & -> & _). }
  unfold cs_ok. rewrite Hu. clearbody final.
  destruct (use_crc conn); destruct H as [-> ->].
  - destruct (tx_crc_spec B HB) as [E R].
    rewrite (frame_checksum_spec true B Hbo HB). cbn [nth]. rewrite <- E.
    rewrite <- (Z.mod_small (tx_crc B / 256) 256)
      by (split; [apply Z.div_pos; lia | apply Z.div_lt_upper_bound; lia]).
    rewrite word_of_bytes, u16_small by lia. apply Z.eqb_refl.
  - unfold tx_bcc. apply Z.eqb_refl.
Qed.

(** On a little-endian host, for every payload [B] whose frame fits
    the 512-byte buffers: the checksum that [tx_msg] appends behind
    [DLE ETX] is, in CRC mode, the CRC-16 (polynomial 0xA001, initial value
    0, reflected) of [B] followed by ETX, low byte first; in BCC mode the one
    byte [(- sum B) mod 256], ETX not included.  A receiver that reads the
    frame reaches [accept_msg] with this very value both accumulated
    ([cs_add]) and received, so that [cs_ok] holds. *)
Theorem tx_checksum_correct (B : list Z) (connT connR : CONN) (c : nat) (cl : CLIENT) :
  BYTE_ORDER = LITTLE_ENDIAN ->
  Forall is_byte B ->
  clients connT !! c = Some cl ->
  buf_wf (df1_tx cl) -> buf_pending (df1_tx cl) = B ->
  tx_idle_wf connT -> rx_idle_wf connR -> use_crc connR = use_crc connT ->
  (length (df1_frame (use_crc connT) B) <= 512)%nat ->
  let cs :=
    if use_crc connT
    then [crc16_spec (B ++ [SYM_ETX]) mod 256; crc16_spec (B ++ [SYM_ETX]) / 256]
    else [bcc_spec B] in
  let wire := [SYM_DLE; SYM_STX] ++ dle_stuff B ++ [SYM_DLE; SYM_ETX] ++ cs in
  (exists connT',
      tx_msg connT c = Ok connT' /\
      buf_contents (tx_buf (tx connT')) = wire /\
      buf_contents (tty_out connT') = wire) /\
  (exists final,
      tty_input connR wire = (let* conn' := accept_msg final in Ok conn') /\
      cs_ok final = true /\
      if use_crc connT
      then crc (acc_cs (rx final)) = crc16_spec (B ++ [SYM_ETX]) /\
           crc (msg_cs (rx final)) = crc16_spec (B ++ [SYM_ETX])
      else u8 (Z.lnot (bcc (acc_cs (rx final))) + 1) = bcc_spec B /\
           bcc (msg_cs (rx final)) = bcc_spec B).
Proof.
  intros Hbo HB Hl Hwf Hp (Tm & Tm0 & TmM & To & To0 & ToM) HR Hu Hfit.
  cbv zeta.
  rewrite <- (frame_checksum_spec (use_crc connT) B Hbo HB).
  fold (df1_frame (use_crc connT) B).
  split.
  - destruct (tx_msg_fits connT c cl B Hl Hwf Hp HB Tm Tm0)
      as (msg' & out' & E & Cm & Wm & Mm & Wo & Mo & Io & Co);
      [rewrite TmM; exact Hfit | exact To | rewrite To0, ToM; exact Hfit |].
    eexists. split; [exact E|]. rsimpl. split; [exact Cm|].
    rewrite Co. unfold buf_contents at 1. rewrite To0. now rewrite take_0.
  - destruct (tty_input_frame connR B HR HB)
      as (app' & tin' & Ei & Wa & Ca & Ia & La & Ma & Hend);
      [rewrite Hu; exact Hfit|].
    rewrite Hu in Ei. eexists. split; [exact Ei|].
    rewrite <- Hu. split; [now apply cs_ok_at_accept|].
    pose proof (rx_at_accept_checksums connR B app' tin') as H. cbv zeta in H.
    destruct (tx_crc_spec B HB) as [E R].
    destruct (use_crc connR); destruct H as [H1 H2]; rewrite H1, H2.
    + rewrite (frame_checksum_spec true B Hbo HB). cbn [nth]. rewrite <- E.
      rewrite <- (Z.mod_small (tx_crc B / 256) 256)
        by (split; [apply Z.div_pos; lia | apply Z.div_lt_upper_bound; lia]).
      rewrite word_of_bytes, u16_small by lia. split; reflexivity.
    + split; [|apply tx_bcc_spec]. rewrite <- tx_bcc_spec. reflexivity.
Qed.

(** ** Acceptance of a completed frame *)


Lemma set_rx_dup_same conn :
  upd_rx (set_rx_dup (rx_dup (rx conn))) conn = conn.
Proof. destruct_conn conn. reflexivity. Qed.

Lemma find_addr_upd_rx f conn a : find_addr (upd_rx f conn) a = find_addr conn a.
Proof. reflexivity. Qed.

Lemma find_addr_dcnts d conn a : find_addr (set_dcnts d conn) a = find_addr conn a.
Proof. reflexivity. Qed.


(** ** The client back-pointer of the receiver *)

(** [rx_ack] and [rx_nak] leave the receiver idle with no client. *)
Lemma rx_ack_nak_clear conn :
  (rx_state (rx (rx_ack conn)) = RX_IDLE /\ rx_client (rx (rx_ack conn)) = None) /\
  (rx_state (rx (rx_nak conn)) = RX_IDLE /\ rx_client (rx (rx_nak conn)) = None).
Proof. destruct_conn conn. repeat split. Qed.

(** When the socket buffer of the client found cannot take the message,
    [client_msg_rx] sends the NAK, which leaves the receiver idle, and still
    records the client: the receiver ends idle with a client set. *)
Lemma client_msg_rx_sink_full conn c cl :
  (buf_index (rx_app (rx conn)) < buf_len (rx_app (rx conn)))%nat ->
  find_addr conn (buf_data (rx_app (rx conn)) !!! buf_index (rx_app (rx conn))) = Some c ->
  clients conn !! c = Some cl ->
  (buf_max (sock_out cl) < buf_len (sock_out cl) + buf_len (rx_app (rx conn)) + 2)%nat ->
  exists conn',
    client_msg_rx conn = Ok conn' /\
    rx_state (rx conn') = RX_IDLE /\ rx_client (rx conn') = Some c /\
    last_was_ack (rx conn') = false.
Proof.
  intros Hi Hf Hl Hfull. unfold client_msg_rx, buf_get_byte.
  destruct (Nat.eqb_spec (buf_len (rx_app (rx conn))) (buf_index (rx_app (rx conn))));
    [lia|].
  cbn [negb Z.eqb]. rewrite find_addr_upd_rx, Hf. rsimpl. rewrite Hl.
  destruct (Nat.ltb_spec (buf_max (sock_out cl))
              (buf_len (sock_out cl) + buf_len (rx_app (rx conn)) + 2)); [|lia].
  eexists. split; [reflexivity|]. destruct_conn conn. repeat split.
Qed.

(** ** The arbitrator with nothing to do *)

Lemma find_ready_none cls start : forall n client,
  no_ready cls -> (start < length cls)%nat -> (client < length cls)%nat ->
  ((if (client <? start)%nat then start - client else length cls - client + start)
   <= n)%nat ->
  find_ready n cls client start = Ok None.
Proof.
  induction n as [|n IH]; intros client Hnr Hs Hc Hn.
  - destruct (Nat.ltb_spec client start); lia.
  - cbn [find_ready].
    destruct (lookup_lt_is_Some_2 cls client Hc) as [cl Hl]. rewrite Hl.
    assert (Hst : client_state cl <> CLIENT_MSG_READY).
    { unfold no_ready in Hnr. rewrite Forall_lookup in Hnr. exact (Hnr _ _ Hl). }
    set (client' := if (S client <? length cls)%nat then S client else 0%nat).
    assert (Hc' : (client' < length cls)%nat).
    { unfold client'. destruct (Nat.ltb_spec (S client) (length cls)); lia. }
    assert (Hgo : (if (client' =? start)%nat then Ok None
                   else find_ready n cls client' start) = Ok None).
    { destruct (Nat.eqb_spec client' start); [reflexivity|].
      apply IH; auto. unfold client' in *.
      destruct (Nat.ltb_spec (S client) (length cls));
        destruct (Nat.ltb_spec client start);
        destruct (Nat.ltb_spec (S client) start);
        destruct (Nat.ltb_spec 0 start); lia. }
    destruct (client_state cl); try exact Hgo. contradiction.
Qed.

(** With no client ready, [find_next_tx] returns and leaves the connection
    as it is. *)
Lemma find_next_tx_no_ready conn start_client :
  no_ready (clients conn) ->
  match start_client with Some s => (s < length (clients conn))%nat | None => True end ->
  find_next_tx conn start_client = Ok conn.
Proof.
  intros Hnr Hs. unfold find_next_tx. cbn [find_next_tx_fuel].
  destruct (tx_busy (tx conn)); [reflexivity|].
  destruct (clients conn) as [|cl0 cls] eqn:Ecl; [reflexivity|].
  set (start := match start_client with Some s => s | None => _ end).
  assert (Hst : (start < length (cl0 :: cls))%nat).
  { unfold start. destruct start_client as [s|]; [exact Hs|].
    destruct (tx_client (tx conn)) as [c|]; [|simpl; lia].
    destruct (Nat.ltb_spec (S c) (length (cl0 :: cls))); simpl in *; lia. }
  rewrite find_ready_none; auto.
  destruct (Nat.ltb_spec start start); lia.
Qed.

Lemma no_ready_alter cls c f :
  no_ready cls ->
  (forall cl, client_state cl <> CLIENT_MSG_READY ->
              client_state (f cl) <> CLIENT_MSG_READY) ->
  no_ready (alter f c cls).
Proof.
  unfold no_ready. rewrite !Forall_lookup. intros H Hf i cl Hl.
  destruct (Nat.eq_dec c i) as [->|Hne].
  - rewrite list_lookup_alter_eq in Hl.
    destruct (cls !! i) as [cl0|] eqn:E; [|discriminate].
    inversion Hl; subst. apply Hf. exact (H _ _ E).
  - rewrite list_lookup_alter_ne in Hl by assumption. exact (H _ _ Hl).
Qed.

(** The failure notice: the client gets one NAK byte and is idle again;
    with no other client ready the arbitrator has nothing to send. *)
Lemma client_msg_tx_fail_no_ready conn c cl :
  tx_client (tx conn) = Some c -> clients conn !! c = Some cl ->
  no_ready (clients conn) ->
  client_msg_tx_fail conn =
  Ok (upd_client c incr_cl_tx_fail
        (upd_client c (set_client_state CLIENT_IDLE)
           (upd_client c (set_sock_out (fst (buf_append_byte (sock_out cl) MSG_NAK)))
                       conn))).
Proof.
  intros Hc Hl Hnr. unfold client_msg_tx_fail, client_msg_tx_fail_with.
  rewrite Hc, Hl. apply find_next_tx_no_ready; [|exact I].
  unfold upd_client. rsimpl.
  repeat apply no_ready_alter; auto; intros cl0 H; rsimpl; try exact H; discriminate.
Qed.

(** ** Ticks of the transmitter *)

Lemma rx_tick_inactive conn : rx_active (rx conn) = false -> rx_tick conn = conn.
Proof. unfold rx_active, rx_tick. destruct (rx_state (rx conn)); auto; discriminate. Qed.

Lemma uint_incr_small x : 0 <= x < 4294967295 -> uint_incr x = x + 1.
Proof. intros. unfold uint_incr. apply u32_small. lia. Qed.

Lemma conn_ticks_app n : forall m conn,
  conn_ticks (n + m) conn = let* conn' := conn_ticks n conn in conn_ticks m conn'.
Proof.
  induction n as [|n IH]; intros m conn; [reflexivity|].
  cbn [Nat.add conn_ticks]. destruct (conn_tick conn) as [c|f]; [|reflexivity].
  cbn [bind]. apply IH.
Qed.

Lemma upd_tx_eticks_incr conn :
  upd_tx (fun t => set_tx_eticks (uint_incr (tx_eticks t)) t) conn =
  upd_tx (set_tx_eticks (uint_incr (tx_eticks (tx conn)))) conn.
Proof. reflexivity. Qed.

Lemma upd_tx_enq_incr conn :
  upd_tx (fun t => set_enq_cnt (uint_incr (enq_cnt t)) t) conn =
  upd_tx (set_enq_cnt (uint_incr (enq_cnt (tx conn)))) conn.
Proof. reflexivity. Qed.

Lemma upd_tx_nak_incr conn :
  upd_tx (fun t => set_nak_cnt (uint_incr (nak_cnt t)) t) conn =
  upd_tx (set_nak_cnt (uint_incr (nak_cnt (tx conn)))) conn.
Proof. reflexivity. Qed.

(** While the response is awaited and not overdue, the ticks only count. *)
Lemma conn_ticks_wait n : forall conn,
  rx_active (rx conn) = false -> tx_state (tx conn) = TX_PEND_RESP ->
  0 <= tx_eticks (tx conn) ->
  tx_eticks (tx conn) + Z.of_nat n <= tx_tticks (tx conn) < 4294967295 ->
  conn_ticks n conn =
  Ok (upd_tx (set_tx_eticks (tx_eticks (tx conn) + Z.of_nat n)) conn).
Proof.
  induction n as [|n IH]; intros conn Ha Hs He Hn.
  - cbn [conn_ticks Z.of_nat]. rewrite Z.add_0_r. now destruct_conn conn.
  - cbn [conn_ticks]. unfold conn_tick. rewrite rx_tick_inactive by assumption.
    unfold tx_tick. rewrite Ha, andb_false_r, Hs, upd_tx_eticks_incr. rsimpl.
    rewrite uint_incr_small by lia.
    destruct (Z.ltb_spec (tx_tticks (tx conn)) (tx_eticks (tx conn) + 1)); [lia|].
    cbn [bind]. rewrite IH; rsimpl; try assumption; try lia.
    replace (tx_eticks (tx conn) + 1 + Z.of_nat n)
      with (tx_eticks (tx conn) + Z.of_nat (S n)) by lia.
    reflexivity.
Qed.

(** The tick on which the response is overdue, with ENQs left to send. *)
Lemma conn_tick_timeout_enq conn :
  rx_active (rx conn) = false -> tx_state (tx conn) = TX_PEND_RESP ->
  tx_eticks (tx conn) = tx_tticks (tx conn) -> 0 <= tx_tticks (tx conn) < 4294967295 ->
  0 <= enq_cnt (tx conn) -> enq_cnt (tx conn) + 1 <= max_enq (tx conn) < 4294967296 ->
  buf_wf (tty_out conn) -> (buf_len (tty_out conn) + 2 <= buf_max (tty_out conn))%nat ->
  exists out',
    conn_tick conn =
      Ok (set_tty_out out'
            (upd_tx (set_tx_state TX_PEND_MSG_TX)
               (upd_tx (set_enq_cnt (enq_cnt (tx conn) + 1))
                  (incr_resp_timeouts
                     (upd_tx (set_tx_eticks (tx_tticks (tx conn) + 1)) conn))))) /\
    buf_wf out' /\ buf_index out' = buf_index (tty_out conn) /\
    buf_max out' = buf_max (tty_out conn) /\
    buf_contents out' = buf_contents (tty_out conn) ++ [SYM_DLE; SYM_ENQ].
Proof.
  intros Ha Hs He Ht Hq Hm Wo Hroom.
  destruct (buf_append_byte_spec (tty_out conn) SYM_DLE Wo)
    as (o1 & E1 & W1 & C1 & L1 & I1 & M1); [lia|].
  destruct (buf_append_byte_spec o1 SYM_ENQ W1)
    as (o2 & E2 & W2 & C2 & L2 & I2 & M2); [lia|].
  exists o2. split; [|split; [exact W2|split; [congruence|split; [congruence|]]]].
  - unfold conn_tick. rewrite rx_tick_inactive by assumption.
    unfold tx_tick. rewrite Ha, andb_false_r, Hs, upd_tx_eticks_incr, upd_tx_enq_incr.
    rsimpl. rewrite He, uint_incr_small by lia.
    destruct (Z.ltb_spec (tx_tticks (tx conn)) (tx_tticks (tx conn) + 1)); [|lia].
    rewrite (uint_incr_small (enq_cnt (tx conn))) by lia.
    destruct (Z.ltb_spec (max_enq (tx conn)) (enq_cnt (tx conn) + 1)); [lia|].
    unfold send_enq, send_enq_with, append_dle_sym. rsimpl.
    rewrite E1. cbn [negb Z.eqb]. rewrite E2. cbn [negb Z.eqb]. reflexivity.
  - rewrite C2, C1, !u8_small by (unfold SYM_DLE, SYM_ENQ; lia).
    now rewrite <- app_assoc.
Qed.

(** The tick on which the response is overdue and the ENQs are used up. *)
Lemma conn_tick_timeout_fail conn c cl :
  rx_active (rx conn) = false -> tx_state (tx conn) = TX_PEND_RESP ->
  tx_eticks (tx conn) = tx_tticks (tx conn) -> 0 <= tx_tticks (tx conn) < 4294967295 ->
  0 <= enq_cnt (tx conn) < 4294967295 -> max_enq (tx conn) < enq_cnt (tx conn) + 1 ->
  tx_client (tx conn) = Some c -> clients conn !! c = Some cl ->
  no_ready (clients conn) ->
  conn_tick conn =
  Ok (upd_client c incr_cl_tx_fail
        (upd_client c (set_client_state CLIENT_IDLE)
           (upd_client c (set_sock_out (fst (buf_append_byte (sock_out cl) MSG_NAK)))
              (incr_tx_fail
                 (upd_tx flush_msg
                    (upd_tx (set_enq_cnt (enq_cnt (tx conn) + 1))
                       (incr_resp_timeouts
                          (upd_tx (set_tx_eticks (tx_tticks (tx conn) + 1)) conn)))))))).
Proof.
  intros Ha Hs He Ht Hq Hm Hc Hl Hnr.
  unfold conn_tick. rewrite rx_tick_inactive by assumption.
  unfold tx_tick. rewrite Ha, andb_false_r, Hs, upd_tx_eticks_incr, upd_tx_enq_incr.
  rsimpl. rewrite He, uint_incr_small by lia.
  destruct (Z.ltb_spec (tx_tticks (tx conn)) (tx_tticks (tx conn) + 1)); [|lia].
  rewrite (uint_incr_small (enq_cnt (tx conn))) by lia.
  destruct (Z.ltb_spec (max_enq (tx conn)) (enq_cnt (tx conn) + 1)); [|lia].
  now rewrite (client_msg_tx_fail_no_ready _ c cl).
Qed.

(** A complete write of the TTY output while the transmitter waits for it. *)
Lemma tty_drain_spec conn :
  buf_wf (tty_out conn) -> tx_state (tx conn) = TX_PEND_MSG_TX ->
  tty_drain conn =
  upd_tx (set_tx_eticks 0)
    (upd_tx (set_tx_state TX_PEND_RESP)
       (set_tty_out (buf_empty (tty_out conn)) conn)).
Proof.
  intros (Hd & Hi & Hl) Hs. unfold tty_drain, tty_write, buf_write. rsimpl.
  replace (buf_index (tty_out conn) + (buf_len (tty_out conn) - buf_index (tty_out conn)))%nat
    with (buf_len (tty_out conn)) by lia.
  rewrite Nat.eqb_refl. unfold buf_empty at 1 2. rsimpl. cbn [Nat.eqb].
  unfold tx_data_sent. rsimpl. rewrite Hs. reflexivity.
Qed.

Lemma bind_ok_r {A} (m : result A) : (let* x := m in Ok x) = m.
Proof. now destruct m. Qed.

(** From the moment the frame is out, [timeout_ticks] ticks pass until the
    response is overdue. *)
Lemma conn_ticks_timeout conn :
  rx_active (rx conn) = false -> tx_state (tx conn) = TX_PEND_RESP ->
  tx_eticks (tx conn) = 0 -> 0 <= tx_tticks (tx conn) < 4294967295 ->
  conn_ticks (timeout_ticks conn) conn =
  conn_tick (upd_tx (set_tx_eticks (tx_tticks (tx conn))) conn).
Proof.
  intros Ha Hs He Ht. unfold timeout_ticks.
  replace (S (Z.to_nat (tx_tticks (tx conn)))) with (Z.to_nat (tx_tticks (tx conn)) + 1)%nat
    by lia.
  rewrite conn_ticks_app, conn_ticks_wait by (auto; lia).
  cbn [bind conn_ticks]. rewrite bind_ok_r, He, Z2Nat.id by lia. reflexivity.
Qed.

Lemma buf_wf_len0 b :
  buf_wf b -> buf_len b = 0%nat -> buf_index b = 0%nat /\ buf_contents b = [].
Proof.
  intros (? & ? & ?) Hz. split; [lia|]. unfold buf_contents. rewrite Hz. apply take_0.
Qed.

(** One unanswered wait that ends in an enquiry: DLE ENQ is queued, and once
    the TTY has taken it the transmitter waits again, one enquiry further. *)
Lemma enq_round conn :
  rx_active (rx conn) = false -> tx_state (tx conn) = TX_PEND_RESP ->
  tx_eticks (tx conn) = 0 -> 0 <= tx_tticks (tx conn) < 4294967295 ->
  0 <= enq_cnt (tx conn) -> enq_cnt (tx conn) + 1 <= max_enq (tx conn) < 4294967296 ->
  buf_wf (tty_out conn) -> buf_len (tty_out conn) = 0%nat ->
  (2 <= buf_max (tty_out conn))%nat ->
  exists t,
    conn_ticks (timeout_ticks conn) conn = Ok t /\
    buf_pending (tty_out t) = [SYM_DLE; SYM_ENQ] /\
    tx_state (tx t) = TX_PEND_MSG_TX /\
    clients t = clients conn /\ tx_fail (dcnts t) = tx_fail (dcnts conn) /\
    rx (tty_drain t) = rx conn /\
    tx (tty_drain t) = set_enq_cnt (enq_cnt (tx conn) + 1) (tx conn) /\
    clients (tty_drain t) = clients conn /\
    buf_wf (tty_out (tty_drain t)) /\ buf_len (tty_out (tty_drain t)) = 0%nat /\
    buf_max (tty_out (tty_drain t)) = buf_max (tty_out conn) /\
    resp_timeouts (dcnts (tty_drain t)) = uint_incr (resp_timeouts (dcnts conn)) /\
    tx_fail (dcnts (tty_drain t)) = tx_fail (dcnts conn).
Proof.
  intros Ha Hs He Ht Hq Hm Wo Ho0 Hom.
  destruct (buf_wf_len0 _ Wo Ho0) as [Hoi Hoc].
  rewrite conn_ticks_timeout by assumption.
  destruct (conn_tick_timeout_enq (upd_tx (set_tx_eticks (tx_tticks (tx conn))) conn))
    as (o1 & E1 & W1 & I1 & M1 & C1); rsimpl; try assumption; try lia.
  rsimpl_in E1. rsimpl_in I1. rsimpl_in M1. rsimpl_in C1.
  eexists. split; [exact E1|].
  split; [rsimpl; unfold buf_pending; rewrite C1, I1, Hoi, Hoc; reflexivity|].
  split; [reflexivity|]. split; [reflexivity|]. split; [reflexivity|].
  rewrite tty_drain_spec by (rsimpl; auto).
  rsimpl.
  split; [reflexivity|].
  split; [destruct conn as [? ? ? ? ? [] ? ? ?]; cbn in *; subst; reflexivity|].
  split; [reflexivity|].
  split; [now apply buf_empty_wf|].
  split; [reflexivity|]. split; [exact M1|]. split; reflexivity.
Qed.

(** The wait that exhausts the enquiries: the message is failed. *)
Lemma enq_fail_round conn c cl :
  rx_active (rx conn) = false -> tx_state (tx conn) = TX_PEND_RESP ->
  tx_eticks (tx conn) = 0 -> 0 <= tx_tticks (tx conn) < 4294967295 ->
  0 <= enq_cnt (tx conn) < 4294967295 -> max_enq (tx conn) < enq_cnt (tx conn) + 1 ->
  tx_client (tx conn) = Some c -> clients conn !! c = Some cl ->
  buf_wf (sock_out cl) -> (buf_len (sock_out cl) < buf_max (sock_out cl))%nat ->
  no_ready (clients conn) ->
  exists t cl',
    conn_ticks (timeout_ticks conn) conn = Ok t /\
    tx_state (tx t) = TX_IDLE /\ tty_out t = tty_out conn /\
    clients t !! c = Some cl' /\
    buf_contents (sock_out cl') = buf_contents (sock_out cl) ++ [MSG_NAK] /\
    resp_timeouts (dcnts t) = uint_incr (resp_timeouts (dcnts conn)) /\
    tx_fail (dcnts t) = uint_incr (tx_fail (dcnts conn)).
Proof.
  intros Ha Hs He Ht Hq Hm Hc Hl Wc Hroom Hnr.
  rewrite conn_ticks_timeout by assumption.
  rewrite (conn_tick_timeout_fail _ c cl) by (rsimpl; assumption || lia).
  destruct (buf_append_byte_spec (sock_out cl) MSG_NAK Wc Hroom)
    as (so & Es & Ws & Cs & _).
  rewrite Es. cbn [fst].
  eexists. exists (incr_cl_tx_fail (set_client_state CLIENT_IDLE (set_sock_out so cl))).
  split; [reflexivity|]. split; [reflexivity|]. split; [reflexivity|].
  split; [unfold upd_client; rsimpl; rewrite !list_lookup_alter_eq, Hl; reflexivity|].
  split; [rsimpl; rewrite Cs, u8_small by (unfold MSG_NAK; lia); reflexivity|].
  split; reflexivity.
Qed.

(** C5, as the code has it.  With [tx_max_enq = 2] and a peer that never
    responds: on the first and on the second ACK timeout the transmitter
    puts DLE ENQ (10 05) on the TTY and, once that is written, waits again
    from zero; after the second timeout nothing has been failed yet.  On the
    third timeout it fails the message: the transmitter is idle, no further
    ENQ goes out, the originating client gets one NAK byte (0x15), and the
    counters that started at zero read [resp_timeouts = 3] and
    [tx_fail = 1]. *)
Theorem enq_twice_then_fail (conn : CONN) (c : nat) (cl : CLIENT) :
  max_enq (tx conn) = 2 ->
  tx_state (tx conn) = TX_PEND_RESP -> tx_eticks (tx conn) = 0 ->
  enq_cnt (tx conn) = 0 -> 0 <= tx_tticks (tx conn) < 4294967295 ->
  rx_active (rx conn) = false ->
  tx_client (tx conn) = Some c -> clients conn !! c = Some cl ->
  buf_wf (sock_out cl) -> (buf_len (sock_out cl) < buf_max (sock_out cl))%nat ->
  no_ready (clients conn) ->
  buf_wf (tty_out conn) -> buf_len (tty_out conn) = 0%nat ->
  (2 <= buf_max (tty_out conn))%nat ->
  resp_timeouts (dcnts conn) = 0 -> tx_fail (dcnts conn) = 0 ->
  exists t1 t2 t3 cl',
    conn_ticks (timeout_ticks conn) conn = Ok t1 /\
    buf_pending (tty_out t1) = [SYM_DLE; SYM_ENQ] /\
    tx_state (tx t1) = TX_PEND_MSG_TX /\
    tx_state (tx (tty_drain t1)) = TX_PEND_RESP /\
    tx_eticks (tx (tty_drain t1)) = 0 /\
    conn_ticks (timeout_ticks conn) (tty_drain t1) = Ok t2 /\
    buf_pending (tty_out t2) = [SYM_DLE; SYM_ENQ] /\
    tx_state (tx t2) = TX_PEND_MSG_TX /\
    tx_fail (dcnts t2) = 0 /\ clients t2 = clients conn /\
    tx_state (tx (tty_drain t2)) = TX_PEND_RESP /\
    tx_eticks (tx (tty_drain t2)) = 0 /\
    conn_ticks (timeout_ticks conn) (tty_drain t2) = Ok t3 /\
    tx_state (tx t3) = TX_IDLE /\ buf_pending (tty_out t3) = [] /\
    clients t3 !! c = Some cl' /\
    buf_contents (sock_out cl') = buf_contents (sock_out cl) ++ [MSG_NAK] /\
    resp_timeouts (dcnts t3) = 3 /\ tx_fail (dcnts t3) = 1.
Proof.
  intros Hmax Hs He Hq Ht Ha Hc Hl Wc Hroom Hnr Wo Ho0 Hom Hrt Htf.
  destruct (enq_round conn)
    as (t1 & E1 & P1 & S1 & K1 & F1 & R1 & T1 & KD1 & WD1 & LD1 & MD1 & RT1 & FD1);
    try assumption; try lia.
  assert (N1 : timeout_ticks (tty_drain t1) = timeout_ticks conn)
    by (unfold timeout_ticks; rewrite T1; reflexivity).
  destruct (enq_round (tty_drain t1))
    as (t2 & E2 & P2 & S2 & K2 & F2 & R2 & T2 & KD2 & WD2 & LD2 & MD2 & RT2 & FD2);
    rewrite ?R1, ?T1; rsimpl; try assumption; try lia.
  rewrite N1 in E2. rewrite T1 in T2. rsimpl_in T2.
  assert (N2 : timeout_ticks (tty_drain t2) = timeout_ticks conn)
    by (unfold timeout_ticks; rewrite T2; reflexivity).
  destruct (enq_fail_round (tty_drain t2) c cl)
    as (t3 & cl' & E3 & S3 & O3 & L3 & C3 & RT3 & F3);
    rewrite ?R2, ?R1, ?T2, ?KD2, ?KD1; rsimpl; try assumption; try lia.
  rewrite N2 in E3.
  destruct (buf_wf_len0 _ WD2 LD2) as [ID2 _].
  exists t1, t2, t3, cl'.
  rewrite T1, T2. rsimpl.
  repeat (split; [first [assumption | reflexivity | congruence]|]).
  split.
  { rewrite O3. unfold buf_pending, buf_contents. rewrite LD2, ID2, take_0. reflexivity. }
  split; [exact L3|]. split; [exact C3|].
  rewrite RT3, RT2, RT1, Hrt, F3, FD2, FD1, Htf. split; reflexivity.
Qed.

Lemma upd_tx_nak_set conn :
  upd_tx (fun t => set_nak_cnt (uint_incr (nak_cnt t)) t) conn =
  upd_tx (set_nak_cnt (uint_incr (nak_cnt (tx conn)))) conn.
Proof. reflexivity. Qed.

(** C6.  [tx_nak], the peer's NAK.  Let [n] be [nak_cnt] after the
    increment.  In [TX_PEND_RESP]: while [n < max_nak] the frame kept in the
    transmitter's message buffer is put on the TTY once more, unchanged, and
    the state is [TX_PEND_MSG_TX]; once [n >= max_nak] the transmitter is
    flushed ([nak_cnt = enq_cnt = 0], state [TX_IDLE]), [tx_fail] is counted,
    one NAK byte goes to the socket output of the originating client, and
    [find_next_tx] is asked for the next transmission (which, no client
    having a message ready, leaves the connection as it is).  In any other
    transmitter state the transmitter, the TTY output and the clients stay
    as they are; the receiver only loses [last_was_ack], and the two bytes
    are counted as ignored. *)
Theorem tx_nak_retransmit_or_fail (conn : CONN) :
  buf_wf (tty_out conn) -> buf_wf (tx_buf (tx conn)) ->
  (buf_len (tty_out conn) + buf_len (tx_buf (tx conn)) <= buf_max (tty_out conn))%nat ->
  let n := uint_incr (nak_cnt (tx conn)) in
  (tx_state (tx conn) = TX_PEND_RESP -> n < max_nak (tx conn) ->
   exists out,
     tx_nak conn =
       Ok (set_tty_out out
             (upd_tx (set_tx_state TX_PEND_MSG_TX) (upd_tx (set_nak_cnt n) conn))) /\
     buf_contents out = buf_contents (tty_out conn) ++ buf_contents (tx_buf (tx conn))) /\
  (tx_state (tx conn) = TX_PEND_RESP -> max_nak (tx conn) <= n ->
   forall c cl,
     tx_client (tx conn) = Some c -> clients conn !! c = Some cl ->
     buf_wf (sock_out cl) -> (buf_len (sock_out cl) < buf_max (sock_out cl))%nat ->
     exists so failed,
       buf_contents so = buf_contents (sock_out cl) ++ [MSG_NAK] /\
       clients failed !! c =
         Some (incr_cl_tx_fail (set_client_state CLIENT_IDLE (set_sock_out so cl))) /\
       tx_state (tx failed) = TX_IDLE /\
       nak_cnt (tx failed) = 0 /\ enq_cnt (tx failed) = 0 /\
       buf_contents (tx_buf (tx failed)) = [] /\
       tx_fail (dcnts failed) = uint_incr (tx_fail (dcnts conn)) /\
       tty_out failed = tty_out conn /\
       tx_nak conn = find_next_tx failed None /\
       (no_ready (clients conn) -> tx_nak conn = Ok failed)) /\
  (tx_state (tx conn) <> TX_PEND_RESP ->
   exists conn',
     tx_nak conn = Ok conn' /\
     tx conn' = tx conn /\ tty_out conn' = tty_out conn /\
     clients conn' = clients conn /\
     rx conn' = set_last_was_ack false (rx conn) /\
     bytes_ignored (dcnts conn') = u32 (bytes_ignored (dcnts conn) + 2)).
Proof.
  intros Wo Wm Hroom n. split; [|split].
  - intros Hs Hn.
    destruct (buf_append_buf_spec _ _ Wo Wm Hroom) as (out & Ea & _ & Ca & _).
    exists out. split; [|exact Ca].
    unfold tx_nak. rewrite Hs, upd_tx_nak_set. fold n. rsimpl.
    destruct (Z.leb_spec (max_nak (tx conn)) n); [lia|].
    unfold send_msg, send_msg_with. rsimpl. rewrite Ea. reflexivity.
  - intros Hs Hn c cl Hc Hl Wc Hcroom.
    destruct (buf_append_byte_spec (sock_out cl) MSG_NAK Wc Hcroom)
      as (so & Es & _ & Cs & _).
    assert (Et : tx_nak conn =
                   client_msg_tx_fail
                     (incr_tx_fail (upd_tx flush_msg (upd_tx (set_nak_cnt n) conn)))).
    { unfold tx_nak. rewrite Hs, upd_tx_nak_set. fold n. rsimpl.
      destruct (Z.leb_spec (max_nak (tx conn)) n); [reflexivity|lia]. }
    exists so,
      (upd_client c incr_cl_tx_fail
         (upd_client c (set_client_state CLIENT_IDLE)
            (upd_client c (set_sock_out so)
               (incr_tx_fail (upd_tx flush_msg (upd_tx (set_nak_cnt n) conn)))))).
    split; [rewrite Cs, u8_small by (unfold MSG_NAK; lia); reflexivity|].
    split; [|split; [|split; [|split; [|split; [|split; [|split; [|split]]]]]]].
    9: { intros Hnr. rewrite Et.
         rewrite (client_msg_tx_fail_no_ready _ c cl) by (rsimpl; assumption).
         rewrite Es. cbn [fst]. reflexivity. }
    8: { rewrite Et. unfold client_msg_tx_fail, client_msg_tx_fail_with. rsimpl.
         unfold flush_msg. rsimpl. rewrite Hc, Hl, Es. reflexivity. }
    + unfold upd_client. rsimpl. rewrite !list_lookup_alter_eq, Hl. reflexivity.
    + reflexivity.
    + reflexivity.
    + reflexivity.
    + unfold upd_client, flush_msg. rsimpl. unfold buf_empty, buf_contents. rsimpl.
      apply take_0.
    + reflexivity.
    + reflexivity.
  - intros Hs. eexists. split.
    + unfold tx_nak. destruct (tx_state (tx conn)); try reflexivity. congruence.
    + repeat split.
Qed.

Lemma upd_rx_eticks_incr conn :
  upd_rx (fun r => set_rx_eticks (uint_incr (rx_eticks r)) r) conn =
  upd_rx (set_rx_eticks (uint_incr (rx_eticks (rx conn)))) conn.
Proof. reflexivity. Qed.

Lemma upd_rx_eticks_same conn : upd_rx (set_rx_eticks (rx_eticks (rx conn))) conn = conn.
Proof. destruct conn as [? ? ? ? ? ? [] ? ?]. reflexivity. Qed.

(** While a frame is being received and the window is not used up, a tick
    only counts. *)
Lemma rx_ticks_count conn : forall n : nat,
  rx_active (rx conn) = true -> rx_eticks (rx conn) = 0 ->
  Z.of_nat n <= rx_tticks (rx conn) < 4294967295 ->
  Nat.iter n rx_tick conn = upd_rx (set_rx_eticks (Z.of_nat n)) conn.
Proof.
  intros n Ha He. induction n as [|n IH]; intros Hn.
  - change (Nat.iter 0 rx_tick conn) with conn. replace (Z.of_nat 0) with (rx_eticks (rx conn)) by (rewrite He; reflexivity).
    symmetry. apply upd_rx_eticks_same.
  - rewrite Nat.iter_succ, IH by lia. unfold rx_tick. rsimpl.
    unfold rx_active in Ha.
    destruct (rx_state (rx conn)) eqn:Es; try discriminate;
      rewrite upd_rx_eticks_incr; rsimpl;
      rewrite uint_incr_small by lia;
      (destruct (Z.ltb_spec (rx_tticks (rx conn)) (Z.of_nat n + 1)); [lia|]);
      replace (Z.of_nat (S n)) with (Z.of_nat n + 1) by lia; reflexivity.
Qed.

(** C7, as the code has it.  [rx_init] sets the window to
    [5000000 / TICK_USEC + 1 = 501] ticks.  [rx_tick] does nothing in
    [RX_IDLE] and [RX_PEND].  In the states [RX_APP], [RX_CS1] and [RX_CS2],
    starting from [eticks = 0], each of the first [tticks] ticks only counts
    (the state stays); the tick after those, the 502nd for the window of
    [rx_init], returns the receiver to [RX_IDLE] and clears [last_was_ack];
    nothing is put on the TTY and the transmitter is not touched. *)
Theorem rx_timeout_window (conn0 : CONN) (dup_detect : Z) :
  rx_tticks (rx (rx_init conn0 dup_detect)) = 501 /\
  (forall conn, rx_active (rx conn) = false -> rx_tick conn = conn) /\
  (forall conn (n : nat),
     rx_active (rx conn) = true -> rx_eticks (rx conn) = 0 ->
     0 <= rx_tticks (rx conn) < 4294967295 ->
     (Z.of_nat n <= rx_tticks (rx conn) ->
      Nat.iter n rx_tick conn = upd_rx (set_rx_eticks (Z.of_nat n)) conn) /\
     (Z.of_nat n = rx_tticks (rx conn) + 1 ->
      Nat.iter n rx_tick conn =
        upd_rx (set_last_was_ack false)
          (upd_rx (set_rx_state RX_IDLE) (upd_rx (set_rx_eticks (Z.of_nat n)) conn)))).
Proof.
  split; [reflexivity|]. split; [exact rx_tick_inactive|].
  intros conn n Ha He Ht. split; intros Hn.
  - apply rx_ticks_count; auto; lia.
  - destruct n as [|n]; [lia|].
    rewrite Nat.iter_succ, rx_ticks_count by (auto; lia). unfold rx_tick. rsimpl.
    unfold rx_active in Ha.
    destruct (rx_state (rx conn)) eqn:Es; try discriminate;
      rewrite upd_rx_eticks_incr; rsimpl;
      rewrite uint_incr_small by lia;
      (destruct (Z.ltb_spec (rx_tticks (rx conn)) (Z.of_nat n + 1)); [|lia]);
      replace (Z.of_nat (S n)) with (Z.of_nat n + 1) by lia; reflexivity.
Qed.

Lemma pending_lookup b i x :
  buf_wf b -> buf_pending b !! i = Some x ->
  buf_data b !! (buf_index b + i)%nat = Some x /\ (buf_index b + i < buf_len b)%nat.
Proof.
  intros Hwf Hp. pose proof (lookup_lt_Some _ _ _ Hp) as Hlt.
  rewrite pending_length in Hlt by assumption.
  split; [|lia]. unfold buf_pending, buf_contents in Hp.
  rewrite lookup_drop in Hp. rewrite lookup_take_lt in Hp by lia. exact Hp.
Qed.

(** Reading a word: two pending bytes come out, as the host reads them. *)
Lemma buf_get_word_spec b d x y l :
  buf_wf b -> buf_pending b = x :: y :: l ->
  buf_get_word b d = (buf_skip 2 b, 0, val16 BYTE_ORDER x y) /\
  buf_wf (buf_skip 2 b) /\ buf_pending (buf_skip 2 b) = l.
Proof.
  intros Hwf Hp.
  destruct (pending_lookup b 0 x Hwf) as [H0 _]; [rewrite Hp; reflexivity|].
  destruct (pending_lookup b 1 y Hwf) as [H1 Hlt]; [rewrite Hp; reflexivity|].
  rewrite Nat.add_0_r in H0. rewrite Nat.add_1_r in H1.
  destruct Hwf as (Hd & Hi & Hl).
  unfold buf_get_word.
  destruct (Nat.ltb_spec (buf_len b) (buf_index b + 2)); [lia|].
  rewrite !list_lookup_total_alt, H0, H1. cbn [default from_option id].
  unfold buf_skip. replace (buf_index b + 2)%nat with (2 + buf_index b)%nat by lia.
  split; [reflexivity|]. split.
  - unfold buf_wf. cbn. lia.
  - unfold buf_pending, buf_contents in *. cbn [buf_len buf_data buf_index].
    rewrite Nat.add_comm, <- drop_drop, Hp. reflexivity.
Qed.

Lemma buf_get_word_end b d :
  (buf_len b < buf_index b + 2)%nat -> buf_get_word b d = (b, -1, d).
Proof.
  intros H. unfold buf_get_word.
  destruct (Nat.ltb_spec (buf_len b) (buf_index b + 2)); [reflexivity|lia].
Qed.

(** The encoding of an address on the link. *)
Lemma addr_bytes_word a :
  0 <= a <= 65535 -> (a mod 256) + 256 * ((a / 256) mod 256) = a.
Proof.
  intros Ha. rewrite (Z.mod_small (a / 256)).
  - pose proof (Z.div_mod a 256). lia.
  - split; [apply Z.div_pos; lia | apply Z.div_lt_upper_bound; lia].
Qed.

(** On a little-endian host, for every 16-bit address [a] and a target
    with room: [addr_encode] appends the single byte [a] when [a <= 254], and
    [0xff] followed by the low and the high byte of [a] when [a >= 255]; and
    [addr_decode], reading a buffer at those bytes, yields [a] and leaves
    the cursor right behind them. *)
Theorem addr_encode_decode (dest : BUF) (a : Z) :
  BYTE_ORDER = LITTLE_ENDIAN ->
  buf_wf dest -> 0 <= a <= 65535 -> (buf_len dest + 3 <= buf_max dest)%nat ->
  let enc := if a <=? 254 then [a] else [0xff; a mod 256; a / 256] in
  exists dest',
    addr_encode dest a = (dest', 0) /\ buf_wf dest' /\
    buf_contents dest' = buf_contents dest ++ enc /\
    buf_index dest' = buf_index dest /\
    forall src rest old,
      buf_wf src -> buf_pending src = enc ++ rest ->
      addr_decode src old = (buf_skip (length enc) src, 0, a) /\
      buf_pending (buf_skip (length enc) src) = rest.
Proof.
  intros LE Wd Ha Hroom enc. unfold addr_encode, addr_decode, enc.
  destruct (Z.ltb_spec 254 a) as [Hbig|Hsmall];
    (destruct (Z.leb_spec a 254) as [Hle|Hgt]; try lia).
  - destruct (buf_append_byte_spec dest 0xff Wd) as (d1 & E1 & W1 & C1 & L1 & I1 & M1);
      [lia|].
    destruct (buf_append_word_spec d1 (htols a) W1) as (d2 & E2 & W2 & C2 & L2 & I2 & M2);
      [lia|].
    exists d2. rewrite E1. cbn [Z.eqb negb]. rewrite E2. cbn [Z.eqb negb].
    split; [reflexivity|]. split; [exact W2|].
    assert (Hh : htols a = a) by (unfold htols; rewrite LE; reflexivity).
    split.
    { rewrite C2, C1, Hh, u16_small, LE by lia. cbn [mem16 fst snd].
      rewrite (Z.mod_small (a / 256))
        by (split; [apply Z.div_pos; lia | apply Z.div_lt_upper_bound; lia]).
      rewrite <- app_assoc. reflexivity. }
    split; [congruence|].
    intros src rest old Ws Hp. cbn [app length] in *.
    destruct (buf_get_byte_spec src 0 _ _ Ws Hp) as (G1 & Ws1 & P1).
    rewrite G1. cbn [Z.eqb negb Pos.eqb].
    destruct (buf_get_word_spec _ 0 _ _ _ Ws1 P1) as (G2 & Ws2 & P2).
    rewrite G2. cbn [Z.eqb negb]. rewrite buf_skip_skip in *. cbn [Nat.add] in *.
    split; [|exact P2]. f_equal. unfold ltohs. rewrite LE. cbn [val16].
    rewrite <- (addr_bytes_word a) at 3 by lia.
    rewrite (Z.mod_small (a / 256))
      by (split; [apply Z.div_pos; lia | apply Z.div_lt_upper_bound; lia]).
    reflexivity.
  - destruct (buf_append_byte_spec dest a Wd) as (d1 & E1 & W1 & C1 & L1 & I1 & M1);
      [lia|].
    exists d1. rewrite u8_small in C1 by lia.
    split; [exact E1|]. split; [exact W1|]. split; [exact C1|]. split; [exact I1|].
    intros src rest old Ws Hp. cbn [app length] in *.
    destruct (buf_get_byte_spec src 0 _ _ Ws Hp) as (G1 & Ws1 & P1).
    rewrite G1. cbn [Z.eqb negb].
    destruct (Z.eqb_spec a 255); [lia|]. split; [reflexivity|exact P1].
Qed.

(** When the frame does not fit, [tx_msg_frame] still leaves what fitted of
    DLE STX, the stuffed payload and DLE ETX; the checksum is not stored,
    and the overflow is reported. *)
Lemma tx_msg_frame_overflow uc df1 msg B :
  buf_wf df1 -> buf_pending df1 = B -> Forall is_byte B ->
  buf_wf msg -> buf_len msg = 0%nat ->
  (buf_max msg < length (df1_frame uc B))%nat ->
  exists msg' ov,
    tx_msg_frame uc df1 msg = Ok (buf_skip (length B) df1, msg', ov) /\
    ov <> 0 /\ buf_wf msg' /\ buf_max msg' = buf_max msg /\
    buf_contents msg' =
      take (buf_max msg) ([SYM_DLE; SYM_STX] ++ dle_stuff B ++ [SYM_DLE; SYM_ETX]).
Proof.
  intros Wd Hp HB Wm Hm0 Hov.
  rewrite (tx_msg_frame_spec uc df1 msg B Wd Hp). cbv zeta.
  set (body := [SYM_DLE; SYM_STX] ++ dle_stuff B ++ [SYM_DLE; SYM_ETX]).
  assert (Hbody : Forall is_byte body).
  { unfold body. apply Forall_app. split.
    - repeat constructor; unfold SYM_DLE, SYM_STX; lia.
    - apply Forall_app. split; [now apply dle_stuff_bytes|].
      repeat constructor; unfold SYM_DLE, SYM_ETX; lia. }
  destruct (buf_append_bytes_spec body msg 0 Wm Hbody) as (Wb & Cb & Mb & Ib & Sb).
  assert (Hc0 : buf_contents msg = []) by (unfold buf_contents; rewrite Hm0; apply take_0).
  rewrite Hc0 in Cb. cbn [app] in Cb.
  pose proof (contents_length _ Wb) as Lb. rewrite Cb, length_take in Lb.
  assert (Hlen : length body = (4 + length (dle_stuff B))%nat)
    by (unfold body; rewrite !length_app; simpl; lia).
  rewrite df1_frame_length in Hov.
  set (fb := fst (buf_append_bytes msg 0 body)) in *.
  assert (Ecs : (if uc then buf_append_word fb (htols (tx_crc B))
                 else buf_append_byte fb
                        (Z.lnot (fold_left (fun bcc b => u8 (bcc + b)) B 0) + 1))
                = (fb, -1)).
  { destruct uc.
    - apply buf_append_word_full. lia.
    - apply buf_append_byte_full. lia. }
  rewrite Ecs. cbn [fst snd]. exists fb, (Z.lor (snd (buf_append_bytes msg 0 body)) (-1)).
  split; [reflexivity|]. split; [rewrite Z.lor_m1_r; lia|].
  split; [exact Wb|]. split; [exact Mb|exact Cb].
Qed.

(** C9.  A frame that does not fit the transmitter's message buffer is sent
    all the same: when the TTY output buffer has room for what the message
    buffer holds, [tx_msg] records the client, leaves the frame cut off at
    the capacity of the message buffer (without checksum) in it and on the
    TTY, enters [TX_PEND_MSG_TX] and counts the attempt; no client gets a
    byte and [tx_fail] is not counted. *)
Theorem tx_msg_overflow_sent (conn : CONN) (c : nat) (cl : CLIENT) (B : list Z) :
  clients conn !! c = Some cl ->
  buf_wf (df1_tx cl) -> buf_pending (df1_tx cl) = B -> Forall is_byte B ->
  buf_wf (tx_buf (tx conn)) -> buf_len (tx_buf (tx conn)) = 0%nat ->
  (buf_max (tx_buf (tx conn)) < length (df1_frame (use_crc conn) B))%nat ->
  buf_wf (tty_out conn) ->
  (buf_len (tty_out conn) + buf_max (tx_buf (tx conn)) <= buf_max (tty_out conn))%nat ->
  let cut := take (buf_max (tx_buf (tx conn)))
               ([SYM_DLE; SYM_STX] ++ dle_stuff B ++ [SYM_DLE; SYM_ETX]) in
  exists conn',
    tx_msg conn c = Ok conn' /\
    tx_state (tx conn') = TX_PEND_MSG_TX /\
    tx_client (tx conn') = Some c /\
    buf_contents (tx_buf (tx conn')) = cut /\
    buf_contents (tty_out conn') = buf_contents (tty_out conn) ++ cut /\
    tx_attempts (dcnts conn') = uint_incr (tx_attempts (dcnts conn)) /\
    tx_fail (dcnts conn') = tx_fail (dcnts conn) /\
    map sock_out (clients conn') = map sock_out (clients conn).
Proof.
  intros Hl Wd Hp HB Wm Hm0 Hov Wo Hroom cut.
  destruct (tx_msg_frame_overflow (use_crc conn) _ _ B Wd Hp HB Wm Hm0 Hov)
    as (msg' & ov & E & _ & W' & M' & C').
  destruct (buf_append_buf_spec (tty_out conn) msg' Wo W') as (out' & Eo & _ & Co & _).
  { destruct W' as (_ & _ & ?). lia. }
  eexists. split.
  { unfold tx_msg, tx_msg_with. rewrite Hl, E. cbn [bind].
    unfold send_msg_with. rsimpl. rewrite Eo. reflexivity. }
  rsimpl. rewrite Co, C'. repeat (split; [reflexivity|]).
  unfold upd_client. rsimpl.
  change (map sock_out) with (fmap (M:=list) sock_out).
  rewrite (list_fmap_alter sock_out _ id) by (apply Forall_forall; reflexivity).
  now apply list_alter_id.
Qed.

Lemma find_cmd_from_bound l : forall i t j,
  find_cmd_from l i t = Some j -> (i <= j < i + length l)%nat.
Proof.
  induction l as [|m l IH]; intros i t j H; cbn [find_cmd_from] in H; [discriminate|].
  destruct (negb (msg_state m =? MSG_UNUSED) && is_cmd m && (tns m =? t)).
  - injection H as <-. cbn [length]. lia.
  - apply IH in H. cbn [length]. lia.
Qed.

Lemma msg_find_cmd_slot p j :
  msg_find_cmd p = Some j -> exists m, msgs p !! j = Some m.
Proof.
  intros H. apply find_cmd_from_bound in H. rewrite length_take in H.
  apply lookup_lt_is_Some. lia.
Qed.

(** The slot that [msg_find_cmd] returns is a command in use with the
    transaction number of the reply. *)
Lemma find_cmd_from_match l : forall i t j,
  find_cmd_from l i t = Some j ->
  exists m, l !! (j - i)%nat = Some m /\
            msg_state m <> MSG_UNUSED /\ is_cmd m = true /\ tns m = t.
Proof.
  induction l as [|m l IH]; intros i t j H; cbn [find_cmd_from] in H; [discriminate|].
  destruct (negb (msg_state m =? MSG_UNUSED) && is_cmd m && (tns m =? t)) eqn:E.
  - injection H as <-. exists m. rewrite Nat.sub_diag. split; [reflexivity|].
    apply andb_prop in E as [E Et]. apply andb_prop in E as [Es Ec].
    split; [|split; [exact Ec|now apply Z.eqb_eq]].
    apply negb_true_iff, Z.eqb_neq in Es. exact Es.
  - pose proof (find_cmd_from_bound _ _ _ _ H) as Hb.
    destruct (IH _ _ _ H) as (m' & Hl & Hm). exists m'. split; [|exact Hm].
    replace (j - i)%nat with (S (j - S i)) by lia. exact Hl.
Qed.

Lemma find_cmd_from_none l : forall i t,
  find_cmd_from l i t = None <->
  Forall (fun m => msg_state m = MSG_UNUSED \/ is_cmd m = false \/ tns m <> t) l.
Proof.
  induction l as [|m l IH]; intros i t; cbn [find_cmd_from].
  - split; [constructor|reflexivity].
  - destruct (Z.eqb_spec (msg_state m) MSG_UNUSED) as [Es|Es]; cbn [negb andb].
    { rewrite IH. split; [intros; constructor; auto|now inversion 1]. }
    destruct (is_cmd m) eqn:Ec; cbn [andb].
    2: { rewrite IH. split; [intros; constructor; auto|now inversion 1]. }
    destruct (Z.eqb_spec (tns m) t) as [Et|Et].
    + split; [discriminate|]. inversion 1 as [|? ? [?|[?|?]] ?]; congruence.
    + rewrite IH. split; [intros; constructor; auto|now inversion 1].
Qed.

Section ParseMsg.

Variable sts_text : BUF -> string.
Variable reply_handler : Z -> BUF -> DF1MSG -> string -> Z * BUF * DF1MSG * string.

(** C10.  A reply (bit 6 of the CMD byte set) is acknowledged whatever
    [msg_find_cmd] finds: [parse_msg] returns, and the socket output buffer
    then holds one more byte, ACK.  When no command in use carries the
    transaction number of the reply, that is all: the message slots and
    everything else are as before, and no notification function is
    called. *)
Theorem parse_msg_reply_acked (p : PCCC_PRIV) :
  msg_is_reply p = true ->
  buf_wf (p_sock_out p) -> (buf_len (p_sock_out p) < buf_max (p_sock_out p))%nat ->
  exists out p' called,
    buf_contents out = buf_contents (p_sock_out p) ++ [MSG_ACK] /\
    parse_msg sts_text reply_handler p = Ok (p', called) /\
    p_sock_out p' = out /\
    (msg_find_cmd p = None -> p' = set_p_sock_out out p /\ called = []).
Proof.
  intros Hr Wo Hroom.
  destruct (buf_append_byte_spec (p_sock_out p) MSG_ACK Wo Hroom)
    as (out & Ea & _ & Ca & _).
  rewrite u8_small in Ca by (unfold MSG_ACK; lia).
  exists out. unfold parse_msg. rewrite Hr, Ea. cbn [fst].
  destruct (msg_find_cmd p) as [j|] eqn:Ef.
  2: { do 2 eexists. split; [exact Ca|]. split; [reflexivity|].
       split; [now destruct p|]. intros _. split; reflexivity. }
  destruct (msg_find_cmd_slot p j Ef) as (m & Hm).
  replace (msgs (set_p_sock_out out p)) with (msgs p) by now destruct p.
  rewrite Hm.
  assert (Hso : forall q ms, p_sock_out (set_msgs ms q) = p_sock_out q)
    by (now intros []).
  assert (Hse : forall q e, p_sock_out (set_p_errstr e q) = p_sock_out q)
    by (now intros []).
  assert (Hsi : forall q b, p_sock_out (set_msg_in b q) = p_sock_out q)
    by (now intros []).
  assert (Hs0 : p_sock_out (set_p_sock_out out p) = out) by now destruct p.
  destruct (notify _) as [f|].
  2: { do 2 eexists. split; [exact Ca|]. split; [reflexivity|].
       split; [rewrite Hso; exact Hs0|discriminate]. }
  unfold sts_check.
  match goal with |- context [msg_get_sts ?b =? 0] => destruct (msg_get_sts b =? 0) end;
    cbn [Z.eqb negb].
  - match goal with |- context [reply ?x] => destruct (reply x) as [h|] end.
    + match goal with |- context [reply_handler ?a ?b ?c ?d] =>
        destruct (reply_handler a b c d) as [[[rc mi] m'] err] end.
      match goal with |- context [msg_state ?x =? MSG_CMD_DONE] =>
        destruct (msg_state x =? MSG_CMD_DONE) end;
        do 2 eexists; (split; [exact Ca|]); (split; [reflexivity|]);
        (split; [rewrite Hso, Hse, Hsi, Hsi; exact Hs0|discriminate]).
    + match goal with |- context [msg_state ?x =? MSG_CMD_DONE] =>
        destruct (msg_state x =? MSG_CMD_DONE) end;
        do 2 eexists; (split; [exact Ca|]); (split; [reflexivity|]);
        (split; [rewrite Hso, Hsi; exact Hs0|discriminate]).
  - match goal with |- context [msg_state ?x =? MSG_CMD_DONE] =>
      destruct (msg_state x =? MSG_CMD_DONE) end;
      do 2 eexists; (split; [exact Ca|]); (split; [reflexivity|]);
      (split; [rewrite Hso, Hse, Hsi; exact Hs0|discriminate]).
Qed.

End ParseMsg.

(** * Further properties of the code *)

(** ** Checksums *)

Lemma crc_low_byte_cleared crc :
  0 <= crc < 65536 -> Z.lxor crc (crc mod 256) = 256 * (crc / 256).
Proof.
  intros Hc. apply Z.bits_inj'. intros n Hn.
  rewrite Z.lxor_spec. change 256 with (2 ^ 8).
  rewrite (Z.mul_comm (2 ^ 8)).
  destruct (Z.lt_ge_cases n 8) as [Hlt|Hge].
  - rewrite Z.mod_pow2_bits_low, Z.mul_pow2_bits_low by lia. apply xorb_nilpotent.
  - rewrite Z.mod_pow2_bits_high, Z.mul_pow2_bits, Z.div_pow2_bits by lia.
    rewrite xorb_false_r. f_equal. lia.
Qed.

Lemma crc_shift_out_byte h :
  0 <= h < 256 -> Nat.iter 8 crc_shift (256 * h) = h.
Proof.
  intros Hh.
  assert (Hall : forallb (fun k => Nat.iter 8 crc_shift (256 * Z.of_nat k) =? Z.of_nat k)
                         (seq 0 256) = true) by (vm_compute; reflexivity).
  rewrite forallb_forall in Hall.
  specialize (Hall (Z.to_nat h)). rewrite Z2Nat.id in Hall by lia.
  apply Z.eqb_eq, Hall, in_seq. lia.
Qed.

(** Running [CRC_ADD] over the two bytes of the register itself, low byte
    first, leaves zero: a receiver that sums a frame together with its
    CRC bytes ends with the residue 0. *)
Theorem CRC_ADD_residue (crc : Z) :
  0 <= crc < 65536 ->
  CRC_ADD (CRC_ADD crc (crc mod 256)) (crc / 256) = 0.
Proof.
  intros Hc.
  assert (Hh : 0 <= crc / 256 < 256)
    by (split; [apply Z.div_pos; lia | apply Z.div_lt_upper_bound; lia]).
  assert (E1 : CRC_ADD crc (crc mod 256) = crc / 256).
  { unfold CRC_ADD. rewrite crc_low_byte_cleared, u16_small by lia.
    now apply crc_shift_out_byte. }
  rewrite E1. unfold CRC_ADD. rewrite Z.lxor_nilpotent. reflexivity.
Qed.

(** The payload bytes and the BCC that [tx_msg] appends add up to zero
    modulo 256. *)
Theorem tx_bcc_residue (B : list Z) :
  u8 (fold_right Z.add 0 B + tx_bcc B) = 0.
Proof.
  rewrite tx_bcc_spec. unfold bcc_spec, u8.
  rewrite Zplus_mod_idemp_r. replace (_ + - _) with 0 by lia. reflexivity.
Qed.

(** ** Buffers as queues *)

Lemma pending_app b b' l :
  buf_wf b -> buf_contents b' = buf_contents b ++ l -> buf_index b' = buf_index b ->
  buf_pending b' = buf_pending b ++ l.
Proof.
  intros Hwf Hc Hi. unfold buf_pending. rewrite Hc, Hi.
  apply drop_app_le. rewrite contents_length by assumption.
  destruct Hwf as (_ & ? & _). lia.
Qed.

(** A buffer is a bounded queue over the bytes not read yet.
    [buf_append_byte] puts a byte at the back while [len < max] and otherwise
    fails without touching the buffer, also when everything in it has been
    read: the space of bytes read is not used again.  [buf_get_byte] takes
    the byte at the front, and fails, leaving the destination as it was,
    when nothing is pending. *)
Theorem buf_bounded_fifo (b : BUF) :
  buf_wf b ->
  (forall x, (buf_len b < buf_max b)%nat ->
     exists b', buf_append_byte b x = (b', 0) /\ buf_wf b' /\
                buf_pending b' = buf_pending b ++ [u8 x]) /\
  (forall x, buf_len b = buf_max b -> buf_append_byte b x = (b, -1)) /\
  (forall d y l, buf_pending b = y :: l ->
     exists b', buf_get_byte b d = (b', 0, y) /\ buf_wf b' /\ buf_pending b' = l) /\
  (forall d, buf_pending b = [] -> buf_get_byte b d = (b, -1, d)).
Proof.
  intros Hwf. split; [|split; [|split]].
  - intros x Hroom.
    destruct (buf_append_byte_spec b x Hwf Hroom) as (b' & E & W & C & _ & I & _).
    exists b'. split; [exact E|]. split; [exact W|]. now apply pending_app.
  - intros x. apply buf_append_byte_full.
  - intros d y l Hp. destruct (buf_get_byte_spec b d y l Hwf Hp) as (E & W & P).
    eauto.
  - intros d Hp. apply buf_get_byte_end. now apply pending_nil_end.
Qed.

(** [buf_append_buf] copies everything the source holds, the bytes already
    read from it included, or nothing at all. *)
Theorem buf_append_buf_whole (dst src : BUF) :
  buf_wf dst -> buf_wf src ->
  ((buf_len dst + buf_len src <= buf_max dst)%nat ->
     exists dst', buf_append_buf dst src = (dst', 0) /\ buf_wf dst' /\
                  buf_pending dst' = buf_pending dst ++ buf_contents src) /\
  ((buf_max dst < buf_len dst + buf_len src)%nat ->
     buf_append_buf dst src = (dst, -1)).
Proof.
  intros Wd Ws. split.
  - intros Hroom.
    destruct (buf_append_buf_spec dst src Wd Ws Hroom) as (d' & E & W & C & I & _).
    exists d'. split; [exact E|]. split; [exact W|]. now apply pending_app.
  - apply buf_append_buf_full.
Qed.

(** [buf_write_ready] tells whether bytes are pending.  When [write()] takes
    [k] of them, [buf_write] moves the cursor on; when it takes them all,
    the buffer is emptied and its whole capacity is free again. *)
Theorem buf_write_progress (b : BUF) (k : nat) :
  buf_wf b -> (k <= length (buf_pending b))%nat ->
  (buf_write_ready b = true <-> buf_pending b <> []) /\
  ((k < length (buf_pending b))%nat ->
     buf_pending (buf_write b k) = drop k (buf_pending b) /\
     buf_contents (buf_write b k) = buf_contents b /\
     buf_write_ready (buf_write b k) = true) /\
  (k = length (buf_pending b) ->
     buf_write b k = buf_empty b /\ buf_write_ready (buf_write b k) = false).
Proof.
  intros Hwf Hk. pose proof (pending_length b Hwf) as Hlen.
  destruct Hwf as (Hd & Hi & Hl). split; [|split].
  - unfold buf_write_ready.
    destruct (Nat.eqb_spec (buf_len b) 0) as [E0|E0];
      destruct (Nat.eqb_spec (buf_index b) (buf_len b)) as [E1|E1]; cbn [negb andb];
      (split; [try discriminate; intros _ Hp; rewrite Hp in Hlen; simpl in Hlen; lia
              | intros Hp; try reflexivity; exfalso; apply Hp;
                apply length_zero_iff_nil; lia]).
  - intros Hlt. unfold buf_write. cbn [buf_index buf_len].
    destruct (Nat.eqb_spec (buf_index b + k) (buf_len b)) as [E|E]; [lia|].
    split; [|split].
    + unfold buf_pending, buf_contents. cbn [buf_index buf_len buf_data].
      rewrite drop_drop. reflexivity.
    + reflexivity.
    + unfold buf_write_ready. cbn [buf_index buf_len].
      destruct (Nat.eqb_spec (buf_len b) 0); [lia|].
      destruct (Nat.eqb_spec (buf_index b + k) (buf_len b)); [lia|]. reflexivity.
  - intros ->. unfold buf_write. cbn [buf_index buf_len].
    destruct (Nat.eqb_spec (buf_index b + length (buf_pending b)) (buf_len b)) as [E|E];
      [|lia].
    split; reflexivity.
Qed.

Lemma val16_mem16 bo w :
  0 <= w < 65536 -> val16 bo (fst (mem16 bo w)) (snd (mem16 bo w)) = w.
Proof.
  intros Hw.
  assert (Hh : (w / 256) mod 256 = w / 256).
  { apply Z.mod_small. split; [apply Z.div_pos; lia | apply Z.div_lt_upper_bound; lia]. }
  pose proof (Z.div_mod w 256).
  destruct bo; cbn [mem16 val16 fst snd]; rewrite Hh; lia.
Qed.

(** A word stored by [buf_append_word] is read back by [buf_get_word] as the
    same 16-bit value, on a host of either byte order; without room for two
    bytes nothing is stored. *)
Theorem buf_word_roundtrip (b : BUF) (w : Z) :
  buf_wf b ->
  ((buf_len b + 2 <= buf_max b)%nat ->
     exists b' x y,
       buf_append_word b w = (b', 0) /\ buf_wf b' /\
       buf_pending b' = buf_pending b ++ [x; y] /\
       forall src rest d,
         buf_wf src -> buf_pending src = [x; y] ++ rest ->
         buf_get_word src d = (buf_skip 2 src, 0, u16 w) /\
         buf_pending (buf_skip 2 src) = rest) /\
  ((buf_max b < buf_len b + 2)%nat -> buf_append_word b w = (b, -1)).
Proof.
  intros Hwf. split; [|apply buf_append_word_full].
  intros Hroom.
  destruct (buf_append_word_spec b w Hwf Hroom) as (b' & E & W & C & _ & I & _).
  exists b', (fst (mem16 BYTE_ORDER (u16 w))), (snd (mem16 BYTE_ORDER (u16 w))).
  split; [exact E|]. split; [exact W|]. split; [now apply pending_app|].
  intros src rest d Ws Hp.
  destruct (buf_get_word_spec src d _ _ _ Ws Hp) as (G & _ & P).
  rewrite G, val16_mem16 by (unfold u16; apply Z.mod_pos_bound; lia).
  split; [reflexivity|exact P].
Qed.

(** ** Link byte order *)

(** [htols] returns its argument on a host of either byte order: under
    [BIG_ENDIAN] it puts the two bytes together again as they lie in
    memory.  [ltohs] swaps the bytes on a big-endian host.  So only on a
    little-endian host does [buf_append_word (htols x)] put the low byte
    first, as the link wants it, and does [ltohs] undo [htols]. *)
Theorem htols_ltohs_by_host (x : Z) (b : BUF) :
  0 <= x < 65536 -> buf_wf b -> (buf_len b + 2 <= buf_max b)%nat ->
  htols x = x /\
  ltohs (htols x) =
    match BYTE_ORDER with
    | LITTLE_ENDIAN => x
    | BIG_ENDIAN => 256 * (x mod 256) + x / 256
    end /\
  buf_contents (fst (buf_append_word b (htols x))) =
    buf_contents b ++
    match BYTE_ORDER with
    | LITTLE_ENDIAN => [x mod 256; x / 256]
    | BIG_ENDIAN => [x / 256; x mod 256]
    end.
Proof.
  intros Hx Hwf Hroom.
  assert (Hh : (x / 256) mod 256 = x / 256).
  { apply Z.mod_small. split; [apply Z.div_pos; lia | apply Z.div_lt_upper_bound; lia]. }
  assert (Hd : 0 <= x / 256 < 256) by (rewrite <- Hh; apply Z.mod_pos_bound; lia).
  pose proof (Z.mod_pos_bound x 256 ltac:(lia)) as Hm.
  pose proof (Z.div_mod x 256 ltac:(lia)) as Hdm.
  assert (E : htols x = x).
  { unfold htols. destruct BYTE_ORDER; [reflexivity|].
    cbn [mem16]. rewrite Hh, Z.shiftl_mul_pow2 by lia. change (2 ^ 8) with 256.
    rewrite u16_small by lia. lia. }
  split; [exact E|]. rewrite E. split.
  - unfold ltohs. destruct BYTE_ORDER; [reflexivity|].
    cbn [mem16]. rewrite Hh, Z.shiftl_mul_pow2 by lia. change (2 ^ 8) with 256.
    rewrite u16_small by lia. lia.
  - destruct (buf_append_word_spec b x Hwf Hroom) as (b' & Ea & _ & C & _).
    rewrite Ea. cbn [fst]. rewrite C, u16_small by lia.
    destruct BYTE_ORDER; cbn [mem16 fst snd]; rewrite Hh; reflexivity.
Qed.

(** ** Receiver responses *)

Lemma append_dle_sym_room b sym :
  buf_wf b -> 0 <= sym < 256 ->
  ((buf_len b + 2 <= buf_max b)%nat ->
     buf_contents (fst (append_dle_sym b sym)) = buf_contents b ++ [SYM_DLE; sym] /\
     snd (append_dle_sym b sym) = false) /\
  ((buf_len b + 1 = buf_max b)%nat ->
     buf_contents (fst (append_dle_sym b sym)) = buf_contents b ++ [SYM_DLE] /\
     snd (append_dle_sym b sym) = true) /\
  (buf_len b = buf_max b -> append_dle_sym b sym = (b, true)).
Proof.
  intros Hwf Hs. unfold append_dle_sym. split; [|split].
  - intros Hroom.
    destruct (buf_append_byte_spec b SYM_DLE Hwf) as (b1 & E1 & W1 & C1 & L1 & _ & M1);
      [lia|].
    destruct (buf_append_byte_spec b1 sym W1) as (b2 & E2 & _ & C2 & _); [lia|].
    rewrite E1. cbn [Z.eqb negb]. rewrite E2. cbn [fst snd Z.eqb negb].
    rewrite C2, C1, <- app_assoc, !u8_small by (unfold SYM_DLE; lia).
    split; reflexivity.
  - intros Hroom.
    destruct (buf_append_byte_spec b SYM_DLE Hwf) as (b1 & E1 & W1 & C1 & L1 & _ & M1);
      [lia|].
    rewrite E1. cbn [Z.eqb negb].
    rewrite (buf_append_byte_full b1 sym) by lia. cbn [fst snd Z.eqb negb].
    rewrite C1, u8_small by (unfold SYM_DLE; lia). split; reflexivity.
  - intros Hfull. rewrite (buf_append_byte_full b SYM_DLE Hfull). reflexivity.
Qed.

Lemma rx_response_frame_ack_nak conn :
  buf_wf (tty_out conn) -> (buf_len (tty_out conn) + 2 <= buf_max (tty_out conn))%nat ->
  buf_contents (tty_out (rx_ack conn)) = buf_contents (tty_out conn) ++ [SYM_DLE; SYM_ACK] /\
  buf_contents (tty_out (rx_nak conn)) = buf_contents (tty_out conn) ++ [SYM_DLE; SYM_NAK].
Proof.
  intros Hwf Hroom.
  assert (Ha : 0 <= SYM_ACK < 256) by (unfold SYM_ACK; lia).
  assert (Hn : 0 <= SYM_NAK < 256) by (unfold SYM_NAK; lia).
  destruct (append_dle_sym_room _ SYM_ACK Hwf Ha) as ((A & _) & _); [exact Hroom|].
  destruct (append_dle_sym_room _ SYM_NAK Hwf Hn) as ((N & _) & _); [exact Hroom|].
  split; [exact A|exact N].
Qed.

(** [rx_ack] and [rx_nak] always leave the receiver idle with no client
    pending, record which response it was and count it, whether or not it
    could be sent.  The two bytes DLE ACK or DLE NAK go to the TTY when
    there is room for both; with room for one byte only, the DLE alone is
    put out; with none, nothing. *)
Theorem rx_response_by_room (conn : CONN) :
  buf_wf (tty_out conn) ->
  let out := tty_out conn in
  (rx_state (rx (rx_ack conn)) = RX_IDLE /\ rx_client (rx (rx_ack conn)) = None /\
   last_was_ack (rx (rx_ack conn)) = true /\
   acks_out (dcnts (rx_ack conn)) = uint_incr (acks_out (dcnts conn)) /\
   rx_state (rx (rx_nak conn)) = RX_IDLE /\ rx_client (rx (rx_nak conn)) = None /\
   last_was_ack (rx (rx_nak conn)) = false /\
   naks_out (dcnts (rx_nak conn)) = uint_incr (naks_out (dcnts conn))) /\
  ((buf_len out + 2 <= buf_max out)%nat ->
     buf_contents (tty_out (rx_ack conn)) = buf_contents out ++ [SYM_DLE; SYM_ACK] /\
     buf_contents (tty_out (rx_nak conn)) = buf_contents out ++ [SYM_DLE; SYM_NAK]) /\
  ((buf_len out + 1 = buf_max out)%nat ->
     buf_contents (tty_out (rx_ack conn)) = buf_contents out ++ [SYM_DLE] /\
     buf_contents (tty_out (rx_nak conn)) = buf_contents out ++ [SYM_DLE]) /\
  (buf_len out = buf_max out ->
     tty_out (rx_ack conn) = out /\ tty_out (rx_nak conn) = out).
Proof.
  intros Hwf out.
  assert (Ha : 0 <= SYM_ACK < 256) by (unfold SYM_ACK; lia).
  assert (Hn : 0 <= SYM_NAK < 256) by (unfold SYM_NAK; lia).
  destruct (append_dle_sym_room _ SYM_ACK Hwf Ha) as (A2 & A1 & A0).
  destruct (append_dle_sym_room _ SYM_NAK Hwf Hn) as (N2 & N1 & N0).
  split; [repeat split|]. split; [|split].
  - intros H. split; [apply (A2 H)|apply (N2 H)].
  - intros H. split; [apply (A1 H)|apply (N1 H)].
  - intros H. subst out. unfold rx_ack, rx_nak. rsimpl. rewrite (A0 H), (N0 H).
    split; reflexivity.
Qed.

(** An ENQ that arrives while a delivered message still waits for its
    client is answered with DLE ACK on the client's behalf: the receiver
    goes idle, the client's [rx_timeouts] is counted, and the answer that
    the client gives afterwards, ACK or NAK, changes nothing any more. *)
Theorem rx_enq_while_pending (conn : CONN) (c : nat) (cl : CLIENT) :
  rx_state (rx conn) = RX_PEND -> rx_client (rx conn) = Some c ->
  clients conn !! c = Some cl ->
  buf_wf (tty_out conn) -> (buf_len (tty_out conn) + 2 <= buf_max (tty_out conn))%nat ->
  exists conn',
    rx_enq conn = Ok conn' /\
    buf_contents (tty_out conn') = buf_contents (tty_out conn) ++ [SYM_DLE; SYM_ACK] /\
    rx_state (rx conn') = RX_IDLE /\ last_was_ack (rx conn') = true /\
    clients conn' !! c = Some (incr_rx_timeouts cl) /\
    rcv_ack conn' c = conn' /\ rcv_nak conn' c = conn'.
Proof.
  intros Hs Hc Hl Hwf Hroom. eexists. split.
  { unfold rx_enq. rewrite Hs, Hc, Hl. reflexivity. }
  assert (Ha : 0 <= SYM_ACK < 256) by (unfold SYM_ACK; lia).
  destruct (append_dle_sym_room _ SYM_ACK Hwf Ha) as ((A & _) & _); [exact Hroom|].
  split; [exact A|]. split; [reflexivity|]. split; [reflexivity|].
  split; [|split; reflexivity].
  unfold rx_ack, upd_client. rsimpl. now rewrite list_lookup_alter_eq, Hl.
Qed.

(** Outside [RX_PEND] an ENQ gets the last response again, and goes on
    getting it: [last_was_ack] is as before. *)
Theorem rx_enq_repeats_last (conn : CONN) :
  rx_state (rx conn) <> RX_PEND ->
  buf_wf (tty_out conn) -> (buf_len (tty_out conn) + 2 <= buf_max (tty_out conn))%nat ->
  exists conn',
    rx_enq conn = Ok conn' /\
    buf_contents (tty_out conn') =
      buf_contents (tty_out conn) ++
      [SYM_DLE; if last_was_ack (rx conn) then SYM_ACK else SYM_NAK] /\
    last_was_ack (rx conn') = last_was_ack (rx conn) /\
    rx_state (rx conn') = RX_IDLE /\
    tx conn' = tx conn /\ clients conn' = clients conn.
Proof.
  intros Hs Hwf Hroom.
  destruct (rx_response_frame_ack_nak conn Hwf Hroom) as [A N].
  exists (if last_was_ack (rx conn) then rx_ack conn else rx_nak conn). split.
  { unfold rx_enq. destruct (rx_state (rx conn)); try reflexivity. congruence. }
  destruct (last_was_ack (rx conn)); [rewrite A|rewrite N]; repeat split.
Qed.

(** ** Bytes outside and inside a frame *)

Lemma link_ignore_frame conn :
  rx_state (rx (link_ignore conn)) = rx_state (rx conn) /\
  read_sym (link_ignore conn) = read_sym conn /\
  tty_in (link_ignore conn) = tty_in conn /\
  tty_out (link_ignore conn) = tty_out conn /\
  tx (link_ignore conn) = tx conn /\ clients (link_ignore conn) = clients conn /\
  last_was_ack (rx (link_ignore conn)) = false /\
  bytes_ignored (dcnts (link_ignore conn)) = uint_incr (bytes_ignored (dcnts conn)).
Proof. destruct_conn conn. repeat split. Qed.

Lemma set_read_sym_same conn : read_sym conn = false -> set_read_sym false conn = conn.
Proof. destruct conn. cbn. now intros ->. Qed.

Lemma link_ignore_set_tty_in t conn :
  link_ignore (set_tty_in t conn) = set_tty_in t (link_ignore conn).
Proof. reflexivity. Qed.

Lemma iter_link_ignore_frame n : forall conn,
  rx_state (rx (Nat.iter n link_ignore conn)) = rx_state (rx conn) /\
  read_sym (Nat.iter n link_ignore conn) = read_sym conn /\
  tty_in (Nat.iter n link_ignore conn) = tty_in conn /\
  tty_out (Nat.iter n link_ignore conn) = tty_out conn /\
  tx (Nat.iter n link_ignore conn) = tx conn /\
  clients (Nat.iter n link_ignore conn) = clients conn.
Proof.
  induction n as [|n IH]; intros conn; [repeat split|].
  rewrite Nat.iter_succ.
  destruct (link_ignore_frame (Nat.iter n link_ignore conn))
    as (-> & -> & -> & -> & -> & -> & _).
  apply IH.
Qed.

Lemma iter_link_ignore_set_tty_in n t : forall conn,
  Nat.iter n link_ignore (set_tty_in t conn) = set_tty_in t (Nat.iter n link_ignore conn).
Proof.
  induction n as [|n IH]; intros conn; [reflexivity|].
  now rewrite !Nat.iter_succ, IH, link_ignore_set_tty_in.
Qed.

Lemma pending_skip k b : buf_pending (buf_skip k b) = drop k (buf_pending b).
Proof.
  unfold buf_pending, buf_contents, buf_skip. cbn [buf_index buf_len buf_data].
  rewrite drop_drop. f_equal. lia.
Qed.

Lemma parse_tty_loop_spurious l : forall n conn,
  rx_active (rx conn) = false -> read_sym conn = false ->
  buf_wf (tty_in conn) -> buf_pending (tty_in conn) = l ->
  Forall (fun x => x <> SYM_DLE) l -> (length l <= n)%nat ->
  parse_tty_loop n conn =
  Ok (set_tty_in (buf_skip (length l) (tty_in conn)) (Nat.iter (length l) link_ignore conn)).
Proof.
  induction l as [|x l IH]; intros n conn Ha Hr Hwf Hp Hl Hn.
  - rewrite parse_tty_loop_end by (auto; now apply pending_nil_end).
    cbn [length Nat.iter]. change (Nat.iter 0 link_ignore conn) with conn.
    rewrite buf_skip_0. now destruct conn.
  - destruct n as [|n]; [simpl in Hn; lia|].
    inversion Hl as [|? ? Hx Hl']; subst.
    destruct (buf_get_byte_spec _ 0 _ _ Hwf Hp) as (E & W1 & P1).
    cbn [parse_tty_loop]. rewrite Ha. cbn [bind]. rewrite E. cbn [negb Z.eqb].
    cbv zeta.
    replace (read_sym (set_tty_in (buf_skip 1 (tty_in conn)) conn)) with false
      by (symmetry; exact Hr).
    destruct (Z.eqb_spec x SYM_DLE) as [|_]; [contradiction|].
    rewrite link_ignore_set_tty_in.
    destruct (link_ignore_frame conn) as (Hs' & Hr' & Hi' & _).
    rewrite set_read_sym_same by (rsimpl; congruence).
    rewrite IH; rsimpl; try assumption; try (rewrite Hr'; exact Hr).
    + rewrite iter_link_ignore_set_tty_in, set_tty_in_twice, buf_skip_skip.
      cbn [length]. replace (length l + 1)%nat with (S (length l)) by lia.
      rewrite Nat.iter_succ_r. reflexivity.
    + simpl in Hn. lia.
Qed.

Lemma iter_link_ignore_count n : forall conn,
  bytes_ignored (dcnts (Nat.iter n link_ignore conn)) =
    Nat.iter n uint_incr (bytes_ignored (dcnts conn)) /\
  rx (Nat.iter n link_ignore conn) =
    match n with O => rx conn | S _ => rx_set_nak (rx conn) end.
Proof.
  induction n as [|n IH]; intros conn; [split; reflexivity|].
  rewrite !Nat.iter_succ. destruct (IH conn) as (Hb & Hrx).
  set (c := Nat.iter n link_ignore conn) in *.
  split.
  - unfold link_ignore. rsimpl. now rewrite Hb.
  - unfold link_ignore. rsimpl. rewrite Hrx. destruct n; [reflexivity|].
    now destruct (rx conn).
Qed.

Lemma iter_uint_incr n : forall x,
  0 <= x < 4294967296 -> Nat.iter n uint_incr x = (x + Z.of_nat n) mod 4294967296.
Proof.
  induction n as [|n IH]; intros x Hx.
  - cbn [Nat.iter Z.of_nat]. change (Nat.iter 0 uint_incr x) with x.
    rewrite Z.add_0_r, Z.mod_small; lia.
  - rewrite Nat.iter_succ, IH by assumption. unfold uint_incr, u32.
    rewrite Zplus_mod_idemp_l. f_equal. lia.
Qed.

(** Bytes that reach an idle link outside a frame and are not DLE are
    dropped one by one: each is counted in [bytes_ignored] and makes the
    answer to the next ENQ a NAK; nothing is sent, and the transmitter, the
    receiver state and the clients stay as they are. *)
Theorem tty_input_spurious (conn : CONN) (l : list Z) :
  rx_active (rx conn) = false -> read_sym conn = false ->
  length (buf_data (tty_in conn)) = buf_max (tty_in conn) ->
  (0 < length l <= buf_max (tty_in conn))%nat ->
  Forall (fun x => x <> SYM_DLE) l ->
  0 <= bytes_ignored (dcnts conn) < 4294967296 ->
  exists conn',
    tty_input conn l = Ok conn' /\
    buf_pending (tty_in conn') = [] /\
    bytes_ignored (dcnts conn') =
      (bytes_ignored (dcnts conn) + Z.of_nat (length l)) mod 4294967296 /\
    rx conn' = rx_set_nak (rx conn) /\
    tty_out conn' = tty_out conn /\ tx conn' = tx conn /\
    clients conn' = clients conn /\ read_sym conn' = false.
Proof.
  intros Ha Hr Hd Hlen Hl Hb.
  destruct (buf_read_spec (tty_in conn) l Hd ltac:(lia)) as (Wr & Pr & Lr & _).
  unfold tty_input, parse_tty_data, tty_read. rsimpl.
  rewrite (parse_tty_loop_spurious l); rsimpl; try assumption.
  2: { rewrite <- pending_length by assumption. rewrite Pr. lia. }
  eexists. split; [reflexivity|]. rsimpl.
  set (c0 := set_tty_in (buf_read (tty_in conn) l) conn).
  destruct (iter_link_ignore_frame (length l) c0) as (_ & Hrs & _ & Ho & Ht & Hc).
  destruct (iter_link_ignore_count (length l) c0) as (Hcnt & Hrx).
  split.
  { rewrite pending_skip, Pr. apply drop_all. }
  split; [rewrite Hcnt; now apply iter_uint_incr|].
  split; [rewrite Hrx; destruct (length l) eqn:E; [lia|reflexivity]|].
  split; [exact Ho|]. split; [exact Ht|]. split; [exact Hc|]. rewrite Hrs. exact Hr.
Qed.

(** A byte that may not follow DLE inside a frame: neither DLE, ETX, ACK
    nor NAK. *)
Lemma add_to_app_bad_escape conn x :
  prev_dle (rx conn) = true ->
  x <> SYM_ETX -> x <> SYM_DLE -> x <> SYM_ACK -> x <> SYM_NAK ->
  add_to_app conn x = Ok (upd_rx rx_set_nak conn).
Proof.
  intros Hp H1 H2 H3 H4. unfold add_to_app. rewrite Hp.
  destruct (Z.eqb_spec x SYM_ETX); [contradiction|].
  destruct (Z.eqb_spec x SYM_DLE); [contradiction|].
  destruct (Z.eqb_spec x SYM_ACK); [contradiction|].
  destruct (Z.eqb_spec x SYM_NAK); [contradiction|]. reflexivity.
Qed.

Lemma rx_msg_loop_none n conn :
  buf_index (tty_in conn) = buf_len (tty_in conn) -> rx_msg_loop n conn = Ok conn.
Proof.
  intros He. destruct n; cbn [rx_msg_loop]; rewrite buf_get_byte_end by assumption;
    reflexivity.
Qed.

Lemma rx_msg_loop_dropped l : forall n conn,
  rx_state (rx conn) = RX_APP -> prev_dle (rx conn) = true ->
  buf_wf (tty_in conn) -> buf_pending (tty_in conn) = l ->
  Forall (fun x => x <> SYM_ETX /\ x <> SYM_DLE /\ x <> SYM_ACK /\ x <> SYM_NAK) l ->
  (length l <= n)%nat ->
  rx_msg_loop n conn =
  Ok (set_tty_in (buf_skip (length l) (tty_in conn))
        (match l with [] => conn | _ :: _ => upd_rx rx_set_nak conn end)).
Proof.
  induction l as [|x l IH]; intros n conn Hs Hp Hwf Hpend Hl Hn.
  - rewrite rx_msg_loop_none by now apply pending_nil_end.
    cbn [length]. rewrite buf_skip_0. now destruct conn.
  - destruct n as [|n]; [simpl in Hn; lia|].
    inversion Hl as [|? ? (H1 & H2 & H3 & H4) Hl']; subst.
    destruct (buf_get_byte_spec _ 0 _ _ Hwf Hpend) as (_ & W1 & P1).
    rewrite (rx_msg_loop_app n conn x l Hwf Hpend Hs).
    rewrite add_to_app_bad_escape by (rsimpl; assumption). cbn [bind].
    rewrite IH; rsimpl; try assumption; try (simpl in Hn; lia).
    rewrite buf_skip_skip. cbn [length].
    replace (length l + 1)%nat with (S (length l)) by lia.
    destruct l; reflexivity.
Qed.

(** An invalid pair inside a frame swallows what follows.  After a DLE
    that is followed by an ordinary byte the receiver keeps the DLE in
    mind: this byte and every ordinary byte behind it is dropped, neither
    stored nor summed, until a DLE, ETX, ACK or NAK comes.  Only
    [last_was_ack] is cleared. *)
Theorem rx_msg_drops_after_bad_escape (conn : CONN) (l : list Z) :
  rx_state (rx conn) = RX_APP -> prev_dle (rx conn) = false ->
  buf_wf (tty_in conn) -> buf_pending (tty_in conn) = SYM_DLE :: l -> l <> [] ->
  Forall (fun x => x <> SYM_ETX /\ x <> SYM_DLE /\ x <> SYM_ACK /\ x <> SYM_NAK) l ->
  exists conn',
    rx_msg conn = Ok conn' /\
    buf_pending (tty_in conn') = [] /\
    rx_state (rx conn') = RX_APP /\ prev_dle (rx conn') = true /\
    rx_app (rx conn') = rx_app (rx conn) /\ acc_cs (rx conn') = acc_cs (rx conn) /\
    last_was_ack (rx conn') = false /\
    tty_out conn' = tty_out conn /\ dcnts conn' = dcnts conn.
Proof.
  intros Hs Hp Hwf Hpend Hne Hl.
  destruct (buf_get_byte_spec _ 0 _ _ Hwf Hpend) as (_ & W1 & P1).
  pose proof (pending_length _ Hwf) as Hlen. rewrite Hpend in Hlen. cbn [length] in Hlen.
  eexists. split.
  { unfold rx_msg. rewrite Hs. rewrite <- Hlen.
    rewrite (rx_msg_loop_app _ conn SYM_DLE l Hwf Hpend Hs).
    rewrite add_to_app_dle1 by (rsimpl; assumption). cbn [bind].
    rewrite (rx_msg_loop_dropped l); rsimpl; try assumption; try lia.
    destruct l; [contradiction|]. reflexivity. }
  rsimpl. split; [rewrite pending_skip, P1; apply drop_all|].
  repeat split; assumption.
Qed.

(** ** The arbitrator: whose message goes next *)

Lemma next_client_mod len start k :
  (start < len)%nat ->
  (if (S ((start + k) mod len) <? len)%nat then S ((start + k) mod len) else 0%nat)
  = ((start + S k) mod len)%nat.
Proof.
  intros Hs. assert (Hlen : len <> 0%nat) by lia.
  pose proof (Nat.mod_upper_bound (start + k) len Hlen) as Hm.
  pose proof (Nat.div_mod (start + k) len Hlen) as Hdm.
  destruct (Nat.ltb_spec (S ((start + k) mod len)) len) as [Hlt|Hge].
  - apply (Nat.mod_unique _ _ ((start + k) / len)); lia.
  - apply (Nat.mod_unique _ _ (S ((start + k) / len))); lia.
Qed.

(** [find_ready] goes round from [start] and stops at the first client
    that has a message ready. *)
Lemma find_ready_first cls start j : forall n k,
  (start < length cls)%nat -> (j < length cls)%nat -> (k <= j)%nat ->
  (j - k < n)%nat ->
  (forall i cl, (k <= i < j)%nat -> cls !! ((start + i) mod length cls)%nat = Some cl ->
                client_state cl <> CLIENT_MSG_READY) ->
  (exists cl, cls !! ((start + j) mod length cls)%nat = Some cl /\
              client_state cl = CLIENT_MSG_READY) ->
  find_ready n cls ((start + k) mod length cls)%nat start
  = Ok (Some ((start + j) mod length cls)%nat).
Proof.
  induction n as [|n IH]; intros k Hs Hj Hk Hn Hnot Hrdy; [lia|].
  cbn [find_ready].
  assert (Hlen : length cls <> 0%nat) by lia.
  destruct (lookup_lt_is_Some_2 cls ((start + k) mod length cls)
              (Nat.mod_upper_bound _ _ Hlen)) as [cl Hl].
  rewrite Hl.
  destruct (Nat.eq_dec k j) as [->|Hne].
  - destruct Hrdy as (cl' & Hl' & Hst). rewrite Hl in Hl'. injection Hl' as <-.
    now rewrite Hst.
  - assert (Hst : client_state cl <> CLIENT_MSG_READY) by (apply (Hnot k); [lia|exact Hl]).
    rewrite next_client_mod by assumption.
    assert (Hgo : (if ((start + S k) mod length cls =? start)%nat then Ok None
                   else find_ready n cls ((start + S k) mod length cls)%nat start)
                  = Ok (Some ((start + j) mod length cls)%nat)).
    { destruct (Nat.eqb_spec ((start + S k) mod length cls) start) as [E|_].
      - exfalso.
        assert (Hk1 : (S k < length cls)%nat) by lia.
        destruct (Nat.lt_ge_cases (start + S k) (length cls)) as [Hlt|Hge].
        + rewrite Nat.mod_small in E by lia. lia.
        + assert (E' : ((start + S k) mod length cls = start + S k - length cls)%nat).
          { symmetry. apply (Nat.mod_unique _ _ 1); lia. }
          lia.
      - apply IH; auto; try lia. intros i cl0 Hi. apply Hnot. lia. }
    destruct (client_state cl); try exact Hgo. contradiction.
Qed.

Lemma find_next_tx_fuel_no_ready fuel conn start_client :
  no_ready (clients conn) ->
  match start_client with Some s => (s < length (clients conn))%nat | None => True end ->
  find_next_tx_fuel (S fuel) conn start_client = Ok conn.
Proof.
  intros Hnr Hs. cbn [find_next_tx_fuel].
  destruct (tx_busy (tx conn)); [reflexivity|].
  destruct (clients conn) as [|cl0 cls] eqn:Ecl; [reflexivity|].
  set (start := match start_client with Some s => s | None => _ end).
  assert (Hst : (start < length (cl0 :: cls))%nat).
  { unfold start. destruct start_client as [s|]; [exact Hs|].
    destruct (tx_client (tx conn)) as [c|]; [|simpl; lia].
    destruct (Nat.ltb_spec (S c) (length (cl0 :: cls))); simpl in *; lia. }
  rewrite find_ready_none; auto.
  destruct (Nat.ltb_spec start start); lia.
Qed.

(** A frame that fits is submitted without a call of the arbitrator. *)
Lemma tx_msg_with_fits next conn c cl B :
  clients conn !! c = Some cl ->
  buf_wf (df1_tx cl) -> buf_pending (df1_tx cl) = B -> Forall is_byte B ->
  buf_wf (tx_buf (tx conn)) -> buf_len (tx_buf (tx conn)) = 0%nat ->
  (length (df1_frame (use_crc conn) B) <= buf_max (tx_buf (tx conn)))%nat ->
  buf_wf (tty_out conn) ->
  (buf_len (tty_out conn) + length (df1_frame (use_crc conn) B)
   <= buf_max (tty_out conn))%nat ->
  exists msg' out',
    tx_msg_with next conn c =
      Ok (incr_tx_attempts
            (set_tty_out out'
               (upd_tx (set_tx_state TX_PEND_MSG_TX)
                  (upd_tx (set_tx_client (Some c))
                     (upd_tx (set_tx_buf msg')
                        (upd_client c (set_df1_tx (buf_skip (length B) (df1_tx cl)))
                                    conn)))))) /\
    buf_contents msg' = df1_frame (use_crc conn) B /\
    buf_contents out' = buf_contents (tty_out conn) ++ df1_frame (use_crc conn) B.
Proof.
  intros Hl Hwf Hp HB Hm Hm0 Hfit Ho Hofit.
  destruct (tx_msg_frame_fits (use_crc conn) _ _ B Hwf Hp HB Hm)
    as (msg' & E & W & C & M & I & L); [lia|].
  assert (Hc0 : buf_contents (tx_buf (tx conn)) = []).
  { unfold buf_contents. rewrite Hm0. apply take_0. }
  rewrite Hc0 in C. cbn [app] in C. rewrite Hm0 in L. cbn [Nat.add] in L.
  destruct (buf_append_buf_spec (tty_out conn) msg' Ho W) as (out' & Eo & Wo & Co & Io & Mo);
    [lia|].
  exists msg', out'. split; [|split; [exact C|congruence]].
  unfold tx_msg_with. rewrite Hl, E. cbn [bind].
  unfold send_msg_with. rsimpl. rewrite Eo. reflexivity.
Qed.

Lemma find_next_tx_fuel_idle fuel conn start_client :
  tx_state (tx conn) = TX_IDLE -> clients conn <> [] ->
  find_next_tx_fuel (S fuel) conn start_client =
  let start :=
    match start_client with
    | Some s => s
    | None =>
        match tx_client (tx conn) with
        | None => O
        | Some c => if (S c <? length (clients conn))%nat then S c else O
        end
    end in
  let* found := find_ready (length (clients conn)) (clients conn) start start in
  match found with
  | None => Ok conn
  | Some client =>
      let* conn := tx_msg_with (find_next_tx_fuel fuel) conn client in
      let conn := upd_client client (fun c => set_df1_tx (buf_empty (df1_tx c)) c) conn in
      let conn := upd_client client (set_client_state CLIENT_MSG_PEND) conn in
      Ok (upd_client client incr_cl_tx_attempts conn)
  end.
Proof.
  intros Hidle Hne. cbn [find_next_tx_fuel]. unfold tx_busy. rewrite Hidle.
  destruct (clients conn); [contradiction|reflexivity].
Qed.

(** Round robin.  With the transmitter idle, [find_next_tx conn NULL] looks
    at the clients in turn, beginning behind the one served last (at the
    first one, when none was served or the last one is at the end of the
    list), and submits the message of the first client it finds in
    [CLIENT_MSG_READY]: the frame goes to the TTY, the transmitter is busy
    for that client, the client is in [CLIENT_MSG_PEND] with its message
    buffer emptied, and no other client is touched. *)
Theorem find_next_tx_round_robin (conn : CONN) (j : nat) (cl : CLIENT) (B : list Z) :
  let len := length (clients conn) in
  let start :=
    match tx_client (tx conn) with
    | None => 0%nat
    | Some c0 => if (S c0 <? len)%nat then S c0 else 0%nat
    end in
  let c := ((start + j) mod len)%nat in
  tx_state (tx conn) = TX_IDLE -> (j < len)%nat ->
  (forall i cl', (i < j)%nat -> clients conn !! ((start + i) mod len)%nat = Some cl' ->
                 client_state cl' <> CLIENT_MSG_READY) ->
  clients conn !! c = Some cl -> client_state cl = CLIENT_MSG_READY ->
  buf_wf (df1_tx cl) -> buf_pending (df1_tx cl) = B -> Forall is_byte B ->
  buf_wf (tx_buf (tx conn)) -> buf_len (tx_buf (tx conn)) = 0%nat ->
  (length (df1_frame (use_crc conn) B) <= buf_max (tx_buf (tx conn)))%nat ->
  buf_wf (tty_out conn) ->
  (buf_len (tty_out conn) + length (df1_frame (use_crc conn) B)
   <= buf_max (tty_out conn))%nat ->
  exists conn' cl',
    find_next_tx conn None = Ok conn' /\
    tx_state (tx conn') = TX_PEND_MSG_TX /\ tx_client (tx conn') = Some c /\
    buf_contents (tx_buf (tx conn')) = df1_frame (use_crc conn) B /\
    buf_contents (tty_out conn') =
      buf_contents (tty_out conn) ++ df1_frame (use_crc conn) B /\
    clients conn' !! c = Some cl' /\
    client_state cl' = CLIENT_MSG_PEND /\ buf_len (df1_tx cl') = 0%nat /\
    sock_out cl' = sock_out cl /\
    cl_tx_attempts (client_dcnts cl') = uint_incr (cl_tx_attempts (client_dcnts cl)) /\
    forall i, i <> c -> clients conn' !! i = clients conn !! i.
Proof.
  intros len start c Hidle Hj Hnot Hl Hst Wd Hp HB Wm Hm0 Hfit Wo Hroom.
  assert (Hs : (start < len)%nat).
  { unfold start. destruct (tx_client (tx conn)) as [c0|]; [|lia].
    destruct (Nat.ltb_spec (S c0) len); lia. }
  destruct (tx_msg_with_fits (find_next_tx_fuel len) conn c cl B)
    as (msg' & out' & E & Cm & Co); try assumption.
  assert (Hfind : find_ready len (clients conn) start start = Ok (Some c)).
  { replace start with ((start + 0) mod len)%nat at 1
      by (rewrite Nat.add_0_r; apply Nat.mod_small; exact Hs).
    apply (find_ready_first (clients conn) start j); fold len; try lia.
    - intros i cl0 Hi. apply Hnot. lia.
    - exists cl. split; assumption. }
  eexists. eexists. split.
  { unfold find_next_tx.
    rewrite find_next_tx_fuel_idle; [|exact Hidle|].
    2: { intros Hnil. unfold len in Hj. rewrite Hnil in Hj. simpl in Hj. lia. }
    cbv zeta. fold len. fold start. rewrite Hfind. cbn [bind].
    rewrite E. cbn [bind]. reflexivity. }
  unfold upd_client. rsimpl.
  split; [reflexivity|]. split; [reflexivity|]. split; [exact Cm|]. split; [exact Co|].
  split; [rewrite !list_lookup_alter_eq, Hl; reflexivity|].
  split; [reflexivity|]. split; [reflexivity|]. split; [reflexivity|].
  split; [reflexivity|].
  intros i Hi. now rewrite !list_lookup_alter_ne by congruence.
Qed.

Lemma mod_offsets_differ len start i j :
  (0 < len)%nat -> (i < j < len)%nat -> ((start + i) mod len <> (start + j) mod len)%nat.
Proof.
  intros Hlen Hij E.
  pose proof (Nat.div_mod (start + i) len ltac:(lia)) as Hi.
  pose proof (Nat.div_mod (start + j) len ltac:(lia)) as Hj.
  rewrite E in Hi.
  assert (Hd : (j - i = len * ((start + j) / len - (start + i) / len))%nat) by nia.
  destruct ((start + j) / len - (start + i) / len)%nat; nia.
Qed.

(** A submission that the TTY cannot take.  When the frame of the client
    found does not fit into the TTY output buffer, [send_msg] fails the
    message at once: the client gets the NAK byte and the transmitter is
    idle again, [dcnts.tx_fail] is not counted.  [find_next_tx] then goes on
    as after a submission: it sets the client to [CLIENT_MSG_PEND], the
    state of a client whose message the transmitter holds. *)
Theorem find_next_tx_tty_full (conn : CONN) (j : nat) (cl : CLIENT) (B : list Z) :
  let len := length (clients conn) in
  let start :=
    match tx_client (tx conn) with
    | None => 0%nat
    | Some c0 => if (S c0 <? len)%nat then S c0 else 0%nat
    end in
  let c := ((start + j) mod len)%nat in
  tx_state (tx conn) = TX_IDLE -> (j < len)%nat ->
  clients conn !! c = Some cl -> client_state cl = CLIENT_MSG_READY ->
  (forall i cl', i <> c -> clients conn !! i = Some cl' ->
                 client_state cl' <> CLIENT_MSG_READY) ->
  buf_wf (df1_tx cl) -> buf_pending (df1_tx cl) = B -> Forall is_byte B ->
  buf_wf (tx_buf (tx conn)) -> buf_len (tx_buf (tx conn)) = 0%nat ->
  (length (df1_frame (use_crc conn) B) <= buf_max (tx_buf (tx conn)))%nat ->
  (buf_max (tty_out conn) < buf_len (tty_out conn) + length (df1_frame (use_crc conn) B))%nat ->
  buf_wf (sock_out cl) -> (buf_len (sock_out cl) < buf_max (sock_out cl))%nat ->
  exists conn' cl',
    find_next_tx conn None = Ok conn' /\
    tx_state (tx conn') = TX_IDLE /\ tty_out conn' = tty_out conn /\
    clients conn' !! c = Some cl' /\
    client_state cl' = CLIENT_MSG_PEND /\
    buf_contents (sock_out cl') = buf_contents (sock_out cl) ++ [MSG_NAK] /\
    tx_fail (dcnts conn') = tx_fail (dcnts conn) /\
    tx_attempts (dcnts conn') = uint_incr (tx_attempts (dcnts conn)).
Proof.
  intros len start c Hidle Hj Hl Hst Hoth Wd Hp HB Wm Hm0 Hfit Hfull Ws Hsroom.
  assert (Hlen : (0 < len)%nat) by lia.
  assert (Hne : clients conn <> []).
  { intros Hnil. unfold len in Hlen. rewrite Hnil in Hlen. simpl in Hlen. lia. }
  assert (Hs : (start < len)%nat).
  { unfold start. destruct (tx_client (tx conn)) as [c0|]; [|lia].
    destruct (Nat.ltb_spec (S c0) len); lia. }
  assert (Hfind : find_ready len (clients conn) start start = Ok (Some c)).
  { replace start with ((start + 0) mod len)%nat at 1
      by (rewrite Nat.add_0_r; apply Nat.mod_small; exact Hs).
    apply (find_ready_first (clients conn) start j); fold len; try lia.
    - intros i cl0 Hi. apply Hoth. apply mod_offsets_differ; lia.
    - exists cl. split; assumption. }
  destruct (tx_msg_frame_fits (use_crc conn) _ _ B Wd Hp HB Wm)
    as (msg' & E & W & C & M & Im & L); [lia|].
  rewrite Hm0 in L. cbn [Nat.add] in L.
  destruct (buf_append_byte_spec (sock_out cl) MSG_NAK Ws Hsroom)
    as (so & Es & _ & Cs & _).
  rewrite u8_small in Cs by (unfold MSG_NAK; lia).
  set (conn1 :=
         upd_client c incr_cl_tx_fail
           (upd_client c (set_client_state CLIENT_IDLE)
              (upd_client c (set_sock_out so)
                 (upd_tx flush_msg
                    (upd_tx (set_tx_state TX_PEND_MSG_TX)
                       (upd_tx (set_tx_client (Some c))
                          (upd_tx (set_tx_buf msg')
                             (upd_client c (set_df1_tx (buf_skip (length B) (df1_tx cl)))
                                conn)))))))).
  assert (Hnr : no_ready (clients conn1)).
  { unfold no_ready. rewrite Forall_lookup. intros i cl0 Hi.
    unfold conn1, upd_client in Hi. rsimpl_in Hi.
    destruct (Nat.eq_dec i c) as [->|Hic].
    - rewrite !list_lookup_alter_eq, Hl in Hi. injection Hi as <-. discriminate.
    - rewrite !list_lookup_alter_ne in Hi by congruence. exact (Hoth i cl0 Hic Hi). }
  assert (Hnext : find_next_tx_fuel len conn1 None = Ok conn1).
  { replace len with (S (Nat.pred len)) by lia.
    apply find_next_tx_fuel_no_ready; [exact Hnr|exact I]. }
  assert (Etx : tx_msg_with (find_next_tx_fuel len) conn c = Ok (incr_tx_attempts conn1)).
  { unfold tx_msg_with. rewrite Hl, E. cbn [bind].
    unfold send_msg_with. rsimpl.
    rewrite buf_append_buf_full by lia. cbn [Z.eqb negb].
    unfold client_msg_tx_fail_with. unfold flush_msg at 1 2. rsimpl.
    unfold upd_client at 1. rsimpl. rewrite list_lookup_alter_eq, Hl. cbn [fmap option_fmap option_map].
    rsimpl. rewrite Es. cbn [fst]. fold conn1.
    match goal with |- context [find_next_tx_fuel len ?x None] => change x with conn1 end.
    rewrite Hnext. reflexivity. }
  eexists. eexists. split.
  { unfold find_next_tx. rewrite find_next_tx_fuel_idle by assumption.
    cbv zeta. fold len. fold start. rewrite Hfind. cbn [bind].
    rewrite Etx. cbn [bind]. reflexivity. }
  unfold conn1, upd_client. rsimpl.
  split; [reflexivity|]. split; [reflexivity|].
  split; [rewrite !list_lookup_alter_eq, Hl; reflexivity|].
  split; [reflexivity|]. split; [exact Cs|]. split; reflexivity.
Qed.

(** ** The peer's ACK *)

(** A DLE ACK while the transmitter waits for a response completes the
    message: the transmitter is flushed and idle, [tx_success] is counted,
    the client gets the byte ACK on its socket and is idle again, and the
    arbitrator is asked for the next message (with no client ready the
    connection stays like this).  An ACK in any other transmitter state is
    not acted on: the transmitter, the TTY output and the clients stay as
    they are, the two bytes are counted as ignored and [last_was_ack] is
    cleared. *)
Theorem tx_ack_completes (conn : CONN) :
  (tx_state (tx conn) = TX_PEND_RESP ->
   forall c cl,
     tx_client (tx conn) = Some c -> clients conn !! c = Some cl ->
     buf_wf (sock_out cl) -> (buf_len (sock_out cl) < buf_max (sock_out cl))%nat ->
     exists so done,
       buf_contents so = buf_contents (sock_out cl) ++ [MSG_ACK] /\
       clients done !! c =
         Some (incr_cl_tx_success (set_client_state CLIENT_IDLE (set_sock_out so cl))) /\
       (forall i, i <> c -> clients done !! i = clients conn !! i) /\
       tx_state (tx done) = TX_IDLE /\
       nak_cnt (tx done) = 0 /\ enq_cnt (tx done) = 0 /\
       buf_contents (tx_buf (tx done)) = [] /\
       tx_success (dcnts done) = uint_incr (tx_success (dcnts conn)) /\
       tty_out done = tty_out conn /\
       tx_ack conn = find_next_tx done None /\
       (no_ready (clients conn) -> tx_ack conn = Ok done)) /\
  (tx_state (tx conn) <> TX_PEND_RESP ->
   exists conn',
     tx_ack conn = Ok conn' /\
     tx conn' = tx conn /\ tty_out conn' = tty_out conn /\
     clients conn' = clients conn /\
     rx conn' = set_last_was_ack false (rx conn) /\
     bytes_ignored (dcnts conn') = u32 (bytes_ignored (dcnts conn) + 2)).
Proof.
  split.
  - intros Hs c cl Hc Hl Wc Hroom.
    destruct (buf_append_byte_spec (sock_out cl) MSG_ACK Wc Hroom)
      as (so & Es & _ & Cs & _).
    rewrite u8_small in Cs by (unfold MSG_ACK; lia).
    set (done := upd_client c incr_cl_tx_success
                   (upd_client c (set_client_state CLIENT_IDLE)
                      (upd_client c (set_sock_out so)
                         (incr_tx_success (upd_tx flush_msg conn))))).
    assert (Et : tx_ack conn = find_next_tx done None).
    { unfold tx_ack. rewrite Hs. unfold client_msg_tx_ok, client_msg_tx_ok_with.
      unfold flush_msg at 1 2. rsimpl. rewrite Hc, Hl, Es. reflexivity. }
    exists so, done. split; [exact Cs|].
    split; [unfold done, upd_client; rsimpl; rewrite !list_lookup_alter_eq, Hl; reflexivity|].
    split; [intros i Hi; unfold done, upd_client; rsimpl;
            now rewrite !list_lookup_alter_ne by congruence|].
    split; [reflexivity|]. split; [reflexivity|]. split; [reflexivity|].
    split; [unfold done, upd_client, flush_msg, buf_empty, buf_contents; rsimpl; apply take_0|].
    split; [reflexivity|]. split; [reflexivity|]. split; [exact Et|].
    intros Hnr. rewrite Et. apply find_next_tx_no_ready; [|exact I].
    unfold done, upd_client. rsimpl.
    repeat apply no_ready_alter; auto; intros cl0 H; rsimpl; try exact H; discriminate.
  - intros Hs. eexists. split.
    + unfold tx_ack. destruct (tx_state (tx conn)); try reflexivity. congruence.
    + repeat split.
Qed.

(** ** The message pool of the library *)

Lemma get_free_from_spec l : forall i0,
  match get_free_from l i0 with
  | Some i =>
      (i0 <= i < i0 + length l)%nat /\
      (exists m, l !! (i - i0)%nat = Some m /\ msg_state m = MSG_UNUSED) /\
      (forall k m, (k < i - i0)%nat -> l !! k = Some m -> msg_state m <> MSG_UNUSED)
  | None => Forall (fun m => msg_state m <> MSG_UNUSED) l
  end.
Proof.
  induction l as [|m l IH]; intros i0; cbn [get_free_from]; [constructor|].
  destruct (Z.eqb_spec (msg_state m) MSG_UNUSED) as [E|E].
  - split; [cbn [length]; lia|]. rewrite Nat.sub_diag. split; [now exists m|].
    intros k m' Hk. lia.
  - specialize (IH (S i0)). destruct (get_free_from l (S i0)) as [i|].
    + destruct IH as (Hb & (m' & Hl & Hs) & Hbefore).
      split; [cbn [length]; lia|].
      replace (i - i0)%nat with (S (i - S i0)) by lia. split; [now exists m'|].
      intros [|k] m'' Hk Hlk; [injection Hlk as <-; exact E|].
      apply (Hbefore k); [lia|exact Hlk].
    + constructor; assumption.
Qed.

(** [msg_get_free] hands out the first unused slot of the pool and marks it
    [MSG_PEND]; no other slot changes.  It returns nothing exactly when
    every slot is in use.  A slot handed out is not handed out again: the
    next call returns a later slot. *)
Theorem msg_get_free_first_unused (p : PCCC_PRIV) :
  (num_msgs p <= length (msgs p))%nat ->
  match msg_get_free p with
  | (p', Some i) =>
      (i < num_msgs p)%nat /\
      (exists m, msgs p !! i = Some m /\ msg_state m = MSG_UNUSED /\
                 msgs p' !! i = Some (set_msg_state MSG_PEND m)) /\
      (forall k m, (k < i)%nat -> msgs p !! k = Some m -> msg_state m <> MSG_UNUSED) /\
      (forall k, k <> i -> msgs p' !! k = msgs p !! k) /\
      match snd (msg_get_free p') with
      | Some k => (i < k)%nat
      | None => True
      end
  | (p', None) =>
      p' = p /\
      forall k m, (k < num_msgs p)%nat -> msgs p !! k = Some m -> msg_state m <> MSG_UNUSED
  end.
Proof.
  intros Hn. unfold msg_get_free at 1.
  pose proof (get_free_from_spec (take (num_msgs p) (msgs p)) 0) as H.
  destruct (get_free_from (take (num_msgs p) (msgs p)) 0) as [i|].
  - destruct H as (Hb & (m & Hl & Hs) & Hbefore).
    rewrite length_take in Hb. rewrite Nat.sub_0_r in Hl, Hbefore.
    assert (Hi : (i < num_msgs p)%nat) by lia.
    rewrite lookup_take_lt in Hl by exact Hi.
    split; [exact Hi|]. split.
    { exists m. split; [exact Hl|]. split; [exact Hs|].
      destruct p; cbn in *. now rewrite list_lookup_alter_eq, Hl. }
    split.
    { intros k m' Hk Hlk. apply (Hbefore k m' Hk). rewrite lookup_take_lt by lia.
      exact Hlk. }
    split.
    { intros k Hk. destruct p; cbn in *. now rewrite list_lookup_alter_ne by congruence. }
    set (p' := set_msgs _ p).
    assert (Hnum : num_msgs p' = num_msgs p) by now destruct p.
    assert (Hmsgs : msgs p' = alter (set_msg_state MSG_PEND) i (msgs p)) by now destruct p.
    unfold msg_get_free. rewrite Hnum, Hmsgs.
    pose proof (get_free_from_spec
                  (take (num_msgs p) (alter (set_msg_state MSG_PEND) i (msgs p))) 0) as H2.
    destruct (get_free_from _ 0) as [k|]; [|exact I]. cbn [snd].
    destruct H2 as (Hb2 & (m2 & Hl2 & Hs2) & _).
    rewrite length_take, length_alter in Hb2. rewrite Nat.sub_0_r in Hl2.
    rewrite lookup_take_lt in Hl2 by lia.
    destruct (Nat.lt_trichotomy k i) as [Hlt|[->|Hgt]]; [|exfalso|exact Hgt].
    + exfalso. rewrite list_lookup_alter_ne in Hl2 by lia.
      apply (Hbefore k m2 Hlt); [|exact Hs2]. rewrite lookup_take_lt by lia. exact Hl2.
    + rewrite list_lookup_alter_eq, Hl in Hl2. injection Hl2 as <-.
      cbn in Hs2. discriminate.
  - split; [reflexivity|]. intros k m Hk Hl.
    rewrite Forall_lookup in H. apply (H k). rewrite lookup_take_lt by exact Hk. exact Hl.
Qed.

(** [msg_send] frames the current message for the daemon: SOH, the length
    byte and the message go to [sock_out] and the message is marked
    [MSG_TX].  When the three do not fit, the call fails with
    [PCCC_EOVERFLOW] and the message keeps its state, but the appends are
    tried one after the other, so that SOH and the length byte stay in
    [sock_out] as far as they fitted. *)
Theorem msg_send_frames (p : PCCC_PRIV) (cur : DF1MSG) :
  msgs p !! cur_msg p = Some cur ->
  buf_wf (p_sock_out p) -> buf_wf (msg_buf cur) ->
  let out := p_sock_out p in
  let mlen := buf_len (msg_buf cur) in
  ((buf_len out + 2 + mlen <= buf_max out)%nat ->
     exists p',
       msg_send p = Ok (p', PCCC_SUCCESS) /\
       buf_contents (p_sock_out p') =
         buf_contents out ++ [MSG_SOH; u8 (Z.of_nat mlen)] ++ buf_contents (msg_buf cur) /\
       msgs p' !! cur_msg p = Some (set_msg_state MSG_TX cur) /\
       (forall k, k <> cur_msg p -> msgs p' !! k = msgs p !! k)) /\
  ((buf_max out < buf_len out + 2 + mlen)%nat ->
     exists p',
       msg_send p = Ok (p', PCCC_EOVERFLOW) /\
       msgs p' = msgs p /\
       buf_contents (p_sock_out p') =
         buf_contents out ++
         take (buf_max out - buf_len out) [MSG_SOH; u8 (Z.of_nat mlen)]).
Proof.
  intros Hl Wo Wm out mlen. subst out mlen. unfold msg_send. rewrite Hl.
  set (out := p_sock_out p) in *.
  assert (Hsoh : u8 MSG_SOH = MSG_SOH) by reflexivity.
  split.
  - intros Hroom.
    destruct (buf_append_byte_spec out MSG_SOH Wo) as (o1 & E1 & W1 & C1 & L1 & _ & M1);
      [lia|].
    destruct (buf_append_byte_spec o1 (Z.of_nat (buf_len (msg_buf cur))) W1)
      as (o2 & E2 & W2 & C2 & L2 & _ & M2); [lia|].
    destruct (buf_append_buf_spec o2 (msg_buf cur) W2 Wm) as (o3 & E3 & _ & C3 & _);
      [lia|].
    rewrite E1. cbn [Z.eqb negb]. rewrite E2. cbn [Z.eqb negb]. rewrite E3.
    cbn [Z.eqb negb]. eexists. split; [reflexivity|].
    split; [|split].
    + destruct p; cbn. rewrite C3, C2, C1, Hsoh, <- !app_assoc. reflexivity.
    + destruct p; cbn in *. now rewrite list_lookup_alter_eq, Hl.
    + intros k Hk. destruct p; cbn in *. now rewrite list_lookup_alter_ne by congruence.
  - intros Hfull.
    destruct (Nat.eq_dec (buf_len out) (buf_max out)) as [H0|H0].
    { rewrite (buf_append_byte_full out MSG_SOH H0). cbn [Z.eqb negb].
      eexists. split; [reflexivity|]. split; [now destruct p|].
      subst out. destruct p; cbn in *. rewrite H0, Nat.sub_diag.
      cbn [take]. now rewrite app_nil_r. }
    assert (Hlt : (buf_len out < buf_max out)%nat) by (destruct Wo as (_ & _ & ?); lia).
    destruct (buf_append_byte_spec out MSG_SOH Wo Hlt) as (o1 & E1 & W1 & C1 & L1 & _ & M1).
    rewrite E1. cbn [Z.eqb negb].
    destruct (Nat.eq_dec (buf_len o1) (buf_max o1)) as [H1|H1].
    { rewrite (buf_append_byte_full o1 _ H1). cbn [Z.eqb negb].
      eexists. split; [reflexivity|]. split; [now destruct p|].
      subst out. destruct p; cbn in *. rewrite C1, Hsoh.
      replace (buf_max p_sock_out0 - buf_len p_sock_out0)%nat with 1%nat by lia.
      reflexivity. }
    assert (Hlt1 : (buf_len o1 < buf_max o1)%nat) by (destruct W1 as (_ & _ & ?); lia).
    destruct (buf_append_byte_spec o1 (Z.of_nat (buf_len (msg_buf cur))) W1 Hlt1)
      as (o2 & E2 & W2 & C2 & L2 & _ & M2).
    rewrite E2. cbn [Z.eqb negb].
    rewrite (buf_append_buf_full o2 (msg_buf cur)) by lia.
    cbn [Z.eqb negb]. eexists. split; [reflexivity|]. split; [now destruct p|].
    subst out. destruct p; cbn in *. rewrite C2, C1, Hsoh, <- app_assoc.
    rewrite take_ge by (cbn [length]; lia). reflexivity.
Qed.

Lemma msg_step_mod p s k :
  (s < num_msgs p)%nat ->
  msg_step (set_cur_msg ((s + k) mod num_msgs p)%nat p) =
  set_cur_msg ((s + S k) mod num_msgs p)%nat p.
Proof.
  intros Hs. unfold msg_step.
  replace (num_msgs (set_cur_msg ((s + k) mod num_msgs p) p)) with (num_msgs p)
    by now destruct p.
  replace (cur_msg (set_cur_msg ((s + k) mod num_msgs p) p))
    with ((s + k) mod num_msgs p)%nat by now destruct p.
  rewrite <- (next_client_mod (num_msgs p) s k Hs).
  pose proof (Nat.mod_upper_bound (s + k) (num_msgs p) ltac:(lia)) as Hm.
  destruct (Nat.eqb_spec ((s + k) mod num_msgs p) (num_msgs p - 1));
    destruct (Nat.ltb_spec (S ((s + k) mod num_msgs p)) (num_msgs p));
    try lia; now destruct p.
Qed.

Lemma send_next_loop_first p s j : forall i k,
  (s < num_msgs p)%nat -> num_msgs p = length (msgs p) ->
  (k <= j)%nat -> (j - k < i)%nat ->
  (forall t m, (k <= t < j)%nat -> msgs p !! ((s + t) mod num_msgs p)%nat = Some m ->
               msg_state m <> MSG_PEND) ->
  (exists m, msgs p !! ((s + j) mod num_msgs p)%nat = Some m /\ msg_state m = MSG_PEND) ->
  send_next_loop i (set_cur_msg ((s + k) mod num_msgs p)%nat p) =
  msg_send (set_cur_msg ((s + j) mod num_msgs p)%nat p).
Proof.
  induction i as [|i IH]; intros k Hs Hn Hk Hi Hnot Hpend; [lia|].
  cbn [send_next_loop].
  replace (msgs (set_cur_msg ((s + k) mod num_msgs p) p)) with (msgs p) by now destruct p.
  replace (cur_msg (set_cur_msg ((s + k) mod num_msgs p) p))
    with ((s + k) mod num_msgs p)%nat by now destruct p.
  assert (Hlt : ((s + k) mod num_msgs p < length (msgs p))%nat)
    by (rewrite <- Hn; apply Nat.mod_upper_bound; lia).
  destruct (lookup_lt_is_Some_2 _ _ Hlt) as [m Hl]. rewrite Hl.
  destruct (Nat.eq_dec k j) as [->|Hne].
  - destruct Hpend as (m' & Hl' & Hs'). rewrite Hl in Hl'. injection Hl' as <-.
    rewrite Hs'. reflexivity.
  - assert (Hm : msg_state m <> MSG_PEND) by (apply (Hnot k); [lia|exact Hl]).
    destruct (Z.eqb_spec (msg_state m) MSG_PEND); [contradiction|].
    rewrite msg_step_mod by assumption.
    apply IH; auto; try lia. intros t m' Ht. apply Hnot. lia.
Qed.

Lemma send_next_loop_none p s : forall i k,
  (s < num_msgs p)%nat -> num_msgs p = length (msgs p) ->
  Forall (fun m => msg_state m <> MSG_PEND) (msgs p) ->
  send_next_loop i (set_cur_msg ((s + k) mod num_msgs p)%nat p) =
  Ok (set_cur_msg ((s + (k + i)) mod num_msgs p)%nat p, PCCC_SUCCESS).
Proof.
  induction i as [|i IH]; intros k Hs Hn Hall.
  - rewrite Nat.add_0_r. reflexivity.
  - cbn [send_next_loop].
    replace (msgs (set_cur_msg ((s + k) mod num_msgs p) p)) with (msgs p) by now destruct p.
    replace (cur_msg (set_cur_msg ((s + k) mod num_msgs p) p))
      with ((s + k) mod num_msgs p)%nat by now destruct p.
    assert (Hlt : ((s + k) mod num_msgs p < length (msgs p))%nat)
      by (rewrite <- Hn; apply Nat.mod_upper_bound; lia).
    destruct (lookup_lt_is_Some_2 _ _ Hlt) as [m Hl]. rewrite Hl.
    rewrite Forall_lookup in Hall. pose proof (Hall _ _ Hl) as Hm.
    destruct (Z.eqb_spec (msg_state m) MSG_PEND); [contradiction|].
    rewrite msg_step_mod by assumption.
    rewrite IH by (auto; now apply Forall_lookup).
    replace (S k + i)%nat with (k + S i)%nat by lia. reflexivity.
Qed.

Lemma set_cur_msg_same p : set_cur_msg (cur_msg p) p = p.
Proof. now destruct p. Qed.

(** [msg_send_next] serves the pool in turn.  While the current message
    is being sent ([MSG_TX]) nothing happens.  Otherwise the slots are
    looked at one after the other, beginning behind the current one and
    ending with the current one itself, and the first that is [MSG_PEND]
    becomes the current message and is sent.  When none is pending the
    current position moves on by one slot. *)
Theorem msg_send_next_round_robin (p : PCCC_PRIV) (cur : DF1MSG) :
  num_msgs p = length (msgs p) -> msgs p !! cur_msg p = Some cur ->
  let n := num_msgs p in
  let pos := fun k => ((cur_msg p + S k) mod n)%nat in
  (msg_state cur = MSG_TX -> msg_send_next p = Ok (p, PCCC_SUCCESS)) /\
  (msg_state cur <> MSG_TX ->
   forall j, (j < n)%nat ->
     (forall t m, (t < j)%nat -> msgs p !! pos t = Some m -> msg_state m <> MSG_PEND) ->
     (exists m, msgs p !! pos j = Some m /\ msg_state m = MSG_PEND) ->
     msg_send_next p = msg_send (set_cur_msg (pos j) p)) /\
  (msg_state cur <> MSG_TX ->
   Forall (fun m => msg_state m <> MSG_PEND) (msgs p) ->
   msg_send_next p = Ok (set_cur_msg ((cur_msg p + 1) mod n)%nat p, PCCC_SUCCESS)).
Proof.
  intros Hn Hl n pos.
  assert (Hs : (cur_msg p < num_msgs p)%nat)
    by (rewrite Hn; now apply lookup_lt_Some with cur).
  assert (Hstep : msg_step p = set_cur_msg ((cur_msg p + 1) mod num_msgs p)%nat p).
  { rewrite <- (set_cur_msg_same p) at 1.
    replace (cur_msg p) with ((cur_msg p + 0) mod num_msgs p)%nat at 1
      by (rewrite Nat.add_0_r; now apply Nat.mod_small).
    rewrite msg_step_mod by assumption. reflexivity. }
  unfold msg_send_next. rewrite Hl. split; [|split].
  - intros ->. reflexivity.
  - intros Hne j Hj Hnot Hpend.
    destruct (Z.eqb_spec (msg_state cur) MSG_TX); [contradiction|].
    rewrite Hstep. subst pos n. cbv beta in *.
    replace (cur_msg p + S j)%nat with (cur_msg p + 1 + j)%nat in * by lia.
    rewrite <- (Nat.Div0.add_mod_idemp_l (cur_msg p + 1) j).
    rewrite <- (send_next_loop_first p ((cur_msg p + 1) mod num_msgs p) j (num_msgs p) 0).
    + rewrite Nat.add_0_r, Nat.Div0.mod_mod. reflexivity.
    + apply Nat.mod_upper_bound. lia.
    + exact Hn.
    + lia.
    + lia.
    + intros t m Ht. rewrite Nat.Div0.add_mod_idemp_l.
      replace (cur_msg p + 1 + t)%nat with (cur_msg p + S t)%nat by lia.
      apply Hnot. lia.
    + rewrite Nat.Div0.add_mod_idemp_l. exact Hpend.
  - intros Hne Hall.
    destruct (Z.eqb_spec (msg_state cur) MSG_TX); [contradiction|].
    rewrite Hstep.
    replace ((cur_msg p + 1) mod num_msgs p)%nat
      with (((cur_msg p + 1) mod num_msgs p + 0) mod num_msgs p)%nat at 1
      by now rewrite Nat.add_0_r, Nat.Div0.mod_mod.
    rewrite send_next_loop_none; auto; [|apply Nat.mod_upper_bound; lia].
    subst n. cbn [Nat.add].
    replace (((cur_msg p + 1) mod num_msgs p + num_msgs p) mod num_msgs p)%nat
      with ((cur_msg p + 1) mod num_msgs p)%nat; [reflexivity|].
    rewrite Nat.Div0.add_mod_idemp_l.
    replace (cur_msg p + 1 + num_msgs p)%nat with (cur_msg p + 1 + 1 * num_msgs p)%nat by lia.
    now rewrite Nat.Div0.mod_add.
Qed.

Lemma abort_from_spec l :
  fst (abort_from l) =
    map (fun m => if negb (msg_state m =? MSG_UNUSED) then msg_flush m else m) l /\
  snd (abort_from l) =
    omap (fun m => if negb (msg_state m =? MSG_UNUSED)
                   then option_map (fun f => (f, PCCC_ELINK, udata m)) (notify m)
                   else None) l.
Proof.
  induction l as [|m l [IH1 IH2]]; [split; reflexivity|].
  cbn [abort_from map omap list_omap]. destruct (abort_from l) as [l' called].
  cbn [fst snd] in *. subst.
  destruct (negb (msg_state m =? MSG_UNUSED)); [|split; reflexivity].
  destruct (notify m); split; reflexivity.
Qed.

(** [msg_abort_all] gives the whole pool back: afterwards every slot is
    unused, and the notification function of every message that was in use
    and has one was called once, in the order of the slots, with
    [PCCC_ELINK] and the user data of the message.  A pool in which nothing
    was in use is left as it is. *)
Theorem msg_abort_all_frees_pool (p : PCCC_PRIV) :
  (num_msgs p <= length (msgs p))%nat ->
  let p' := fst (msg_abort_all p) in
  let called := snd (msg_abort_all p) in
  (forall k m, (k < num_msgs p)%nat -> msgs p' !! k = Some m -> msg_state m = MSG_UNUSED) /\
  (forall k, (num_msgs p <= k)%nat -> msgs p' !! k = msgs p !! k) /\
  called =
    omap (fun m => if negb (msg_state m =? MSG_UNUSED)
                   then option_map (fun f => (f, PCCC_ELINK, udata m)) (notify m)
                   else None) (take (num_msgs p) (msgs p)) /\
  (Forall (fun m => msg_state m = MSG_UNUSED) (take (num_msgs p) (msgs p)) ->
   p' = p /\ called = []).
Proof.
  intros Hn p' called. subst p' called. unfold msg_abort_all.
  destruct (abort_from_spec (take (num_msgs p) (msgs p))) as [E1 E2].
  destruct (abort_from (take (num_msgs p) (msgs p))) as [l c]. cbn [fst snd] in *.
  set (q := match c with [] => p | _ :: _ => set_p_errstr "Connection closed" p end).
  assert (Hq : num_msgs q = num_msgs p /\ msgs q = msgs p)
    by (unfold q; destruct c; destruct p; split; reflexivity).
  destruct Hq as [Hqn Hqm]. rewrite Hqn, Hqm.
  assert (Hlen : length l = num_msgs p)
    by (rewrite E1, length_map, length_take; lia).
  replace (msgs (set_msgs (l ++ drop (num_msgs p) (msgs p)) q))
    with (l ++ drop (num_msgs p) (msgs p)) by now destruct q.
  split; [|split; [|split]].
  - intros k m Hk Hl. rewrite lookup_app_l in Hl by lia.
    rewrite E1, list_lookup_fmap in Hl.
    destruct (take (num_msgs p) (msgs p) !! k) as [m0|]; [|discriminate].
    cbn in Hl. injection Hl as <-.
    destruct (Z.eqb_spec (msg_state m0) MSG_UNUSED); cbn [negb]; [assumption|reflexivity].
  - intros k Hk. rewrite lookup_app_r by lia. rewrite lookup_drop, Hlen. f_equal. lia.
  - exact E2.
  - intros Hall.
    assert (El : l = take (num_msgs p) (msgs p)).
    { rewrite E1. rewrite <- (map_id (take (num_msgs p) (msgs p))) at 2.
      apply map_ext_Forall. eapply Forall_impl; [exact Hall|].
      intros m Hm. cbn beta. rewrite Hm. reflexivity. }
    assert (Ec : c = []).
    { rewrite E2. clear -Hall. induction Hall as [|m l Hm _ IH]; [reflexivity|].
      cbn [omap list_omap]. rewrite Hm. cbn. exact IH. }
    split; [|exact Ec].
    unfold q. rewrite Ec, El, take_drop. now destruct p.
Qed.

Lemma tick_from_spec clock l : forall i,
  (forall j, clock j <> -1) ->
  let due := fun k (m : DF1MSG) =>
    is_cmd m && negb (expires m =? 0) && (expires m <=? clock (i + k)%nat) in
  snd (tick_from clock i l) = true /\
  length (fst (fst (tick_from clock i l))) = length l /\
  (forall k m, l !! k = Some m ->
     fst (fst (tick_from clock i l)) !! k = Some (if due k m then msg_flush m else m)) /\
  Forall (fun n => snd (fst n) = PCCC_ECMD_TIMEOUT) (snd (fst (tick_from clock i l))) /\
  ((forall k m, l !! k = Some m -> due k m = false) ->
   tick_from clock i l = (l, [], true)).
Proof.
  induction l as [|m l IH]; intros i Hc due.
  - cbn. repeat split; try constructor. intros k m Hl. discriminate.
  - specialize (IH (S i) Hc). cbv zeta in IH.
    assert (Hidx : forall k, (S i + k = i + S k)%nat) by (intros; lia).
    cbn [tick_from].
    destruct (tick_from clock (S i) l) as [[l' called] ok] eqn:Et. cbn [fst snd] in IH.
    destruct IH as (Hok & Hlen & Hel & Hall & Hnone).
    assert (Hd : due 0%nat m =
                 is_cmd m && negb (expires m =? 0) && (expires m <=? clock i))
      by (unfold due; now rewrite Nat.add_0_r).
    assert (Hnone' : (forall k m0, (m :: l) !! k = Some m0 -> due k m0 = false) ->
                     (l', called, ok) = (l, [], true)).
    { intros H. apply Hnone. intros k m0 Hl. specialize (H (S k) m0 Hl).
      unfold due in H. now rewrite Hidx. }
    assert (Hel' : forall k m0, l !! k = Some m0 ->
              l' !! k = Some (if due (S k) m0 then msg_flush m0 else m0)).
    { intros k m0 Hl. rewrite (Hel k m0 Hl). unfold due. now rewrite Hidx. }
    destruct (is_cmd m && negb (expires m =? 0)) eqn:Eq.
    + destruct (Z.eqb_spec (clock i) (-1)) as [E|_]; [now apply Hc in E|].
      destruct (Z.leb_spec (expires m) (clock i)) as [Hle|Hgt].
      * cbn [fst snd]. split; [exact Hok|]. split; [cbn [length]; lia|].
        split; [|split].
        -- intros [|k] m0 Hl; cbn in Hl.
           ++ injection Hl as <-. rewrite Hd; cbn [andb].
              destruct (Z.leb_spec (expires m) (clock i)); [reflexivity|lia].
           ++ now apply Hel'.
        -- destruct (notify m); [constructor; [reflexivity|exact Hall]|exact Hall].
        -- intros H. specialize (H 0%nat m eq_refl). rewrite Hd in H; cbn [andb] in H.
           destruct (Z.leb_spec (expires m) (clock i)); [discriminate|lia].
      * cbn [fst snd]. split; [exact Hok|]. split; [cbn [length]; lia|].
        split; [|split].
        -- intros [|k] m0 Hl; cbn in Hl.
           ++ injection Hl as <-. rewrite Hd; cbn [andb].
              destruct (Z.leb_spec (expires m) (clock i)); [lia|reflexivity].
           ++ now apply Hel'.
        -- exact Hall.
        -- intros H. specialize (Hnone' H). now inversion Hnone'.
    + cbn [fst snd]. split; [exact Hok|]. split; [cbn [length]; lia|].
      split; [|split].
      * intros [|k] m0 Hl; cbn in Hl.
        -- injection Hl as <-. rewrite Hd; cbn [andb]. reflexivity.
        -- now apply Hel'.
      * exact Hall.
      * intros H. specialize (Hnone' H). now inversion Hnone'.
Qed.

(** [pccc_tick] times a command out once.  With a connected library and a
    working clock, every command whose expiry time has come is flushed and
    its user told [PCCC_ECMD_TIMEOUT]; the other slots are not touched.  A
    second call at the same times has nothing left to do: no notification,
    no change.  Without a connection [pccc_tick] does nothing. *)
Theorem pccc_tick_expires_once (txt : string) (clock : nat -> Z) (p : PCCC_PRIV) :
  (num_msgs p <= length (msgs p))%nat -> (forall j, clock j <> -1) ->
  let due := fun k (m : DF1MSG) =>
    is_cmd m && negb (expires m =? 0) && (expires m <=? clock k) in
  let r := pccc_tick txt clock p in
  (connected p = false -> r = (p, [], PCCC_SUCCESS)) /\
  (connected p = true ->
   snd r = PCCC_SUCCESS /\
   (forall k m, (k < num_msgs p)%nat -> msgs p !! k = Some m ->
      msgs (fst (fst r)) !! k = Some (if due k m then msg_flush m else m)) /\
   (forall k, (num_msgs p <= k)%nat -> msgs (fst (fst r)) !! k = msgs p !! k) /\
   Forall (fun n => snd (fst n) = PCCC_ECMD_TIMEOUT) (snd (fst r)) /\
   pccc_tick txt clock (fst (fst r)) = (fst (fst r), [], PCCC_SUCCESS)).
Proof.
  intros Hn Hc due r. subst r. unfold pccc_tick. split.
  - intros ->. reflexivity.
  - intros Hconn. rewrite Hconn. cbn [negb].
    destruct (tick_from_spec clock (take (num_msgs p) (msgs p)) 0 Hc)
      as (Hok & Hlen & Hel & Hall & _).
    destruct (tick_from clock 0 (take (num_msgs p) (msgs p))) as [[l called] ok] eqn:Et.
    cbn [fst snd] in *. subst ok. cbn [fst snd].
    rewrite length_take in Hlen.
    replace (msgs (set_msgs (l ++ drop (num_msgs p) (msgs p)) p))
      with (l ++ drop (num_msgs p) (msgs p)) by now destruct p.
    assert (Hel' : forall k m, (k < num_msgs p)%nat -> msgs p !! k = Some m ->
              l !! k = Some (if due k m then msg_flush m else m)).
    { intros k m Hk Hl. apply (Hel k m). rewrite lookup_take_lt by exact Hk. exact Hl. }
    split; [reflexivity|].
    split; [intros k m Hk Hl; rewrite lookup_app_l by lia; now apply Hel'|].
    split.
    { intros k Hk. rewrite lookup_app_r by lia. rewrite lookup_drop. f_equal. lia. }
    split; [exact Hall|].
    replace (connected (set_msgs (l ++ drop (num_msgs p) (msgs p)) p)) with true
      by (destruct p; cbn in *; congruence).
    replace (num_msgs (set_msgs (l ++ drop (num_msgs p) (msgs p)) p)) with (num_msgs p)
      by now destruct p.
    replace (msgs (set_msgs (l ++ drop (num_msgs p) (msgs p)) p))
      with (l ++ drop (num_msgs p) (msgs p)) by now destruct p.
    cbn [negb]. rewrite take_app_length' by lia.
    destruct (tick_from_spec clock l 0 Hc) as (_ & _ & _ & _ & Hnone).
    rewrite Hnone.
    + rewrite drop_app_length' by lia. now destruct p.
    + intros k m' Hl'.
      assert (Hk : (k < num_msgs p)%nat) by (apply lookup_lt_Some in Hl'; lia).
      destruct (lookup_lt_is_Some_2 (msgs p) k ltac:(lia)) as [m Hl].
      rewrite (Hel' k m Hk Hl) in Hl'. injection Hl' as <-.
      fold (due k). unfold due.
      destruct (is_cmd m && negb (expires m =? 0) && (expires m <=? clock k)) eqn:Ed.
      * cbn. now rewrite andb_false_r.
      * exact Ed.
Qed.

(** ** From the daemon to the library *)

Section LinkProperties.

Variable sts_text : BUF -> string.
Variable reply_handler : Z -> BUF -> DF1MSG -> string -> Z * BUF * DF1MSG * string.
Variable time_failed_text : string.
Variable timeout : Z.
Variable clock : nat -> Z.

Lemma parse_msg_sock_in p p' called :
  parse_msg sts_text reply_handler p = Ok (p', called) -> p_sock_in p' = p_sock_in p.
Proof.
  unfold parse_msg. destruct (msg_is_reply p); [|now intros [= <- _]].
  assert (Hso : forall q ms, p_sock_in (set_msgs ms q) = p_sock_in q) by (now intros []).
  assert (Hse : forall q e, p_sock_in (set_p_errstr e q) = p_sock_in q) by (now intros []).
  assert (Hsi : forall q b, p_sock_in (set_msg_in b q) = p_sock_in q) by (now intros []).
  assert (Hs0 : forall q b, p_sock_in (set_p_sock_out b q) = p_sock_in q) by (now intros []).
  destruct (msg_find_cmd p) as [j|]; [|intros [= <- _]; apply Hs0].
  destruct (msgs _ !! j) as [m|]; [|discriminate].
  destruct (notify _) as [f|]; [|intros [= <- _]; now rewrite Hso, Hs0].
  unfold sts_check.
  match goal with |- context [msg_get_sts ?b =? 0] => destruct (msg_get_sts b =? 0) end;
    cbn [Z.eqb negb].
  - match goal with |- context [reply ?x] => destruct (reply x) as [h|] end.
    + match goal with |- context [reply_handler ?a ?b ?c ?d] =>
        destruct (reply_handler a b c d) as [[[rc mi] m'] err] end.
      match goal with |- context [msg_state ?x =? MSG_CMD_DONE] =>
        destruct (msg_state x =? MSG_CMD_DONE) end;
        intros [= <- _]; now rewrite Hso, Hse, Hsi, Hsi, Hs0.
    + match goal with |- context [msg_state ?x =? MSG_CMD_DONE] =>
        destruct (msg_state x =? MSG_CMD_DONE) end;
        intros [= <- _]; now rewrite Hso, Hsi, Hs0.
  - match goal with |- context [msg_state ?x =? MSG_CMD_DONE] =>
      destruct (msg_state x =? MSG_CMD_DONE) end;
      intros [= <- _]; now rewrite Hso, Hse, Hsi, Hs0.
Qed.

Lemma parse_link_loop_end n p called :
  buf_index (p_sock_in p) = buf_len (p_sock_in p) ->
  parse_link_loop sts_text reply_handler time_failed_text timeout clock n p called
  = Ok (p, called, PCCC_SUCCESS).
Proof.
  intros He. destruct n; cbn [parse_link_loop]; rewrite buf_get_byte_end by assumption;
    reflexivity.
Qed.

(** The bytes of a message come in: they are gathered in [msg_in] until
    the announced length is reached, and then [parse_msg] gets the
    message. *)
Lemma parse_link_loop_msg rest : forall n p called pre,
  read_mode p = READ_MODE_MSG ->
  buf_wf (p_sock_in p) -> buf_pending (p_sock_in p) = rest -> rest <> [] ->
  buf_wf (msg_in p) -> buf_contents (msg_in p) = pre ->
  msg_in_len p = Z.of_nat (length pre + length rest) ->
  (length pre + length rest <= buf_max (msg_in p))%nat ->
  Forall is_byte rest -> (length rest <= n)%nat ->
  exists mi,
    buf_wf mi /\ buf_contents mi = pre ++ rest /\ buf_index mi = buf_index (msg_in p) /\
    parse_link_loop sts_text reply_handler time_failed_text timeout clock n p called =
    let* r := parse_msg sts_text reply_handler
                (set_read_mode READ_MODE_IDLE
                   (set_msg_in mi
                      (set_p_sock_in (buf_skip (length rest) (p_sock_in p)) p))) in
    parse_link_loop sts_text reply_handler time_failed_text timeout clock
      (n - length rest) (fst r) (called ++ snd r).
Proof.
  induction rest as [|x rest IH]; intros n p called pre Hm Ws Hp Hne Wm Hc Hlen Hroom HB Hn;
    [contradiction|].
  destruct n as [|n]; [simpl in Hn; lia|].
  apply Forall_cons in HB as [Hx HB'].
  destruct (buf_get_byte_spec _ 0 _ _ Ws Hp) as (E & W1 & P1).
  pose proof (contents_length _ Wm) as Hcl. rewrite Hc in Hcl.
  destruct (buf_append_byte_spec (msg_in p) x Wm) as (mi & Ea & Wa & Ca & La & Ia & Ma).
  { cbn [length] in Hroom. lia. }
  rewrite u8_small in Ca by exact Hx. rewrite Hc in Ca.
  cbn [parse_link_loop]. rewrite E. cbn [Z.eqb negb].
  replace (read_mode (set_p_sock_in (buf_skip 1 (p_sock_in p)) p)) with READ_MODE_MSG
    by (symmetry; destruct p; exact Hm).
  replace (msg_in (set_p_sock_in (buf_skip 1 (p_sock_in p)) p)) with (msg_in p)
    by now destruct p.
  rewrite Ea. cbn [fst]. cbv zeta.
  set (p1 := set_msg_in mi (set_p_sock_in (buf_skip 1 (p_sock_in p)) p)).
  assert (H1 : msg_in_len p1 = msg_in_len p /\ msg_in p1 = mi /\
               p_sock_in p1 = buf_skip 1 (p_sock_in p) /\ read_mode p1 = READ_MODE_MSG)
    by (unfold p1; destruct p; cbn in *; auto).
  destruct H1 as (H1l & H1m & H1s & H1r). rewrite H1l, H1m, La, Hlen.
  destruct rest as [|y rest].
  - cbn [length] in *. rewrite <- Hcl.
    destruct (Z.eqb_spec (Z.of_nat (length pre + 1)) (Z.of_nat (S (length pre)))); [|lia].
    exists mi. split; [exact Wa|]. split; [exact Ca|]. split; [exact Ia|].
    replace (S n - 1)%nat with n by lia.
    unfold p1. now destruct p.
  - rewrite <- Hcl.
    destruct (Z.eqb_spec (Z.of_nat (length pre + length (x :: y :: rest)))
                         (Z.of_nat (S (length pre)))) as [Ebad|_];
      [cbn [length] in Ebad; lia|].
    destruct (IH n p1 called (pre ++ [x])) as (mi' & Wi & Ci & Ii & Eq);
      rewrite ?H1l, ?H1m, ?H1s, ?H1r; try assumption; try discriminate;
      try reflexivity.
    + rewrite Hlen, length_app. cbn [length]. f_equal. lia.
    + rewrite length_app, Ma. cbn [length] in *. lia.
    + cbn [length] in *. lia.
    + exists mi'. split; [exact Wi|]. split; [rewrite Ci, <- app_assoc; reflexivity|].
      split; [congruence|].
      rewrite Eq. rewrite H1s, buf_skip_skip.
      replace (S n - length (x :: y :: rest))%nat with (n - length (y :: rest))%nat
        by (cbn [length]; lia).
      replace (length (y :: rest) + 1)%nat with (length (x :: y :: rest))
        by (cbn [length]; lia).
      unfold p1. now destruct p.
Qed.

(** What [client_msg_rx] of the daemon writes to the socket of a client,
    SOH, the length and the message, the library reads back: [parse_link]
    gathers exactly the message in [msg_in] and hands it to [parse_msg];
    nothing else in the connection has changed by then.  This holds for
    messages of 1 to 255 bytes, the lengths that the length byte can
    tell. *)
Theorem parse_link_delivers (p : PCCC_PRIV) (msg : list Z) :
  read_mode p = READ_MODE_IDLE ->
  buf_wf (p_sock_in p) ->
  buf_pending (p_sock_in p) = MSG_SOH :: Z.of_nat (length msg) :: msg ->
  (0 < length msg < 256)%nat -> Forall is_byte msg ->
  length (buf_data (msg_in p)) = buf_max (msg_in p) ->
  (length msg <= buf_max (msg_in p))%nat ->
  exists p1,
    buf_contents (msg_in p1) = msg /\ buf_index (msg_in p1) = 0%nat /\
    read_mode p1 = READ_MODE_IDLE /\ buf_pending (p_sock_in p1) = [] /\
    msgs p1 = msgs p /\ cur_msg p1 = cur_msg p /\ p_sock_out p1 = p_sock_out p /\
    parse_link sts_text reply_handler time_failed_text timeout clock p =
    let* r := parse_msg sts_text reply_handler p1 in
    Ok (fst r, snd r, PCCC_SUCCESS).
Proof.
  intros Hm Ws Hp Hlen HB Hd Hroom.
  pose proof (pending_length _ Ws) as Hpl. rewrite Hp in Hpl. cbn [length] in Hpl.
  destruct (buf_get_byte_spec _ 0 _ _ Ws Hp) as (E1 & W1 & P1).
  destruct (buf_get_byte_spec _ 0 _ _ W1 P1) as (E2 & W2 & P2).
  rewrite buf_skip_skip in E2, W2, P2. cbn [Nat.add] in E2, W2, P2.
  set (p2 := set_read_mode READ_MODE_MSG
               (set_msg_in_len (Z.of_nat (length msg))
                  (set_p_sock_in (buf_skip 2 (p_sock_in p))
                     (set_read_mode READ_MODE_MSG_LEN
                        (set_msg_in (buf_empty (msg_in p))
                           (set_p_sock_in (buf_skip 1 (p_sock_in p)) p)))))).
  assert (Hstart :
    parse_link sts_text reply_handler time_failed_text timeout clock p =
    parse_link_loop sts_text reply_handler time_failed_text timeout clock
      (length msg) p2 []).
  { unfold parse_link. rewrite <- Hpl. cbn [parse_link_loop].
    rewrite E1. cbn [Z.eqb negb].
    replace (read_mode (set_p_sock_in (buf_skip 1 (p_sock_in p)) p)) with READ_MODE_IDLE
      by (symmetry; destruct p; exact Hm).
    change (MSG_SOH =? MSG_SOH) with true. cbv iota.
    replace (p_sock_in (set_read_mode READ_MODE_MSG_LEN
               (set_msg_in (buf_empty (msg_in (set_p_sock_in (buf_skip 1 (p_sock_in p)) p)))
                  (set_p_sock_in (buf_skip 1 (p_sock_in p)) p))))
      with (buf_skip 1 (p_sock_in p)) by now destruct p.
    rewrite E2. cbn [Z.eqb negb].
    destruct msg as [|x msg]; [cbn [length] in Hlen; lia|].
    cbn [length]. cbn [parse_link_loop]. unfold p2. now destruct p. }
  assert (H2 : read_mode p2 = READ_MODE_MSG /\ p_sock_in p2 = buf_skip 2 (p_sock_in p) /\
               msg_in p2 = buf_empty (msg_in p) /\
               msg_in_len p2 = Z.of_nat (length msg) /\ msgs p2 = msgs p /\
               cur_msg p2 = cur_msg p /\ p_sock_out p2 = p_sock_out p)
    by (unfold p2; destruct p; cbn; auto 10).
  destruct H2 as (H2r & H2s & H2m & H2l & H2ms & H2c & H2o).
  destruct (parse_link_loop_msg msg (length msg) p2 [] []) as (mi & Wi & Ci & Ii & Eq);
    rewrite ?H2r, ?H2s, ?H2m, ?H2l; try assumption; try reflexivity; try lia.
  { intros ->. cbn [length] in Hlen. lia. }
  { unfold buf_wf, buf_empty. cbn. lia. }
  rewrite H2s, H2m in *. cbn [app] in *.
  exists (set_read_mode READ_MODE_IDLE
            (set_msg_in mi
               (set_p_sock_in (buf_skip (length msg) (buf_skip 2 (p_sock_in p))) p2))).
  split; [|split; [|split; [|split; [|split; [|split; [|split]]]]]].
  8: { rewrite Hstart, Eq. rewrite Nat.sub_diag.
       destruct (parse_msg _ _ _) as [[p' called]|f] eqn:Ep; [|reflexivity].
       cbn [bind fst snd]. rewrite parse_link_loop_end; [reflexivity|].
       rewrite (parse_msg_sock_in _ _ _ Ep).
       replace (p_sock_in _) with (buf_skip (length msg) (buf_skip 2 (p_sock_in p)))
         by now destruct p2.
       unfold buf_skip. cbn [buf_index buf_len]. lia. }
  - replace (msg_in _) with mi by now destruct p2. exact Ci.
  - replace (msg_in _) with mi by now destruct p2. exact Ii.
  - now destruct p2.
  - replace (p_sock_in _) with (buf_skip (length msg) (buf_skip 2 (p_sock_in p)))
      by now destruct p2.
    rewrite buf_skip_skip, pending_skip, Hp.
    replace (length msg + 2)%nat with (length (MSG_SOH :: Z.of_nat (length msg) :: msg))
      by (cbn [length]; lia).
    apply drop_all.
  - rewrite <- H2ms. now destruct p2.
  - rewrite <- H2c. now destruct p2.
  - rewrite <- H2o. now destruct p2.
Qed.

End LinkProperties.

(** ** From the socket of a client to the wire *)

Lemma upd_client_put c f conn cl :
  clients conn !! c = Some cl -> upd_client c f conn = put_client c (f cl) conn.
Proof.
  intros Hl. unfold upd_client, put_client. f_equal.
  apply list_eq. intros i. destruct (Nat.eq_dec c i) as [->|Hne].
  - rewrite list_lookup_alter_eq, Hl.
    rewrite list_lookup_insert_eq by (now apply lookup_lt_Some with cl). reflexivity.
  - now rewrite list_lookup_alter_ne, list_lookup_insert_ne by assumption.
Qed.

Lemma put_client_lookup c cl conn :
  (c < length (clients conn))%nat -> clients (put_client c cl conn) !! c = Some cl.
Proof. intros H. unfold put_client. rsimpl. now apply list_lookup_insert_eq. Qed.

Lemma put_client_twice c cl cl' conn :
  put_client c cl (put_client c cl' conn) = put_client c cl conn.
Proof. unfold put_client. rsimpl. now rewrite list_insert_insert_eq. Qed.

Lemma put_client_length c cl conn :
  length (clients (put_client c cl conn)) = length (clients conn).
Proof. unfold put_client. rsimpl. apply length_insert. Qed.

Lemma parse_sock_loop_end n conn c cl reg :
  clients conn !! c = Some cl -> buf_index (sock_in cl) = buf_len (sock_in cl) ->
  parse_sock_loop n conn c reg = Ok (conn, reg, 0).
Proof.
  intros Hl He. destruct n; cbn [parse_sock_loop]; rewrite Hl;
    rewrite buf_get_byte_end by assumption; reflexivity.
Qed.

(** The bytes of a message from a client are gathered in [df1_tx]; with the
    last one the client is ready, and the arbitrator is called. *)
Lemma parse_sock_loop_gather c rest : forall n conn cl reg pre,
  clients conn !! c = Some cl -> client_state cl = CLIENT_MSG ->
  buf_wf (sock_in cl) -> buf_pending (sock_in cl) = rest -> rest <> [] ->
  buf_wf (df1_tx cl) -> buf_contents (df1_tx cl) = pre ->
  new_msg_len reg = Z.of_nat (length pre + length rest) ->
  (length pre + length rest <= buf_max (df1_tx cl))%nat ->
  Forall is_byte rest -> (length rest <= n)%nat ->
  exists df1,
    buf_wf df1 /\ buf_contents df1 = pre ++ rest /\
    buf_index df1 = buf_index (df1_tx cl) /\ buf_max df1 = buf_max (df1_tx cl) /\
    parse_sock_loop n conn c reg =
    let* conn2 :=
      find_next_tx
        (put_client c
           (set_client_state CLIENT_MSG_READY
              (set_df1_tx df1 (set_sock_in (buf_skip (length rest) (sock_in cl)) cl)))
           conn)
        (Some c) in
    parse_sock_loop (n - length rest) conn2 c reg.
Proof.
  induction rest as [|x rest IH];
    intros n conn cl reg pre Hl Hst Ws Hp Hne Wd Hc Hlen Hroom HB Hn; [contradiction|].
  destruct n as [|n]; [simpl in Hn; lia|].
  apply Forall_cons in HB as [Hx HB'].
  assert (Hcl : (c < length (clients conn))%nat) by now apply lookup_lt_Some with cl.
  destruct (buf_get_byte_spec _ 0 _ _ Ws Hp) as (E & W1 & P1).
  pose proof (contents_length _ Wd) as Hcl'. rewrite Hc in Hcl'.
  destruct (buf_append_byte_spec (df1_tx cl) x Wd) as (d1 & Ea & Wa & Ca & La & Ia & Ma).
  { cbn [length] in Hroom. lia. }
  rewrite u8_small in Ca by exact Hx. rewrite Hc in Ca.
  cbn [parse_sock_loop]. rewrite Hl, E. cbn [Z.eqb negb]. rewrite Hst.
  rewrite (upd_client_put c _ conn cl Hl).
  set (cl1 := set_sock_in (buf_skip 1 (sock_in cl)) cl).
  unfold rcv_app. rewrite put_client_lookup by assumption.
  change (df1_tx cl1) with (df1_tx cl). rewrite Ea. cbn [Z.eqb negb].
  rewrite (upd_client_put c (set_df1_tx d1) (put_client c cl1 conn) cl1)
    by now apply put_client_lookup.
  rewrite put_client_twice, La, Hlen, <- Hcl'.
  destruct rest as [|y rest].
  - cbn [length] in *.
    destruct (Z.eqb_spec (Z.of_nat (S (length pre))) (Z.of_nat (length pre + 1))); [|lia].
    exists d1. split; [exact Wa|]. split; [exact Ca|]. split; [exact Ia|].
    split; [exact Ma|].
    rewrite (upd_client_put c (set_client_state CLIENT_MSG_READY)
               (put_client c (set_df1_tx d1 cl1) conn) (set_df1_tx d1 cl1))
      by now apply put_client_lookup.
    rewrite put_client_twice. replace (S n - 1)%nat with n by lia.
    destruct (find_next_tx _ _); reflexivity.
  - destruct (Z.eqb_spec (Z.of_nat (S (length pre)))
                         (Z.of_nat (length pre + length (x :: y :: rest)))) as [Ebad|_];
      [cbn [length] in Ebad; lia|].
    cbn [bind snd fst].
    destruct (IH n (put_client c (set_df1_tx d1 cl1) conn) (set_df1_tx d1 cl1) reg
                (pre ++ [x])) as (d2 & W2 & C2 & I2 & M2 & Eq);
      try (now apply put_client_lookup); try assumption; try discriminate;
      try reflexivity.
    + rewrite Hlen, length_app. cbn [length]. f_equal. lia.
    + rewrite length_app. cbn [length df1_tx set_df1_tx] in *. lia.
    + cbn [length] in *. lia.
    + exists d2. split; [exact W2|]. split; [rewrite C2, <- app_assoc; reflexivity|].
      split; [cbn in I2; congruence|]. split; [cbn in M2; congruence|].
      rewrite Eq. rewrite put_client_twice.
      replace (S n - length (x :: y :: rest))%nat with (n - length (y :: rest))%nat
        by (cbn [length]; lia).
      unfold cl1. cbn [sock_in set_df1_tx set_sock_in set_client_state client_state addr
                       df1_tx sock_out client_dcnts].
      rewrite buf_skip_skip.
      replace (length (y :: rest) + 1)%nat with (length (x :: y :: rest))
        by (cbn [length]; lia).
      reflexivity.
Qed.

Lemma find_next_tx_busy conn start_client :
  tx_state (tx conn) <> TX_IDLE -> find_next_tx conn start_client = Ok conn.
Proof.
  intros H. unfold find_next_tx. cbn [find_next_tx_fuel]. unfold tx_busy.
  destruct (tx_state (tx conn)); try reflexivity. contradiction.
Qed.

(** The arbitrator called for a client that has just become ready, with
    the transmitter idle: the message of this client is submitted. *)
Lemma find_next_tx_at conn c cl B :
  tx_state (tx conn) = TX_IDLE ->
  clients conn !! c = Some cl -> client_state cl = CLIENT_MSG_READY ->
  buf_wf (df1_tx cl) -> buf_pending (df1_tx cl) = B -> Forall is_byte B ->
  buf_wf (tx_buf (tx conn)) -> buf_len (tx_buf (tx conn)) = 0%nat ->
  (length (df1_frame (use_crc conn) B) <= buf_max (tx_buf (tx conn)))%nat ->
  buf_wf (tty_out conn) ->
  (buf_len (tty_out conn) + length (df1_frame (use_crc conn) B)
   <= buf_max (tty_out conn))%nat ->
  exists conn' cl',
    find_next_tx conn (Some c) = Ok conn' /\
    tx_state (tx conn') = TX_PEND_MSG_TX /\ tx_client (tx conn') = Some c /\
    buf_contents (tty_out conn') =
      buf_contents (tty_out conn) ++ df1_frame (use_crc conn) B /\
    clients conn' !! c = Some cl' /\
    client_state cl' = CLIENT_MSG_PEND /\ buf_len (df1_tx cl') = 0%nat /\
    sock_in cl' = sock_in cl /\ sock_out cl' = sock_out cl /\
    rx conn' = rx conn /\
    forall i, i <> c -> clients conn' !! i = clients conn !! i.
Proof.
  intros Hidle Hl Hst Wd Hp HB Wm Hm0 Hfit Wo Hroom.
  assert (Hc : (c < length (clients conn))%nat) by now apply lookup_lt_Some with cl.
  destruct (tx_msg_with_fits (find_next_tx_fuel (length (clients conn))) conn c cl B)
    as (msg' & out' & E & Cm & Co); try assumption.
  assert (Hfind : find_ready (length (clients conn)) (clients conn) c c = Ok (Some c)).
  { replace c with ((c + 0) mod length (clients conn))%nat at 1 3
      by (rewrite Nat.add_0_r; now apply Nat.mod_small).
    apply (find_ready_first (clients conn) c 0); try lia.
    rewrite Nat.add_0_r, Nat.mod_small by exact Hc. now exists cl. }
  eexists. eexists. split.
  { unfold find_next_tx. rewrite find_next_tx_fuel_idle; [|exact Hidle|].
    2: { intros Hnil. rewrite Hnil in Hc. simpl in Hc. lia. }
    cbv zeta. rewrite Hfind. cbn [bind]. rewrite E. cbn [bind]. reflexivity. }
  unfold upd_client. rsimpl.
  split; [reflexivity|]. split; [reflexivity|]. split; [exact Co|].
  split; [rewrite !list_lookup_alter_eq, Hl; reflexivity|].
  repeat (split; [reflexivity|]).
  intros i Hi. now rewrite !list_lookup_alter_ne by congruence.
Qed.

(** A message from a client reaches the wire.  A registered, idle client
    sends SOH, the length and the message (1 to 255 bytes).  With the
    transmitter idle and room in the buffers, [parse_sock_data] gathers the
    message, the arbitrator submits it at once, and the DF1 frame of exactly
    these bytes stands in the TTY output buffer; the client is in
    [CLIENT_MSG_PEND].  With the transmitter busy the message waits: the
    client is in [CLIENT_MSG_READY] with the message in its buffer, and
    nothing is sent. *)
Theorem client_message_to_wire (conn : CONN) (c : nat) (cl : CLIENT) (reg : CLIENT_REG)
    (msg : list Z) :
  clients conn !! c = Some cl -> client_state cl = CLIENT_IDLE ->
  buf_wf (sock_in cl) ->
  buf_pending (sock_in cl) = MSG_SOH :: Z.of_nat (length msg) :: msg ->
  (0 < length msg < 256)%nat -> Forall is_byte msg ->
  buf_wf (df1_tx cl) -> buf_len (df1_tx cl) = 0%nat ->
  (length msg <= buf_max (df1_tx cl))%nat ->
  let reg' := set_new_msg_len (Z.of_nat (length msg)) reg in
  (tx_state (tx conn) = TX_IDLE ->
   buf_wf (tx_buf (tx conn)) -> buf_len (tx_buf (tx conn)) = 0%nat ->
   (length (df1_frame (use_crc conn) msg) <= buf_max (tx_buf (tx conn)))%nat ->
   buf_wf (tty_out conn) ->
   (buf_len (tty_out conn) + length (df1_frame (use_crc conn) msg)
    <= buf_max (tty_out conn))%nat ->
   exists conn' cl',
     parse_sock_data conn c reg = Ok (conn', reg', 0) /\
     buf_contents (tty_out conn') =
       buf_contents (tty_out conn) ++ df1_frame (use_crc conn) msg /\
     tx_state (tx conn') = TX_PEND_MSG_TX /\ tx_client (tx conn') = Some c /\
     clients conn' !! c = Some cl' /\ client_state cl' = CLIENT_MSG_PEND /\
     buf_len (df1_tx cl') = 0%nat /\ buf_pending (sock_in cl') = []) /\
  (tx_state (tx conn) <> TX_IDLE ->
   exists conn' cl',
     parse_sock_data conn c reg = Ok (conn', reg', 0) /\
     tty_out conn' = tty_out conn /\ tx conn' = tx conn /\
     clients conn' !! c = Some cl' /\ client_state cl' = CLIENT_MSG_READY /\
     buf_pending (df1_tx cl') = msg /\ buf_pending (sock_in cl') = []).
Proof.
  intros Hl Hst Ws Hp Hlen HB Wd Hd0 Hdroom reg'.
  assert (Hc : (c < length (clients conn))%nat) by now apply lookup_lt_Some with cl.
  pose proof (pending_length _ Ws) as Hpl. rewrite Hp in Hpl. cbn [length] in Hpl.
  destruct (buf_get_byte_spec _ 0 _ _ Ws Hp) as (E1 & W1 & P1).
  destruct (buf_get_byte_spec _ 0 _ _ W1 P1) as (E2 & W2 & P2).
  rewrite buf_skip_skip in E2, W2, P2. cbn [Nat.add] in E2, W2, P2.
  destruct (buf_wf_len0 _ Wd Hd0) as [Hdi Hdc].
  set (cl1 := set_client_state CLIENT_MSG_LEN (set_sock_in (buf_skip 1 (sock_in cl)) cl)).
  set (cl2 := set_client_state CLIENT_MSG (set_sock_in (buf_skip 2 (sock_in cl)) cl1)).
  assert (Hhead : parse_sock_data conn c reg =
                  parse_sock_loop (length msg) (put_client c cl2 conn) c reg').
  { unfold parse_sock_data. rewrite Hl, <- Hpl. cbn [parse_sock_loop].
    rewrite Hl, E1. cbn [Z.eqb negb]. rewrite Hst.
    change (MSG_SOH =? MSG_SOH) with true. cbv iota.
    rewrite (upd_client_put c (set_sock_in (buf_skip 1 (sock_in cl))) conn cl Hl).
    rewrite (upd_client_put c (set_client_state CLIENT_MSG_LEN) _
               (set_sock_in (buf_skip 1 (sock_in cl)) cl))
      by now apply put_client_lookup.
    rewrite put_client_twice. fold cl1.
    rewrite put_client_lookup by assumption.
    change (sock_in cl1) with (buf_skip 1 (sock_in cl)). rewrite E2.
    cbn [Z.eqb negb]. change (client_state cl1) with CLIENT_MSG_LEN. cbv iota.
    rewrite (upd_client_put c (set_sock_in (buf_skip 2 (sock_in cl))) _ cl1)
      by now apply put_client_lookup.
    rewrite put_client_twice.
    rewrite (upd_client_put c (set_client_state CLIENT_MSG) _
               (set_sock_in (buf_skip 2 (sock_in cl)) cl1))
      by now apply put_client_lookup.
    rewrite put_client_twice. reflexivity. }
  destruct (parse_sock_loop_gather c msg (length msg) (put_client c cl2 conn) cl2 reg' [])
    as (df1 & Wf & Cf & If & Mf & Eq);
    try (now apply put_client_lookup); try assumption; try reflexivity; try lia.
  { intros ->. cbn [length] in Hlen. lia. }
  rewrite put_client_twice in Eq. cbn [app] in Cf.
  change (sock_in cl2) with (buf_skip 2 (sock_in cl)) in Eq.
  rewrite buf_skip_skip, Nat.sub_diag in Eq.
  set (cl3 := set_client_state CLIENT_MSG_READY
                (set_df1_tx df1
                   (set_sock_in (buf_skip (length msg + 2) (sock_in cl)) cl2))) in Eq.
  assert (Hend : buf_index (sock_in cl3) = buf_len (sock_in cl3)).
  { unfold cl3, buf_skip. cbn. lia. }
  assert (Hpend3 : buf_pending (sock_in cl3) = []).
  { change (sock_in cl3) with (buf_skip (length msg + 2) (sock_in cl)).
    rewrite pending_skip, Hp.
    replace (length msg + 2)%nat with (length (MSG_SOH :: Z.of_nat (length msg) :: msg))
      by (cbn [length]; lia).
    apply drop_all. }
  assert (Hpd : buf_pending df1 = msg).
  { unfold buf_pending. rewrite Cf, If. change (df1_tx cl2) with (df1_tx cl).
    rewrite Hdi. reflexivity. }
  split.
  - intros Hidle Wm Hm0 Hfit Wo Hroom.
    destruct (find_next_tx_at (put_client c cl3 conn) c cl3 msg)
      as (conn' & cl' & En & Hts & Htc & Hto & Hl' & Hs' & Hd' & Hsi & _);
      try (now apply put_client_lookup); try assumption; try reflexivity.
    exists conn', cl'. split.
    { rewrite Hhead, Eq, En. cbn [bind].
      apply (parse_sock_loop_end _ _ _ cl'); [exact Hl'|]. rewrite Hsi. exact Hend. }
    split; [exact Hto|]. split; [exact Hts|]. split; [exact Htc|].
    split; [exact Hl'|]. split; [exact Hs'|]. split; [exact Hd'|].
    rewrite Hsi. exact Hpend3.
  - intros Hbusy. exists (put_client c cl3 conn), cl3. split.
    { rewrite Hhead, Eq, find_next_tx_busy by exact Hbusy. cbn [bind].
      apply (parse_sock_loop_end _ _ _ cl3); [now apply put_client_lookup|exact Hend]. }
    split; [reflexivity|]. split; [reflexivity|].
    split; [now apply put_client_lookup|]. split; [reflexivity|].
    split; [exact Hpd|exact Hpend3].
Qed.

(** ** The answer of a client to a delivered message *)

Lemma parse_sock_loop_byte n conn c cl reg b :
  clients conn !! c = Some cl ->
  buf_wf (sock_in cl) -> buf_pending (sock_in cl) = [b] ->
  (client_state cl = CLIENT_IDLE /\ b <> MSG_SOH \/
   client_state cl = CLIENT_MSG_READY \/ client_state cl = CLIENT_MSG_PEND) ->
  let conn1 := put_client c (set_sock_in (buf_skip 1 (sock_in cl)) cl) conn in
  parse_sock_loop (S n) conn c reg =
  if b =? MSG_SOH then Ok (conn1, reg, -1)
  else if b =? MSG_ACK then Ok (rcv_ack conn1 c, reg, 0)
  else if b =? MSG_NAK then Ok (rcv_nak conn1 c, reg, 0)
  else Ok (conn1, reg, -1).
Proof.
  intros Hl Ws Hp Hst conn1.
  assert (Hc : (c < length (clients conn))%nat) by now apply lookup_lt_Some with cl.
  destruct (buf_get_byte_spec _ 0 _ _ Ws Hp) as (E & W1 & P1).
  assert (Hend : forall cn cl', clients cn !! c = Some cl' ->
                   sock_in cl' = buf_skip 1 (sock_in cl) ->
                   parse_sock_loop n cn c reg = Ok (cn, reg, 0)).
  { intros cn cl' Hl' Hs. apply (parse_sock_loop_end _ _ _ cl' _ Hl').
    rewrite Hs. apply pending_nil_end; assumption. }
  assert (Hack : clients (rcv_ack conn1 c) !! c <> None /\
                 forall cl', clients (rcv_ack conn1 c) !! c = Some cl' ->
                             sock_in cl' = buf_skip 1 (sock_in cl)).
  { unfold rcv_ack. destruct (rx_client (rx conn1)) as [c0|].
    2: { unfold conn1. rewrite put_client_lookup by assumption.
         split; [discriminate|]. now intros cl' [= <-]. }
    destruct (c0 =? c)%nat.
    - unfold rx_ack, upd_client. rsimpl. unfold conn1, put_client. rsimpl.
      rewrite list_lookup_alter_eq, list_lookup_insert_eq by assumption.
      split; [discriminate|]. now intros cl' [= <-].
    - unfold conn1. rewrite put_client_lookup by assumption.
      split; [discriminate|]. now intros cl' [= <-]. }
  assert (Hnak : clients (rcv_nak conn1 c) !! c <> None /\
                 forall cl', clients (rcv_nak conn1 c) !! c = Some cl' ->
                             sock_in cl' = buf_skip 1 (sock_in cl)).
  { unfold rcv_nak. destruct (rx_client (rx conn1)) as [c0|].
    2: { unfold conn1. rewrite put_client_lookup by assumption.
         split; [discriminate|]. now intros cl' [= <-]. }
    destruct (c0 =? c)%nat.
    - unfold rx_nak, upd_client. rsimpl. unfold conn1, put_client. rsimpl.
      rewrite list_lookup_alter_eq, list_lookup_insert_eq by assumption.
      split; [discriminate|]. now intros cl' [= <-].
    - unfold conn1. rewrite put_client_lookup by assumption.
      split; [discriminate|]. now intros cl' [= <-]. }
  cbn [parse_sock_loop]. rewrite Hl, E. cbn [Z.eqb negb].
  rewrite (upd_client_put c _ conn cl Hl). fold conn1.
  assert (Hresp :
    (if b =? MSG_SOH then Ok (conn1, reg, -1)
     else if b =? MSG_ACK then parse_sock_loop n (rcv_ack conn1 c) c reg
     else if b =? MSG_NAK then parse_sock_loop n (rcv_nak conn1 c) c reg
     else Ok (conn1, reg, -1)) =
    (if b =? MSG_SOH then Ok (conn1, reg, -1)
     else if b =? MSG_ACK then Ok (rcv_ack conn1 c, reg, 0)
     else if b =? MSG_NAK then Ok (rcv_nak conn1 c, reg, 0)
     else Ok (conn1, reg, -1))).
  { destruct (b =? MSG_SOH); [reflexivity|].
    destruct (b =? MSG_ACK).
    - destruct Hack as [Hsome Hs].
      destruct (clients (rcv_ack conn1 c) !! c) as [cl'|] eqn:El; [|contradiction].
      apply (Hend _ cl' El). now apply Hs.
    - destruct (b =? MSG_NAK); [|reflexivity].
      destruct Hnak as [Hsome Hs].
      destruct (clients (rcv_nak conn1 c) !! c) as [cl'|] eqn:El; [|contradiction].
      apply (Hend _ cl' El). now apply Hs. }
  destruct Hst as [[Hs Hb]|[Hs|Hs]]; rewrite Hs; try exact Hresp.
  destruct (Z.eqb_spec b MSG_SOH) as [|_]; [contradiction|]. exact Hresp.
Qed.

(** The client answers a message that the receiver delivered to it with
    one byte.  ACK from the client the receiver waits for puts DLE ACK on
    the TTY, NAK puts DLE NAK; either way the receiver is idle again and
    the answer is counted for the client.  The same bytes from any other
    client change nothing.  Any other byte, and SOH from a client whose
    previous message is not done with, is a protocol error: [parse_sock_data]
    returns -1, upon which the caller closes the client. *)
Theorem client_answer (conn : CONN) (c : nat) (cl : CLIENT) (reg : CLIENT_REG) (b : Z) :
  clients conn !! c = Some cl ->
  buf_wf (sock_in cl) -> buf_pending (sock_in cl) = [b] ->
  (client_state cl = CLIENT_IDLE /\ b <> MSG_SOH \/
   client_state cl = CLIENT_MSG_READY \/ client_state cl = CLIENT_MSG_PEND) ->
  buf_wf (tty_out conn) -> (buf_len (tty_out conn) + 2 <= buf_max (tty_out conn))%nat ->
  exists conn' rc,
    parse_sock_data conn c reg = Ok (conn', reg, rc) /\
    (b = MSG_ACK -> rx_client (rx conn) = Some c ->
       rc = 0 /\
       buf_contents (tty_out conn') = buf_contents (tty_out conn) ++ [SYM_DLE; SYM_ACK] /\
       rx_state (rx conn') = RX_IDLE /\ rx_client (rx conn') = None /\
       last_was_ack (rx conn') = true /\
       (msg_accept ∘ client_dcnts) <$> clients conn' !! c =
         Some (uint_incr (msg_accept (client_dcnts cl)))) /\
    (b = MSG_NAK -> rx_client (rx conn) = Some c ->
       rc = 0 /\
       buf_contents (tty_out conn') = buf_contents (tty_out conn) ++ [SYM_DLE; SYM_NAK] /\
       rx_state (rx conn') = RX_IDLE /\ rx_client (rx conn') = None /\
       last_was_ack (rx conn') = false /\
       (msg_reject ∘ client_dcnts) <$> clients conn' !! c =
         Some (uint_incr (msg_reject (client_dcnts cl)))) /\
    ((b = MSG_ACK \/ b = MSG_NAK) -> rx_client (rx conn) <> Some c ->
       rc = 0 /\ tty_out conn' = tty_out conn /\ rx conn' = rx conn /\
       tx conn' = tx conn) /\
    (b <> MSG_ACK -> b <> MSG_NAK -> rc = -1 /\ tty_out conn' = tty_out conn /\
       rx conn' = rx conn /\ tx conn' = tx conn).
Proof.
  intros Hl Ws Hp Hst Wo Hroom.
  assert (Hc : (c < length (clients conn))%nat) by now apply lookup_lt_Some with cl.
  pose proof (pending_length _ Ws) as Hpl. rewrite Hp in Hpl. cbn [length] in Hpl.
  set (conn1 := put_client c (set_sock_in (buf_skip 1 (sock_in cl)) cl) conn).
  assert (E : parse_sock_data conn c reg =
              if b =? MSG_SOH then Ok (conn1, reg, -1)
              else if b =? MSG_ACK then Ok (rcv_ack conn1 c, reg, 0)
              else if b =? MSG_NAK then Ok (rcv_nak conn1 c, reg, 0)
              else Ok (conn1, reg, -1)).
  { unfold parse_sock_data. rewrite Hl, <- Hpl.
    now apply (parse_sock_loop_byte 0 conn c cl reg b). }
  destruct (rx_response_frame_ack_nak conn1 Wo Hroom) as [CA CN].
  assert (Hl1 : clients conn1 !! c = Some (set_sock_in (buf_skip 1 (sock_in cl)) cl))
    by now apply put_client_lookup.
  destruct (Z.eqb_spec b MSG_SOH) as [->|Hsoh].
  { exists conn1, (-1). split; [exact E|].
    split; [discriminate|]. split; [discriminate|].
    split; [intros [H|H]; discriminate|]. intros _ _. repeat split. }
  destruct (Z.eqb_spec b MSG_ACK) as [->|Hack].
  { exists (rcv_ack conn1 c), 0. split; [exact E|].
    split; [|split; [discriminate|split]].
    - intros _ Hrc. unfold rcv_ack.
      replace (rx_client (rx conn1)) with (Some c) by (symmetry; exact Hrc).
      rewrite Nat.eqb_refl. split; [reflexivity|]. split; [exact CA|].
      split; [reflexivity|]. split; [reflexivity|]. split; [reflexivity|].
      unfold upd_client, rx_ack. rsimpl. fold (clients conn1).
      rewrite list_lookup_alter_eq, Hl1. reflexivity.
    - intros _ Hrc. unfold rcv_ack.
      change (rx_client (rx conn1)) with (rx_client (rx conn)).
      destruct (rx_client (rx conn)) as [c0|]; [|repeat split].
      destruct (Nat.eqb_spec c0 c) as [->|_]; [contradiction|]. repeat split.
    - intros H. contradiction. }
  destruct (Z.eqb_spec b MSG_NAK) as [->|Hnak].
  { exists (rcv_nak conn1 c), 0. split; [exact E|].
    split; [discriminate|split; [|split]].
    - intros _ Hrc. unfold rcv_nak.
      replace (rx_client (rx conn1)) with (Some c) by (symmetry; exact Hrc).
      rewrite Nat.eqb_refl. split; [reflexivity|]. split; [exact CN|].
      split; [reflexivity|]. split; [reflexivity|]. split; [reflexivity|].
      unfold upd_client, rx_nak. rsimpl. fold (clients conn1).
      rewrite list_lookup_alter_eq, Hl1. reflexivity.
    - intros _ Hrc. unfold rcv_nak.
      change (rx_client (rx conn1)) with (rx_client (rx conn)).
      destruct (rx_client (rx conn)) as [c0|]; [|repeat split].
      destruct (Nat.eqb_spec c0 c) as [->|_]; [contradiction|]. repeat split.
    - intros _ H. contradiction. }
  exists conn1, (-1). split; [exact E|].
  split; [intros; contradiction|]. split; [intros; contradiction|].
  split; [intros [H|H]; contradiction|]. intros _ _. repeat split.
Qed.

(** ** Registration of a client *)

Lemma find_addr_from_insert l : forall i c cl cl' a,
  l !! c = Some cl -> unregistered cl ->
  find_addr_from (<[c := cl']> l) i a =
  if (client_state_rank CLIENT_IDLE <=? client_state_rank (client_state cl'))
     && (addr cl' =? a)
  then match find_addr_from (take c l) i a with
       | Some k => Some k
       | None => Some (i + c)%nat
       end
  else find_addr_from l i a.
Proof.
  induction l as [|x l IH]; intros i c cl cl' a Hl Hu; [discriminate|].
  destruct c as [|c].
  - cbn in Hl. injection Hl as ->. cbn [insert list_insert take find_addr_from].
    rewrite Nat.add_0_r.
    destruct ((client_state_rank CLIENT_IDLE <=? client_state_rank (client_state cl'))
              && (addr cl' =? a)); [reflexivity|].
    unfold unregistered in Hu.
    destruct (Z.leb_spec (client_state_rank CLIENT_IDLE) (client_state_rank (client_state cl)));
      [lia|reflexivity].
  - cbn in Hl. change (<[S c := cl']> (x :: l)) with (x :: <[c := cl']> l).
    cbn [take find_addr_from].
    destruct ((client_state_rank CLIENT_IDLE <=? client_state_rank (client_state x))
              && (addr x =? a)).
    + destruct (_ && _); reflexivity.
    + rewrite (IH (S i) c cl cl' a Hl Hu).
      replace (S i + c)%nat with (i + S c)%nat by lia. reflexivity.
Qed.

Lemma find_addr_put_unregistered conn c cl cl' a :
  clients conn !! c = Some cl -> unregistered cl -> unregistered cl' ->
  find_addr (put_client c cl' conn) a = find_addr conn a.
Proof.
  intros Hl Hu Hu'. unfold find_addr, put_client. rsimpl.
  rewrite (find_addr_from_insert _ 0 c cl cl' a Hl Hu). unfold unregistered in Hu'.
  destruct (Z.leb_spec (client_state_rank CLIENT_IDLE) (client_state_rank (client_state cl')));
    [lia|reflexivity].
Qed.

Lemma find_addr_from_take l : forall i c a,
  find_addr_from l i a = None -> find_addr_from (take c l) i a = None.
Proof.
  induction l as [|x l IH]; intros i c a H; [now destruct c|].
  destruct c as [|c]; [reflexivity|]. cbn [take find_addr_from] in *.
  destruct (_ && _); [discriminate|]. now apply IH.
Qed.

Lemma find_addr_put_registered conn c cl cl' a :
  clients conn !! c = Some cl -> unregistered cl ->
  client_state cl' = CLIENT_IDLE -> addr cl' = a ->
  find_addr conn a = None -> find_addr (put_client c cl' conn) a = Some c.
Proof.
  intros Hl Hu Hs Ha Hnone. unfold find_addr, put_client in *. rsimpl.
  rewrite (find_addr_from_insert _ 0 c cl cl' a Hl Hu), Hs, Ha, Z.eqb_refl.
  cbn [client_state_rank Z.leb Z.compare andb Pos.compare Pos.compare_cont].
  now rewrite find_addr_from_take.
Qed.

(** The name comes in. *)
Lemma parse_sock_loop_name c rest : forall n conn cl reg,
  clients conn !! c = Some cl -> client_state cl = CLIENT_REG_NAME ->
  buf_wf (sock_in cl) -> buf_pending (sock_in cl) = rest -> rest <> [] ->
  0 <= name_len_rcvd reg ->
  name_len reg = name_len_rcvd reg + Z.of_nat (length rest) ->
  name_len reg <= Z.of_nat PCCC_NAME_LEN -> (length rest <= n)%nat ->
  exists reg',
    name_len reg' = name_len reg /\ new_msg_len reg' = new_msg_len reg /\
    name_len_rcvd reg' = name_len reg /\
    parse_sock_loop n conn c reg =
    let* r := reg_client
                (put_client c (set_sock_in (buf_skip (length rest) (sock_in cl)) cl) conn)
                c in
    if snd r then Ok (fst r, reg', -1)
    else parse_sock_loop (n - length rest) (fst r) c reg'.
Proof.
  induction rest as [|x rest IH]; intros n conn cl reg Hl Hst Ws Hp Hne H0 Hlen Hmax Hn;
    [contradiction|].
  destruct n as [|n]; [simpl in Hn; lia|].
  assert (Hc : (c < length (clients conn))%nat) by now apply lookup_lt_Some with cl.
  destruct (buf_get_byte_spec _ 0 _ _ Ws Hp) as (E & W1 & P1).
  cbn [parse_sock_loop]. rewrite Hl, E. cbn [Z.eqb negb]. rewrite Hst.
  rewrite (upd_client_put c _ conn cl Hl).
  unfold PCCC_NAME_LEN in *. cbn [length] in Hlen.
  destruct (Nat.leb_spec 17 (Z.to_nat (name_len_rcvd reg))) as [Hbad|_]; [lia|].
  cbv zeta.
  set (reg1 := set_name_len_rcvd _ (set_cl_name _ reg)).
  change (name_len_rcvd reg1) with (u8 (name_len_rcvd reg + 1)).
  change (name_len reg1) with (name_len reg).
  rewrite u8_small by lia.
  destruct rest as [|y rest].
  - cbn [length] in *.
    destruct (Z.eqb_spec (name_len_rcvd reg + 1) (name_len reg)) as [_|Hbad]; [|lia].
    destruct (Nat.leb_spec 17 (Z.to_nat (name_len reg))) as [Hbad|_]; [lia|].
    exists (set_cl_name (<[Z.to_nat (name_len reg) := 0]> (cl_name reg1)) reg1).
    split; [reflexivity|]. split; [reflexivity|].
    split; [cbn; rewrite u8_small by lia; lia|].
    replace (S n - 1)%nat with n by lia. reflexivity.
  - destruct (Z.eqb_spec (name_len_rcvd reg + 1) (name_len reg)) as [Hbad|_];
      [cbn [length] in *; lia|].
    set (cl1 := set_sock_in (buf_skip 1 (sock_in cl)) cl).
    assert (Hr1 : name_len_rcvd reg1 = name_len_rcvd reg + 1)
      by (cbn; apply u8_small; lia).
    destruct (IH n (put_client c cl1 conn) cl1 reg1) as (reg' & Hnl & Hml & Hrc & Eq);
      try (now apply put_client_lookup); try assumption; try discriminate;
      try (rewrite ?Hr1; change (name_len reg1) with (name_len reg);
           cbn [length] in *; lia).
    exists reg'. split; [exact Hnl|]. split; [exact Hml|]. split; [exact Hrc|].
    rewrite Eq, put_client_twice.
    change (sock_in cl1) with (buf_skip 1 (sock_in cl)). rewrite buf_skip_skip.
    replace (length (y :: rest) + 1)%nat with (length (x :: y :: rest))
      by (cbn [length]; lia).
    replace (S n - length (x :: y :: rest))%nat with (n - length (y :: rest))%nat
      by (cbn [length]; lia).
    reflexivity.
Qed.

(** A client registers with three things: its address, the length of its
    name (1 to 16) and the name.  When no registered client has the
    address, the client is registered and idle, and from now on it is the
    client that [find_addr] finds for the address.  When the address is
    taken, [parse_sock_data] returns -1 and the client stays unregistered.
    The link itself is not touched. *)
Theorem client_registration (conn : CONN) (c : nat) (cl : CLIENT) (reg : CLIENT_REG)
    (a : Z) (nm : list Z) :
  clients conn !! c = Some cl -> client_state cl = CLIENT_CONNECTED ->
  buf_wf (sock_in cl) ->
  buf_pending (sock_in cl) = a :: Z.of_nat (length nm) :: nm ->
  (0 < length nm <= PCCC_NAME_LEN)%nat -> name_len_rcvd reg = 0 ->
  exists conn' cl' reg' rc,
    parse_sock_data conn c reg = Ok (conn', reg', rc) /\
    clients conn' !! c = Some cl' /\ addr cl' = a /\ buf_pending (sock_in cl') = [] /\
    tty_out conn' = tty_out conn /\ tx conn' = tx conn /\ rx conn' = rx conn /\
    (forall i, i <> c -> clients conn' !! i = clients conn !! i) /\
    (find_addr conn a = None ->
       rc = 0 /\ client_state cl' = CLIENT_IDLE /\ find_addr conn' a = Some c) /\
    (find_addr conn a <> None ->
       rc = -1 /\ client_state cl' = CLIENT_REG_NAME /\ find_addr conn' a = find_addr conn a).
Proof.
  intros Hl Hst Ws Hp Hlen Hr0.
  assert (Hc : (c < length (clients conn))%nat) by now apply lookup_lt_Some with cl.
  assert (Hu : unregistered cl) by (unfold unregistered; rewrite Hst; cbn; lia).
  pose proof (pending_length _ Ws) as Hpl. rewrite Hp in Hpl. cbn [length] in Hpl.
  destruct (buf_get_byte_spec _ 0 _ _ Ws Hp) as (E1 & W1 & P1).
  destruct (buf_get_byte_spec _ 0 _ _ W1 P1) as (E2 & W2 & P2).
  rewrite buf_skip_skip in E2, W2, P2. cbn [Nat.add] in E2, W2, P2.
  set (cl1 := set_client_state CLIENT_REG_LEN
                (set_addr a (set_sock_in (buf_skip 1 (sock_in cl)) cl))).
  set (cl2 := set_client_state CLIENT_REG_NAME (set_sock_in (buf_skip 2 (sock_in cl)) cl1)).
  set (reg2 := set_name_len (Z.of_nat (length nm)) reg).
  assert (Hhead : parse_sock_data conn c reg =
                  parse_sock_loop (length nm) (put_client c cl2 conn) c reg2).
  { unfold parse_sock_data. rewrite Hl, <- Hpl. cbn [parse_sock_loop].
    rewrite Hl, E1. cbn [Z.eqb negb]. rewrite Hst.
    rewrite (upd_client_put c (set_sock_in (buf_skip 1 (sock_in cl))) conn cl Hl).
    rewrite (upd_client_put c (set_addr a) _ (set_sock_in (buf_skip 1 (sock_in cl)) cl))
      by now apply put_client_lookup.
    rewrite put_client_twice.
    rewrite (upd_client_put c (set_client_state CLIENT_REG_LEN) _
               (set_addr a (set_sock_in (buf_skip 1 (sock_in cl)) cl)))
      by now apply put_client_lookup.
    rewrite put_client_twice. fold cl1.
    rewrite put_client_lookup by assumption.
    change (sock_in cl1) with (buf_skip 1 (sock_in cl)). rewrite E2.
    cbn [Z.eqb negb]. change (client_state cl1) with CLIENT_REG_LEN. cbv iota.
    rewrite (upd_client_put c (set_sock_in (buf_skip 2 (sock_in cl))) _ cl1)
      by now apply put_client_lookup.
    rewrite put_client_twice.
    rewrite (upd_client_put c (set_client_state CLIENT_REG_NAME) _
               (set_sock_in (buf_skip 2 (sock_in cl)) cl1))
      by now apply put_client_lookup.
    rewrite put_client_twice. reflexivity. }
  destruct (parse_sock_loop_name c nm (length nm) (put_client c cl2 conn) cl2 reg2)
    as (reg' & _ & _ & _ & Eq);
    try (now apply put_client_lookup); try assumption; try reflexivity;
    try (unfold reg2; cbn; lia).
  { intros ->. cbn [length] in Hlen. lia. }
  rewrite put_client_twice, Nat.sub_diag in Eq.
  change (sock_in cl2) with (buf_skip 2 (sock_in cl)) in Eq. rewrite buf_skip_skip in Eq.
  set (cl3 := set_sock_in (buf_skip (length nm + 2) (sock_in cl)) cl2) in Eq.
  assert (Hu3 : unregistered cl3) by (unfold unregistered; cbn; lia).
  assert (Hend : buf_index (sock_in cl3) = buf_len (sock_in cl3)).
  { unfold cl3, buf_skip. cbn. lia. }
  assert (Hpend3 : buf_pending (sock_in cl3) = []).
  { change (sock_in cl3) with (buf_skip (length nm + 2) (sock_in cl)).
    rewrite pending_skip, Hp.
    replace (length nm + 2)%nat with (length (a :: Z.of_nat (length nm) :: nm))
      by (cbn [length]; lia).
    apply drop_all. }
  assert (Hfa : find_addr (put_client c cl3 conn) a = find_addr conn a)
    by now apply (find_addr_put_unregistered conn c cl cl3 a).
  unfold reg_client in Eq. rewrite put_client_lookup in Eq by assumption.
  change (addr cl3) with a in Eq. rewrite Hfa in Eq.
  destruct (find_addr conn a) as [c0|] eqn:Ef.
  - exists (put_client c cl3 conn), cl3, reg', (-1).
    split; [rewrite Hhead, Eq; reflexivity|].
    split; [now apply put_client_lookup|]. split; [reflexivity|]. split; [exact Hpend3|].
    split; [reflexivity|]. split; [reflexivity|]. split; [reflexivity|].
    split; [intros i Hi; unfold put_client; rsimpl;
            now rewrite list_lookup_insert_ne by congruence|].
    split; [discriminate|]. intros _. split; [reflexivity|]. split; [reflexivity|exact Hfa].
  - cbn [bind snd fst] in Eq.
    rewrite (upd_client_put c (set_client_state CLIENT_IDLE) _ cl3) in Eq
      by now apply put_client_lookup.
    rewrite put_client_twice in Eq.
    set (cl4 := set_client_state CLIENT_IDLE cl3) in Eq.
    exists (put_client c cl4 conn), cl4, reg', 0.
    split.
    { rewrite Hhead, Eq.
      apply (parse_sock_loop_end _ _ _ cl4); [now apply put_client_lookup|exact Hend]. }
    split; [now apply put_client_lookup|]. split; [reflexivity|]. split; [exact Hpend3|].
    split; [reflexivity|]. split; [reflexivity|]. split; [reflexivity|].
    split; [intros i Hi; unfold put_client; rsimpl;
            now rewrite list_lookup_insert_ne by congruence|].
    split; [|intros H; contradiction].
    intros _. split; [reflexivity|]. split; [reflexivity|].
    now apply (find_addr_put_registered conn c cl cl4 a).
Qed.

(** ** Acceptance of a completed frame: what each outcome does *)




End Host.

(** * Closed statements: scenarios and instances *)

(** C4 fails on the code.  A fresh connection with one client registered at
    address 5 receives a valid frame whose payload of 511 bytes cannot go
    into the 512-byte socket buffer of the client together with SOH and the
    length: [client_msg_rx] sends DLE NAK, which leaves the receiver idle,
    then runs on, writes SOH and the truncated length into the socket
    buffer and records the client.  The receiver is idle with a
    client back-pointer set. *)
Theorem sink_full_leaves_client_set :
  exists conn,
    sink_run LITTLE_ENDIAN = Ok conn /\
    rx_state (rx conn) = RX_IDLE /\
    rx_client (rx conn) = Some 0%nat /\
    buf_contents (tty_out conn) = [SYM_DLE; SYM_NAK] /\
    map (fun cl => buf_contents (sock_out cl)) (clients conn) = [[MSG_SOH; 255]].
Proof.
  eexists. split; [vm_compute; reflexivity|]. vm_compute. repeat split.
Qed.

(** Side conditions at concrete inputs are settled by evaluation. *)
Ltac by_eval :=
  vm_compute;
  first [ reflexivity | lia | repeat split; first [reflexivity | lia]
        | intuition (discriminate || lia)
        | repeat constructor; discriminate ].

(** C5 as stated fails on the code.  In the scenario of the claim
    ([tx_max_enq = 2], the message sent, a silent peer) the second timeout
    does not fail the message: [tx_tick] compares [++enq_cnt > max_enq], and
    2 > 2 is false, so a second DLE ENQ is queued, nothing is failed
    ([tx_fail = 0]) and the client has received nothing.  [enqs_out] is
    still 0: no function of the daemon increments it. *)
Lemma enq_second_timeout_not_failed :
  exists conn,
    enq_timeout LITTLE_ENDIAN (enq_timeout LITTLE_ENDIAN (enq_sent LITTLE_ENDIAN)) = Ok conn /\
    tx_state (tx conn) = TX_PEND_MSG_TX /\
    buf_pending (tty_out conn) = [SYM_DLE; SYM_ENQ] /\
    map (fun cl => buf_contents (sock_out cl)) (clients conn) = [[]] /\
    resp_timeouts (dcnts conn) = 2 /\ tx_fail (dcnts conn) = 0 /\
    enqs_out (dcnts conn) = 0.
Proof.
  eexists. split; [vm_compute; reflexivity|]. vm_compute. repeat split.
Qed.

Lemma enq_twice_then_fail_witness :
  exists t1 t2 t3,
    conn_ticks LITTLE_ENDIAN (timeout_ticks (enq_waiting LITTLE_ENDIAN))
      (enq_waiting LITTLE_ENDIAN) = Ok t1 /\
    buf_pending (tty_out t1) = [SYM_DLE; SYM_ENQ] /\
    conn_ticks LITTLE_ENDIAN (timeout_ticks (enq_waiting LITTLE_ENDIAN))
      (tty_drain t1) = Ok t2 /\
    buf_pending (tty_out t2) = [SYM_DLE; SYM_ENQ] /\
    conn_ticks LITTLE_ENDIAN (timeout_ticks (enq_waiting LITTLE_ENDIAN))
      (tty_drain t2) = Ok t3 /\
    tx_state (tx t3) = TX_IDLE /\
    resp_timeouts (dcnts t3) = 3 /\ tx_fail (dcnts t3) = 1.
Proof.
  edestruct (enq_twice_then_fail LITTLE_ENDIAN (enq_waiting LITTLE_ENDIAN) 0)
    as (t1 & t2 & t3 & cl' & H); [by_eval .. |].
  exists t1, t2, t3. intuition.
Defined.

Lemma tx_nak_retransmit_or_fail_witness :
  exists out,
    tx_nak LITTLE_ENDIAN (enq_waiting LITTLE_ENDIAN) =
      Ok (set_tty_out out
            (upd_tx (set_tx_state TX_PEND_MSG_TX)
               (upd_tx (set_nak_cnt 1) (enq_waiting LITTLE_ENDIAN)))) /\
    buf_contents out =
      [SYM_DLE; SYM_STX; 5; 0; 6; 0; 0x42; 0x42; 0x42; SYM_DLE; SYM_ETX; 0x04; 0x94].
Proof.
  pose proof (tx_nak_retransmit_or_fail LITTLE_ENDIAN (enq_waiting LITTLE_ENDIAN)
                ltac:(by_eval) ltac:(by_eval) ltac:(by_eval)) as H.
  cbv zeta in H. destruct H as (H & _).
  apply H; by_eval.
Defined.

(** C7 as stated fails on the code: the window is not 500 ticks.  A
    receiver initialised by [rx_init] that is in [RX_APP] is still there
    after 500 ticks, and after 501; it is the 502nd tick that drops the
    message. *)
Lemma rx_not_expired_after_500_ticks :
  rx_tticks (rx rx_receiving) = 501 /\
  rx_state (rx (Nat.iter 500 rx_tick rx_receiving)) = RX_APP /\
  rx_state (rx (Nat.iter 501 rx_tick rx_receiving)) = RX_APP /\
  rx_state (rx (Nat.iter 502 rx_tick rx_receiving)) = RX_IDLE.
Proof. vm_compute. repeat split. Qed.

Lemma rx_timeout_window_witness :
  Nat.iter 502 rx_tick rx_receiving =
  upd_rx (set_last_was_ack false)
    (upd_rx (set_rx_state RX_IDLE) (upd_rx (set_rx_eticks 502) rx_receiving)).
Proof.
  destruct (rx_timeout_window rx_receiving 1) as (_ & _ & H).
  apply (H rx_receiving 502%nat); by_eval.
Defined.

Lemma addr_encode_decode_witness :
  exists dest',
    addr_encode LITTLE_ENDIAN (buf_new 300) 1000 = (dest', 0) /\
    buf_contents dest' = [0xff; 232; 3] /\
    addr_decode LITTLE_ENDIAN dest' 0 = (buf_skip 3 dest', 0, 1000).
Proof.
  destruct (addr_encode_decode LITTLE_ENDIAN (buf_new 300) 1000)
    as (dest' & E & W & C & I & D); [by_eval .. |].
  exists dest'. split; [exact E|]. split; [exact C|].
  apply (D dest' [] 0 W). unfold buf_pending. rewrite C, I. reflexivity.
Defined.

Lemma tx_msg_overflow_sent_witness :
  exists conn',
    tx_msg LITTLE_ENDIAN overflow_conn0 0 = Ok conn' /\
    tx_state (tx conn') = TX_PEND_MSG_TX /\
    tx_client (tx conn') = Some 0%nat /\
    buf_contents (tty_out conn') = [SYM_DLE; SYM_STX] ++ replicate 510 SYM_DLE /\
    map sock_out (clients conn') = map sock_out (clients overflow_conn0).
Proof.
  edestruct (tx_msg_overflow_sent LITTLE_ENDIAN overflow_conn0 0)
    as (conn' & E & S & C & _ & O & _ & _ & K); [by_eval .. |].
  exists conn'. split; [exact E|]. split; [exact S|]. split; [exact C|].
  split; [exact O|exact K].
Defined.

Lemma parse_msg_reply_acked_witness :
  exists out,
    parse_msg LITTLE_ENDIAN (fun _ => EmptyString) (fun _ b m e => (0, b, m, e))
      reply_priv0 =
      Ok (set_p_sock_out out reply_priv0, []) /\
    buf_contents out = [MSG_ACK].
Proof.
  destruct (parse_msg_reply_acked LITTLE_ENDIAN (fun _ => EmptyString)
              (fun _ b m e => (0, b, m, e)) reply_priv0)
    as (out & p' & called & C & E & _ & U); [by_eval .. |].
  destruct U as [-> ->]; [by_eval|].
  exists out. split; [exact E|exact C].
Defined.

Lemma df1_frame_roundtrip_witness :
  exists connT' connR',
    tx_msg LITTLE_ENDIAN enq_conn0 0 = Ok connT' /\
    buf_contents (tty_out connT') =
      [SYM_DLE; SYM_STX; 5; 0; 6; 0; 0x42; 0x42; 0x42; SYM_DLE; SYM_ETX; 0x04; 0x94] /\
    tty_input LITTLE_ENDIAN (conn_init 1 3 2 1 200) (buf_contents (tty_out connT'))
      = Ok connR' /\
    buf_contents (rx_app (rx connR')) = [5; 0; 6; 0; 0x42; 0x42; 0x42].
Proof.
  edestruct (df1_frame_roundtrip LITTLE_ENDIAN [5; 0; 6; 0; 0x42; 0x42; 0x42]
               enq_conn0 (conn_init 1 3 2 1 200) 0)
    as (connT' & connR' & H); [by_eval .. |].
  exists connT', connR'. exact H.
Defined.

Lemma tx_checksum_correct_witness :
  crc16_spec ([5; 0; 6; 0; 0x42; 0x42; 0x42] ++ [SYM_ETX]) = 0x9404 /\
  exists connT',
    tx_msg LITTLE_ENDIAN enq_conn0 0 = Ok connT' /\
    buf_contents (tty_out connT') =
      [SYM_DLE; SYM_STX; 5; 0; 6; 0; 0x42; 0x42; 0x42; SYM_DLE; SYM_ETX; 0x04; 0x94].
Proof.
  split; [vm_compute; reflexivity|].
  edestruct (tx_checksum_correct LITTLE_ENDIAN [5; 0; 6; 0; 0x42; 0x42; 0x42]
               enq_conn0 (conn_init 1 3 2 1 200) 0)
    as ((connT' & E & _ & O) & _); [by_eval .. |].
  exists connT'. split; [exact E|].
  rewrite O. vm_compute. reflexivity.
Defined.

(** C2 fails on the code of a big-endian build.  [htols] under
    [BYTE_ORDER == BIG_ENDIAN] puts the two bytes of its argument together
    as they lie in memory, which gives the argument back, and
    [buf_append_word] stores the word in host order: the CRC 0x9404 of the
    payload [05 00 06 00 42 42 42] followed by ETX leaves [tx_msg] as
    [94 04], high byte first.  A receiver of the same build reads the two
    checksum bytes low byte first, as the link has them, finds 0x0494
    against the accumulated 0x9404, counts a bad checksum and answers
    DLE NAK: it does not accept the frame its own transmitter made. *)
Theorem crc_sent_high_byte_first_on_big_endian :
  crc16_spec ([5; 0; 6; 0; 0x42; 0x42; 0x42] ++ [SYM_ETX]) = 0x9404 /\
  (exists connT,
      tx_msg BIG_ENDIAN enq_conn0 0 = Ok connT /\
      buf_contents (tty_out connT) =
        [SYM_DLE; SYM_STX; 5; 0; 6; 0; 0x42; 0x42; 0x42; SYM_DLE; SYM_ETX; 0x94; 0x04]) /\
  (exists connR,
      crc_loopback BIG_ENDIAN = Ok connR /\
      bad_cs (dcnts connR) = 1 /\ msg_rx (dcnts connR) = 0 /\
      buf_contents (tty_out connR) = [SYM_DLE; SYM_NAK] /\
      rx_state (rx connR) = RX_IDLE /\
      map (fun cl => buf_contents (sock_out cl)) (clients connR) = [[]]).
Proof.
  split; [vm_compute; reflexivity|]. split.
  - eexists. split; [vm_compute; reflexivity|]. vm_compute. reflexivity.
  - eexists. split; [vm_compute; reflexivity|]. vm_compute. repeat split.
Qed.

(** C8 fails on the code of a big-endian build, by the same [htols]: the
    address 1000 = 0x03e8 is encoded as [ff 03 e8], high byte first, and
    [addr_decode], whose [ltohs] does swap the bytes, reads these three
    bytes back as 59395 = 0xe803. *)
Theorem addr_sent_high_byte_first_on_big_endian :
  exists dest',
    addr_encode BIG_ENDIAN (buf_new 300) 1000 = (dest', 0) /\
    buf_contents dest' = [0xff; 0x03; 0xe8] /\
    addr_decode BIG_ENDIAN dest' 0 = (buf_skip 3 dest', 0, 59395).
Proof.
  eexists. split; [vm_compute; reflexivity|]. vm_compute. split; reflexivity.
Qed.



(** ** Instances of the further properties *)

Lemma CRC_ADD_residue_witness :
  CRC_ADD (CRC_ADD 0x9404 (0x9404 mod 256)) (0x9404 / 256) = 0.
Proof. apply (CRC_ADD_residue 0x9404). lia. Defined.

Lemma buf_bounded_fifo_witness :
  exists b',
    buf_append_byte (buf_read (buf_new 4) [1; 2]) 7 = (b', 0) /\
    buf_pending b' = [1; 2; 7].
Proof.
  destruct (buf_bounded_fifo (buf_read (buf_new 4) [1; 2])) as (A & _); [by_eval|].
  destruct (A 7) as (b' & E & _ & P); [by_eval|].
  exists b'. split; [exact E|]. rewrite P. reflexivity.
Defined.

Lemma buf_append_buf_whole_witness :
  exists dst',
    buf_append_buf (buf_read (buf_new 8) [1]) (buf_read (buf_new 4) [2; 3]) = (dst', 0) /\
    buf_pending dst' = [1; 2; 3].
Proof.
  destruct (buf_append_buf_whole (buf_read (buf_new 8) [1]) (buf_read (buf_new 4) [2; 3]))
    as (A & _); [by_eval ..|].
  destruct A as (dst' & E & _ & P); [by_eval|].
  exists dst'. split; [exact E|]. rewrite P. reflexivity.
Defined.

Lemma buf_write_progress_witness :
  buf_pending (buf_write (buf_read (buf_new 4) [1; 2; 3]) 2) = [3] /\
  buf_write (buf_read (buf_new 4) [1; 2; 3]) 3 = buf_empty (buf_read (buf_new 4) [1; 2; 3]).
Proof.
  split.
  - destruct (buf_write_progress (buf_read (buf_new 4) [1; 2; 3]) 2) as (_ & A & _);
      [by_eval ..|].
    destruct A as (P & _); [by_eval|]. rewrite P. reflexivity.
  - destruct (buf_write_progress (buf_read (buf_new 4) [1; 2; 3]) 3) as (_ & _ & A);
      [by_eval ..|].
    destruct A as (P & _); [by_eval|]. exact P.
Defined.

Lemma buf_word_roundtrip_witness :
  exists b' x y,
    buf_append_word BIG_ENDIAN (buf_new 4) 0x1234 = (b', 0) /\
    buf_pending b' = [x; y] /\
    buf_get_word BIG_ENDIAN b' 0 = (buf_skip 2 b', 0, 0x1234).
Proof.
  destruct (buf_word_roundtrip BIG_ENDIAN (buf_new 4) 0x1234) as (A & _); [by_eval|].
  destruct A as (b' & x & y & E & W & P & G); [by_eval|].
  exists b', x, y. split; [exact E|]. split; [exact P|].
  apply (G b' [] 0 W). exact P.
Defined.

Lemma htols_ltohs_by_host_witness :
  htols BIG_ENDIAN 1000 = 1000 /\ ltohs BIG_ENDIAN (htols BIG_ENDIAN 1000) = 59395.
Proof.
  destruct (htols_ltohs_by_host BIG_ENDIAN 1000 (buf_new 4)) as (H & L & _);
    [by_eval ..|].
  split; [exact H|]. rewrite L. reflexivity.
Defined.

Lemma rx_response_by_room_witness :
  buf_contents (tty_out (rx_ack (conn_init 0 3 3 1 1000))) = [SYM_DLE; SYM_ACK] /\
  buf_contents (tty_out (rx_nak (conn_init 0 3 3 1 1000))) = [SYM_DLE; SYM_NAK].
Proof.
  pose proof (rx_response_by_room (conn_init 0 3 3 1 1000) ltac:(by_eval)) as H.
  cbv zeta in H. destruct H as (_ & H & _).
  destruct H as (A & N); [by_eval|]. rewrite A, N. split; reflexivity.
Defined.

Lemma rx_enq_while_pending_witness :
  exists conn',
    rx_enq (delivered_conn LITTLE_ENDIAN) = Ok conn' /\
    buf_contents (tty_out conn') = [SYM_DLE; SYM_ACK] /\
    rx_state (rx conn') = RX_IDLE.
Proof.
  edestruct (rx_enq_while_pending (delivered_conn LITTLE_ENDIAN) 0)
    as (conn' & E & T & S & _); [by_eval ..|].
  exists conn'. split; [exact E|]. split; [rewrite T; reflexivity|exact S].
Defined.

Lemma rx_enq_repeats_last_witness :
  exists conn',
    rx_enq (conn_init 0 3 3 1 1000) = Ok conn' /\
    buf_contents (tty_out conn') = [SYM_DLE; SYM_NAK].
Proof.
  destruct (rx_enq_repeats_last (conn_init 0 3 3 1 1000)) as (conn' & E & T & _);
    [by_eval ..|].
  exists conn'. split; [exact E|]. rewrite T. reflexivity.
Defined.

Lemma tty_input_spurious_witness :
  exists conn',
    tty_input LITTLE_ENDIAN (conn_init 0 3 3 1 1000) [0x41; 0x42] = Ok conn' /\
    bytes_ignored (dcnts conn') = 2 /\ tty_out conn' = tty_out (conn_init 0 3 3 1 1000).
Proof.
  destruct (tty_input_spurious LITTLE_ENDIAN (conn_init 0 3 3 1 1000) [0x41; 0x42])
    as (conn' & E & _ & B & _ & T & _); [by_eval ..|].
  exists conn'. split; [exact E|]. split; [rewrite B; reflexivity|exact T].
Defined.

Lemma rx_msg_drops_after_bad_escape_witness :
  exists conn',
    rx_msg LITTLE_ENDIAN
      (set_tty_in (buf_read (buf_new TTY_BUF_SIZE) [SYM_DLE; 0x41; 0x42]) rx_receiving)
      = Ok conn' /\
    prev_dle (rx conn') = true /\ buf_contents (rx_app (rx conn')) = [].
Proof.
  destruct (rx_msg_drops_after_bad_escape LITTLE_ENDIAN
              (set_tty_in (buf_read (buf_new TTY_BUF_SIZE) [SYM_DLE; 0x41; 0x42])
                          rx_receiving) [0x41; 0x42])
    as (conn' & E & _ & _ & P & A & _); [by_eval ..|].
  exists conn'. split; [exact E|]. split; [exact P|]. rewrite A. reflexivity.
Defined.
